(** * The Python client of the maps scraper: decoder and job lifecycle

    A shallow embedding of [examples/python_client.py]: the record
    [MapsResult] with its two decoders [from_dict] and [from_csv_row], and
    the client [MapsScraperClient] ([submit_job], [wait_for_job],
    [download_csv], [fetch_places]), and the example program [main].

    Conventions of the embedding.
    - A Python [str] is a [string]; one [ascii] is one character, so the
      text of the model ranges over the code points below 256.
    - A Python value of dynamic type is a [pyval]; a [float] is a
      binary64 number of [spec_float].
    - An exception is a value of [exn]; code that may raise returns a
      [PyResult].
    - The remote service, the clock and [asyncio.sleep] are a [World]:
      an oracle answering the k-th request and the k-th clock reading,
      with a trace of the effects performed. *)

From Stdlib Require Import ZArith List String Ascii Bool Lia SpecFloat DecimalString
  DecimalPos.
From stdpp Require Import base option list gmap strings.
Import ListNotations.

Local Open Scope string_scope.
Local Open Scope Z_scope.

(** ** Exceptions and results *)

Inductive exn : Type :=
| ValueError
| JSONDecodeError            (* a subclass of ValueError *)
| OverflowError
| TypeError
| KeyError (key : string)
| AttributeError
| RuntimeError (msg : string)
| TimeoutError (msg : string)
| CsvError (msg : string)
| ClientResponseError (status : Z)
| LibraryError (name : string)  (* raised by the HTTP library itself *)
| Unrepresentable.              (* a character outside the modelled text *)

Inductive PyResult (A : Type) : Type :=
| Ok (a : A)
| Raise (e : exn).

Arguments Ok {A} a.
Arguments Raise {A} e.

Definition bind {A B : Type} (m : PyResult A) (k : A -> PyResult B) : PyResult B :=
  match m with
  | Ok a => k a
  | Raise e => Raise e
  end.

Notation "x <- m ;; k" := (bind m (fun x => k))
  (at level 100, m at next level, right associativity).

(** [except ValueError] also catches the subclass [JSONDecodeError]. *)
Definition is_ValueError (e : exn) : bool :=
  match e with
  | ValueError | JSONDecodeError => true
  | _ => false
  end.

Definition is_JSONDecodeError (e : exn) : bool :=
  match e with
  | JSONDecodeError => true
  | _ => false
  end.

(** [try: body except <class>: handler] *)
Definition try_except {A : Type} (body : PyResult A) (catches : exn -> bool)
    (handler : PyResult A) : PyResult A :=
  match body with
  | Ok a => Ok a
  | Raise e => if catches e then handler else Raise e
  end.

(** ** Python values *)

Set Warnings "-register-all".

Inductive pyval : Type :=
| PNone
| PBool (b : bool)
| PInt (z : Z)
| PFloat (f : spec_float)
| PStr (s : string)
| PList (l : list pyval)
| PDict (d : list (string * pyval)).

(** A [dict] keeps the position of a key's first insertion and the value of
    its last. *)
Fixpoint dict_set {V : Type} (d : list (string * V)) (k : string) (v : V)
    : list (string * V) :=
  match d with
  | [] => [(k, v)]
  | (k', v') :: d' =>
      if String.eqb k' k then (k', v) :: d' else (k', v') :: dict_set d' k v
  end.

Fixpoint dict_lookup (d : list (string * pyval)) (k : string) : option pyval :=
  match d with
  | [] => None
  | (k', v) :: d' => if String.eqb k' k then Some v else dict_lookup d' k
  end.

(** ** Strings *)

Definition dquote : ascii := ascii_of_nat 34.

Definition code (c : ascii) : Z := Z.of_nat (nat_of_ascii c).

(** [str.isspace] on one character (the Unicode white space below 256). *)
Definition is_space (c : ascii) : bool :=
  let n := code c in
  ((9 <=? n) && (n <=? 13)) || ((28 <=? n) && (n <=? 32))
  || (n =? 133) || (n =? 160).

Fixpoint lstrip (s : string) : string :=
  match s with
  | EmptyString => EmptyString
  | String c s' => if is_space c then lstrip s' else s
  end.

Fixpoint rstrip (s : string) : string :=
  match s with
  | EmptyString => EmptyString
  | String c s' =>
      match rstrip s' with
      | EmptyString => if is_space c then EmptyString else String c EmptyString
      | r => String c r
      end
  end.

(** [s.strip()] *)
Definition strip (s : string) : string := rstrip (lstrip s).

(** [s.split(sep)] for a one-character separator. *)
Fixpoint split (sep : ascii) (s : string) : list string :=
  match s with
  | EmptyString => [EmptyString]
  | String c s' =>
      if Ascii.eqb c sep then EmptyString :: split sep s'
      else match split sep s' with
           | p :: ps => String c p :: ps
           | [] => [String c EmptyString]
           end
  end.

(** [s.startswith(p)] *)
Definition startswith (s p : string) : bool := String.prefix p s.

(** [s.rstrip('/')] *)
Fixpoint rstrip_char (ch : ascii) (s : string) : string :=
  match s with
  | EmptyString => EmptyString
  | String c s' =>
      match rstrip_char ch s' with
      | EmptyString => if Ascii.eqb c ch then EmptyString else String c EmptyString
      | r => String c r
      end
  end.

(** [s[n:]] *)
Fixpoint drop_string (n : nat) (s : string) : string :=
  match n, s with
  | O, _ => s
  | S n', String _ s' => drop_string n' s'
  | S _, EmptyString => EmptyString
  end.

Definition is_digit (c : ascii) : bool := (48 <=? code c) && (code c <=? 57).

Definition digit_val (c : ascii) : Z := code c - 48.

(** ** [float(str)] and [int(float)]

    The grammar is CPython's ([PyFloat_FromString]): white space around
    the literal is dropped, an underscore may stand between two digits, and
    the literal is a signed [inf], [infinity] or [nan] in any letter case, or
    a signed decimal with an optional exponent. The value is the binary64
    number nearest to the decimal (ties to even); a literal beyond the range
    gives an infinity, and no error. *)

Definition prec : Z := 53.
Definition emax : Z := 1024.

(** White space of the C locale, what the number parser strips. *)
Definition is_c_space (c : ascii) : bool :=
  let n := code c in ((9 <=? n) && (n <=? 13)) || (n =? 32).

(** Characters above ASCII: white space becomes a blank, before parsing. *)
Definition to_ascii_space (c : ascii) : ascii :=
  if (code c =? 133) || (code c =? 160) then " "%char else c.

Fixpoint map_string (f : ascii -> ascii) (s : string) : string :=
  match s with
  | EmptyString => EmptyString
  | String c s' => String (f c) (map_string f s')
  end.

Fixpoint lstrip_c (s : string) : string :=
  match s with
  | EmptyString => EmptyString
  | String c s' => if is_c_space c then lstrip_c s' else s
  end.

Fixpoint rstrip_c (s : string) : string :=
  match s with
  | EmptyString => EmptyString
  | String c s' =>
      match rstrip_c s' with
      | EmptyString => if is_c_space c then EmptyString else String c EmptyString
      | r => String c r
      end
  end.

(** Underscores: each one stands after a digit and before a digit; [None]
    when one does not, else the text without them. [prev] is the character
    before [s]. *)
Fixpoint strip_underscores (prev : ascii) (s : string) : option string :=
  match s with
  | EmptyString => if Ascii.eqb prev "_" then None else Some EmptyString
  | String c s' =>
      if Ascii.eqb c "_" then
        if is_digit prev then strip_underscores c s' else None
      else if Ascii.eqb prev "_" && negb (is_digit c) then None
      else option_map (String c) (strip_underscores c s')
  end.

Definition lower (c : ascii) : ascii :=
  if (65 <=? code c) && (code c <=? 90)
  then ascii_of_nat (nat_of_ascii c + 32) else c.

(** A run of digits at the head of [s]: its value continued from [acc], how
    many digits it has, and the rest. *)
Fixpoint read_digits (acc : Z) (n : Z) (s : string) : Z * Z * string :=
  match s with
  | String c s' =>
      if is_digit c then read_digits (10 * acc + digit_val c) (n + 1) s'
      else (acc, n, s)
  | EmptyString => (acc, n, s)
  end.

(** An optional sign. *)
Definition read_sign (s : string) : bool * string :=
  match s with
  | String "-" s' => (true, s')
  | String "+" s' => (false, s')
  | _ => (false, s)
  end.

(** The binary64 number nearest to [(-1)^neg * m * 10^e]. *)
Definition decimal_to_float (neg : bool) (m : Z) (e : Z) : spec_float :=
  if m =? 0 then S754_zero neg
  else if 0 <=? e then
    binary_normalize prec emax (cond_Zopp neg (m * 10 ^ e)) 0 neg
  else
    let '(q, e', l) := SFdiv_core_binary prec emax m 0 (10 ^ (- e)) 0 in
    binary_round_aux prec emax neg q e' l.

(** The exponent part: [e] or [E], an optional sign, digits. Without a
    digit the part is not read. *)
Definition read_exponent (s : string) : Z * string :=
  match s with
  | String c s' =>
      if Ascii.eqb (lower c) "e" then
        let '(eneg, s1) := read_sign s' in
        let '(ev, en, s2) := read_digits 0 0 s1 in
        if en =? 0 then (0, s) else (cond_Zopp eneg ev, s2)
      else (0, s)
  | EmptyString => (0, s)
  end.

(** A decimal literal read from the head of [s], after the sign. *)
Definition read_decimal (neg : bool) (s : string) : option (spec_float * string) :=
  let '(ip, ni, s1) := read_digits 0 0 s in
  let '(m, nf, s2) :=
    match s1 with
    | String "." s1' =>
        let '(m, nf, s2) := read_digits ip 0 s1' in (m, nf, s2)
    | _ => (ip, 0, s1)
    end in
  if ni + nf =? 0 then None
  else
    let '(ex, s3) := read_exponent s2 in
    Some (decimal_to_float neg m (ex - nf), s3).

(** [inf], [infinity], [nan], in any letter case, after the sign. *)
Definition read_inf_or_nan (neg : bool) (s : string) : option (spec_float * string) :=
  let l := map_string lower s in
  if String.prefix "infinity" l then
    Some (S754_infinity neg, drop_string 8 s)
  else if String.prefix "inf" l then
    Some (S754_infinity neg, drop_string 3 s)
  else if String.prefix "nan" l then
    Some (S754_nan, drop_string 3 s)
  else None.

(** [float(s)] for a [str]: it raises [ValueError] and nothing else. *)
Definition py_float (s : string) : PyResult spec_float :=
  let t := rstrip_c (lstrip_c (map_string to_ascii_space s)) in
  match strip_underscores "000" t with
  | None => Raise ValueError
  | Some u =>
      let '(neg, body) := read_sign u in
      let r := match read_decimal neg body with
               | Some r => Some r
               | None => read_inf_or_nan neg body
               end in
      match r with
      | Some (f, EmptyString) => Ok f
      | _ => Raise ValueError
      end
  end.

(** [int(f)] for a [float]: truncation toward zero. *)
Definition py_int_of_float (f : spec_float) : PyResult Z :=
  match f with
  | S754_zero _ => Ok 0
  | S754_finite s m e =>
      Ok (cond_Zopp s (if 0 <=? e then Zpos m * 2 ^ e else Zpos m / 2 ^ (- e)))
  | S754_infinity _ => Raise OverflowError
  | S754_nan => Raise ValueError
  end.

(** ** [json.loads]

    The scanner of CPython's [json] module, in strict mode: white space is
    blank, tab, line feed and carriage return; the constants are [null],
    [true], [false], [NaN], [Infinity] and [-Infinity]; a number without
    fraction and exponent is an [int], any other a [float]; a string holds
    no raw control character; an object with a repeated key keeps the last
    value. Every malformed text raises [JSONDecodeError].

    A [\uXXXX] escape naming a character from 256 on has no counterpart in
    the text of this model: a document holding one decodes to [None] here
    (its shape is still checked), and [json_loads] reports it as
    [Unrepresentable]. The interpreter's resource limits (recursion depth,
    the digits of an [int]) are not part of the model. *)

Inductive scan (A : Type) : Type :=
| Parsed (a : A) (rest : string)
| Bad
| Starved.

Arguments Parsed {A} a rest.
Arguments Bad {A}.
Arguments Starved {A}.

Definition is_json_space (c : ascii) : bool :=
  (code c =? 32) || (code c =? 9) || (code c =? 10) || (code c =? 13).

Fixpoint skip_ws (s : string) : string :=
  match s with
  | String c s' => if is_json_space c then skip_ws s' else s
  | EmptyString => s
  end.

Definition hex_val (c : ascii) : option Z :=
  let n := code c in
  if (48 <=? n) && (n <=? 57) then Some (n - 48)
  else if (97 <=? n) && (n <=? 102) then Some (n - 87)
  else if (65 <=? n) && (n <=? 70) then Some (n - 55)
  else None.

Definition hex4 (a b c d : ascii) : option Z :=
  match hex_val a, hex_val b, hex_val c, hex_val d with
  | Some x, Some y, Some z, Some w => Some (((x * 16 + y) * 16 + z) * 16 + w)
  | _, _, _, _ => None
  end.

(** The character a one-letter escape stands for. *)
Definition unescape (c : ascii) : option ascii :=
  if Ascii.eqb c dquote then Some dquote
  else if Ascii.eqb c "\" then Some "\"%char
  else if Ascii.eqb c "/" then Some "/"%char
  else if Ascii.eqb c "b" then Some (ascii_of_nat 8)
  else if Ascii.eqb c "f" then Some (ascii_of_nat 12)
  else if Ascii.eqb c "n" then Some (ascii_of_nat 10)
  else if Ascii.eqb c "r" then Some (ascii_of_nat 13)
  else if Ascii.eqb c "t" then Some (ascii_of_nat 9)
  else None.

(** One more character in front of what the rest of the string decodes to. *)
Definition scan_cons (c : option ascii) (r : scan (option string)) : scan (option string) :=
  match r with
  | Parsed o rest =>
      Parsed (match c, o with Some c, Some t => Some (String c t) | _, _ => None end) rest
  | Bad => Bad
  | Starved => Starved
  end.

(** The text of a string, from after its opening quote. *)
Fixpoint scanstring (s : string) : scan (option string) :=
  match s with
  | EmptyString => Bad
  | String c rest =>
      if Ascii.eqb c dquote then Parsed (Some EmptyString) rest
      else if Ascii.eqb c "\" then
        match rest with
        | String e rest1 =>
            if Ascii.eqb e "u" then
              match rest1 with
              | String h1 (String h2 (String h3 (String h4 rest2))) =>
                  match hex4 h1 h2 h3 h4 with
                  | Some n =>
                      scan_cons (if n <? 256 then Some (ascii_of_nat (Z.to_nat n)) else None)
                                (scanstring rest2)
                  | None => Bad
                  end
              | _ => Bad
              end
            else
              match unescape e with
              | Some ch => scan_cons (Some ch) (scanstring rest1)
              | None => Bad
              end
        | EmptyString => Bad
        end
      else if code c <=? 31 then Bad
      else scan_cons (Some c) (scanstring rest)
  end.

(** A number at the head of [s]. *)
Definition match_number (s : string) : scan (option pyval) :=
  let '(neg, s0) := match s with
                    | String "-" s' => (true, s')
                    | _ => (false, s)
                    end in
  match s0 with
  | String c s0' =>
      if is_digit c then
        let '(ip, s1) :=
          if Ascii.eqb c "0" then (0, s0')
          else let '(v, _, r) := read_digits 0 0 s0 in (v, r) in
        let '(m, nf, s2) :=
          match s1 with
          | String "." (String d s1') =>
              if is_digit d then read_digits ip 0 (String d s1') else (ip, 0, s1)
          | _ => (ip, 0, s1)
          end in
        let '(ex, has_exp, s3) :=
          match s2 with
          | String e s2' =>
              if Ascii.eqb (lower e) "e" then
                let '(eneg, t1) := read_sign s2' in
                let '(ev, en, t2) := read_digits 0 0 t1 in
                if en =? 0 then (0, false, s2) else (cond_Zopp eneg ev, true, t2)
              else (0, false, s2)
          | EmptyString => (0, false, s2)
          end in
        if (0 <? nf) || has_exp
        then Parsed (Some (PFloat (decimal_to_float neg m (ex - nf)))) s3
        else Parsed (Some (PInt (cond_Zopp neg m))) s3
      else Bad
  | EmptyString => Bad
  end.

Definition opt_cons {A : Type} (o : option A) (l : option (list A)) : option (list A) :=
  match o, l with
  | Some a, Some l => Some (a :: l)
  | _, _ => None
  end.

(** The members of an object, once all are read: the object, unless a value
    it keeps has no counterpart in the model. *)
Fixpoint seal_members (d : list (string * option pyval)) : option (list (string * pyval)) :=
  match d with
  | [] => Some []
  | (k, Some v) :: d' => option_map (cons (k, v)) (seal_members d')
  | (_, None) :: _ => None
  end.

(** [scan_once] reads one value; [parse_array] the items of an array from
    its first item on; [parse_object] the members of an object from its
    first key on, [acc] being the members read so far ([None] once a key
    has no counterpart in the model). *)
Fixpoint scan_once (fuel : nat) (s : string) : scan (option pyval) :=
  match fuel with
  | O => Starved
  | S fuel' =>
      match s with
      | EmptyString => Bad
      | String c rest =>
          if Ascii.eqb c dquote then
            match scanstring rest with
            | Parsed o r => Parsed (option_map PStr o) r
            | Bad => Bad
            | Starved => Starved
            end
          else if Ascii.eqb c "{" then
            match skip_ws rest with
            | String "}" r => Parsed (Some (PDict [])) r
            | r =>
                match parse_object fuel' (Some []) r with
                | Parsed o r' => Parsed (option_map PDict o) r'
                | Bad => Bad
                | Starved => Starved
                end
            end
          else if Ascii.eqb c "[" then
            match skip_ws rest with
            | String "]" r => Parsed (Some (PList [])) r
            | r =>
                match parse_array fuel' r with
                | Parsed o r' => Parsed (option_map PList o) r'
                | Bad => Bad
                | Starved => Starved
                end
            end
          else if String.prefix "null" s then Parsed (Some PNone) (drop_string 4 s)
          else if String.prefix "true" s then Parsed (Some (PBool true)) (drop_string 4 s)
          else if String.prefix "false" s then Parsed (Some (PBool false)) (drop_string 5 s)
          else if String.prefix "NaN" s then Parsed (Some (PFloat S754_nan)) (drop_string 3 s)
          else if String.prefix "Infinity" s
            then Parsed (Some (PFloat (S754_infinity false))) (drop_string 8 s)
          else if String.prefix "-Infinity" s
            then Parsed (Some (PFloat (S754_infinity true))) (drop_string 9 s)
          else match_number s
      end
  end
with parse_array (fuel : nat) (s : string) : scan (option (list pyval)) :=
  match fuel with
  | O => Starved
  | S fuel' =>
      match scan_once fuel' s with
      | Parsed v r =>
          match skip_ws r with
          | String "]" r' => Parsed (opt_cons v (Some [])) r'
          | String "," r' =>
              match parse_array fuel' (skip_ws r') with
              | Parsed vs r'' => Parsed (opt_cons v vs) r''
              | Bad => Bad
              | Starved => Starved
              end
          | _ => Bad
          end
      | Bad => Bad
      | Starved => Starved
      end
  end
with parse_object (fuel : nat) (acc : option (list (string * option pyval)))
    (s : string) : scan (option (list (string * pyval))) :=
  match fuel with
  | O => Starved
  | S fuel' =>
      match s with
      | String c after_quote =>
          if Ascii.eqb c dquote then
            match scanstring after_quote with
            | Parsed key r =>
                match skip_ws r with
                | String ":" r1 =>
                    match scan_once fuel' (skip_ws r1) with
                    | Parsed v r2 =>
                        let acc' := match acc, key with
                                    | Some d, Some k => Some (dict_set d k v)
                                    | _, _ => None
                                    end in
                        match skip_ws r2 with
                        | String "}" r3 => Parsed (acc' ≫= seal_members) r3
                        | String "," r3 => parse_object fuel' acc' (skip_ws r3)
                        | _ => Bad
                        end
                    | Bad => Bad
                    | Starved => Starved
                    end
                | _ => Bad
                end
            | Bad => Bad
            | Starved => Starved
            end
          else Bad
      | EmptyString => Bad
      end
  end.

(** [json.loads(s)] for a [str]. *)
Definition json_loads (s : string) : PyResult pyval :=
  let t := skip_ws s in
  match scan_once (2 * String.length t + 2) t with
  | Parsed o r =>
      match skip_ws r with
      | EmptyString =>
          match o with
          | Some v => Ok v
          | None => Raise Unrepresentable
          end
      | _ => Raise JSONDecodeError
      end
  | Bad => Raise JSONDecodeError
  | Starved => Raise Unrepresentable
  end.

(** ** [csv.DictReader] over [io.StringIO]

    The reader of the [csv] module with the default dialect (comma, double
    quote, doubled quotes inside a quoted field, not strict), fed the lines
    of the payload. [io.StringIO] ends a line at a line feed and keeps it. *)

Fixpoint lines_of (cur : string) (s : string) : list string :=
  match s with
  | EmptyString => match cur with EmptyString => [] | _ => [String.rev cur] end
  | String c s' =>
      if Ascii.eqb c (ascii_of_nat 10) then String.rev (String c cur) :: lines_of EmptyString s'
      else lines_of (String c cur) s'
  end.

(** [io.StringIO(content)] iterated: the lines, each with its line feed. *)
Definition StringIO_lines (content : string) : list string := lines_of EmptyString content.

Inductive ParserState : Type :=
| START_RECORD | START_FIELD | IN_FIELD | IN_QUOTED_FIELD
| QUOTE_IN_QUOTED_FIELD | EAT_CRNL.

(** The parser: its state, the fields saved so far (last first) and the
    field being read (last character first). *)
Record ReaderObj : Type := mkReader {
  state : ParserState;
  fields : list string;
  field : string;
}.

Definition field_limit : Z := 131072.

Definition parse_reset : ReaderObj :=
  {| state := START_RECORD; fields := []; field := EmptyString |}.

Definition parse_save_field (r : ReaderObj) : ReaderObj :=
  {| state := state r; fields := String.rev (field r) :: fields r; field := EmptyString |}.

Definition parse_add_char (r : ReaderObj) (c : ascii) : PyResult ReaderObj :=
  if field_limit <=? Z.of_nat (String.length (field r))
  then Raise (CsvError "field larger than field limit (131072)")
  else Ok {| state := state r; fields := fields r; field := String c (field r) |}.

Definition set_state (r : ReaderObj) (s : ParserState) : ReaderObj :=
  {| state := s; fields := fields r; field := field r |}.

Definition is_newline (c : ascii) : bool :=
  (code c =? 10) || (code c =? 13).

(** One character, or the end of the line ([None]). *)
Definition parse_process_char (r : ReaderObj) (c : option ascii) : PyResult ReaderObj :=
  let start_field (r : ReaderObj) :=
    match c with
    | None => Ok (set_state (parse_save_field r) START_RECORD)
    | Some ch =>
        if is_newline ch then Ok (set_state (parse_save_field r) EAT_CRNL)
        else if Ascii.eqb ch dquote then Ok (set_state r IN_QUOTED_FIELD)
        else if Ascii.eqb ch "," then Ok (parse_save_field r)
        else r' <- parse_add_char r ch ;; Ok (set_state r' IN_FIELD)
    end in
  match state r with
  | START_RECORD =>
      match c with
      | None => Ok r
      | Some ch =>
          if is_newline ch then Ok (set_state r EAT_CRNL)
          else start_field (set_state r START_FIELD)
      end
  | START_FIELD => start_field r
  | IN_FIELD =>
      match c with
      | None => Ok (set_state (parse_save_field r) START_RECORD)
      | Some ch =>
          if is_newline ch then Ok (set_state (parse_save_field r) EAT_CRNL)
          else if Ascii.eqb ch "," then Ok (set_state (parse_save_field r) START_FIELD)
          else parse_add_char r ch
      end
  | IN_QUOTED_FIELD =>
      match c with
      | None => Ok r
      | Some ch =>
          if Ascii.eqb ch dquote then Ok (set_state r QUOTE_IN_QUOTED_FIELD)
          else parse_add_char r ch
      end
  | QUOTE_IN_QUOTED_FIELD =>
      match c with
      | None => Ok (set_state (parse_save_field r) START_RECORD)
      | Some ch =>
          if Ascii.eqb ch dquote then
            r' <- parse_add_char r ch ;; Ok (set_state r' IN_QUOTED_FIELD)
          else if Ascii.eqb ch "," then Ok (set_state (parse_save_field r) START_FIELD)
          else if is_newline ch then Ok (set_state (parse_save_field r) EAT_CRNL)
          else r' <- parse_add_char r ch ;; Ok (set_state r' IN_FIELD)
      end
  | EAT_CRNL =>
      match c with
      | None => Ok (set_state r START_RECORD)
      | Some ch =>
          if is_newline ch then Ok r
          else Raise (CsvError "new-line character seen in unquoted field")
      end
  end.

(** The characters of one line, then the end of the line. *)
Fixpoint parse_line (r : ReaderObj) (line : string) : PyResult ReaderObj :=
  match line with
  | EmptyString => parse_process_char r None
  | String c line' => r' <- parse_process_char r (Some c) ;; parse_line r' line'
  end.

Definition is_START_RECORD (s : ParserState) : bool :=
  match s with START_RECORD => true | _ => false end.

(** Every record the reader yields, and the error that ends it, if one
    does. A record ends with the line that leaves the parser at the start of
    a record; the end of the input inside a quoted field ends the record. *)
Fixpoint reader_records (r : ReaderObj) (lines : list string)
    : list (list string) * option exn :=
  match lines with
  | [] =>
      match state r with
      | IN_QUOTED_FIELD => ([rev (fields (parse_save_field r))], None)
      | _ => ([], None)
      end
  | line :: rest =>
      match parse_line r line with
      | Raise e => ([], Some e)
      | Ok r' =>
          if is_START_RECORD (state r') then
            let '(records, err) := reader_records parse_reset rest in
            (rev (fields r') :: records, err)
          else reader_records r' rest
      end
  end.

Definition csv_reader (content : string) : list (list string) * option exn :=
  reader_records parse_reset (StringIO_lines content).

(** A row of the [DictReader]: a cell is a [str], or [None] where the record
    is shorter than the header. The cells beyond the header go under the
    key [None], which no lookup by a column name reaches; they are left
    out. *)
Fixpoint zip_row (fieldnames : list string) (record : list string)
    (d : gmap string (option string)) : gmap string (option string) :=
  match fieldnames, record with
  | k :: ks, v :: vs => zip_row ks vs (<[k := Some v]> d)
  | k :: ks, [] => zip_row ks [] (<[k := None]> d)
  | [], _ => d
  end.

Definition is_nil {A : Type} (l : list A) : bool :=
  match l with [] => true | _ => false end.

(** [csv.DictReader(io.StringIO(content))] iterated: the first record names
    the columns, and an empty record after it is skipped. *)
Definition DictReader (content : string)
    : list (gmap string (option string)) * option exn :=
  match csv_reader content with
  | ([], err) => ([], err)
  | (fieldnames :: records, err) =>
      (map (fun record => zip_row fieldnames record ∅)
           (List.filter (fun record => negb (is_nil record)) records), err)
  end.

(** ** [MapsResult] *)

(** The dataclass: its annotations are not enforced, so every field holds a
    [pyval]. *)
Record MapsResult : Type := mkMapsResult {
  input_id : pyval;
  link : pyval;
  cid : pyval;
  title : pyval;
  category : pyval;
  address : pyval;
  open_hours : pyval;
  popular_times : pyval;
  web_site : pyval;
  phone : pyval;
  plus_code : pyval;
  review_count : pyval;
  review_rating : pyval;
  reviews_per_rating : pyval;
  latitude : pyval;
  longitude : pyval;
  status : pyval;
  description : pyval;
  reviews_link : pyval;
  thumbnail : pyval;
  timezone : pyval;
  price_range : pyval;
  data_id : pyval;
  place_id : pyval;
  images : pyval;
  reservations : pyval;
  order_online : pyval;
  menu : pyval;
  owner : pyval;
  complete_address : pyval;
  about : pyval;
  user_reviews : pyval;
  emails : pyval;
}.

Definition float_zero : pyval := PFloat (S754_zero false).

(** [data.get(key, default)] on a [Dict[str, Any]] *)
Definition dict_get (data : gmap string pyval) (key : string) (default : pyval) : pyval :=
  match data !! key with
  | Some v => v
  | None => default
  end.

(** [key in data] *)
Definition dict_contains (data : gmap string pyval) (key : string) : bool :=
  match data !! key with
  | Some _ => true
  | None => false
  end.

Definition from_dict (data : gmap string pyval) : MapsResult :=
  {| input_id := dict_get data "input_id" (PStr "");
     link := dict_get data "link" (PStr "");
     cid := dict_get data "cid" (PStr "");
     title := dict_get data "title" (PStr "");
     category := dict_get data "category" (PStr "");
     address := dict_get data "address" (PStr "");
     open_hours := dict_get data "open_hours" (PDict []);
     popular_times := dict_get data "popular_times" (PDict []);
     web_site := dict_get data "web_site" (PStr "");
     phone := dict_get data "phone" (PStr "");
     plus_code := dict_get data "plus_code" (PStr "");
     review_count := dict_get data "review_count" (PInt 0);
     review_rating := dict_get data "review_rating" float_zero;
     reviews_per_rating := dict_get data "reviews_per_rating" (PDict []);
     latitude := dict_get data "latitude" float_zero;
     longitude :=
       if dict_contains data "longtitude"
       then dict_get data "longtitude" float_zero
       else dict_get data "longitude" float_zero;
     status := dict_get data "status" (PStr "");
     description := dict_get data "description" (PStr "");
     reviews_link := dict_get data "reviews_link" (PStr "");
     thumbnail := dict_get data "thumbnail" (PStr "");
     timezone := dict_get data "timezone" (PStr "");
     price_range := dict_get data "price_range" (PStr "");
     data_id := dict_get data "data_id" (PStr "");
     place_id := dict_get data "place_id" (PStr "");
     images := dict_get data "images" (PList []);
     reservations := dict_get data "reservations" (PList []);
     order_online := dict_get data "order_online" (PList []);
     menu := dict_get data "menu" (PDict []);
     owner := dict_get data "owner" (PDict []);
     complete_address := dict_get data "complete_address" (PDict []);
     about := dict_get data "about" (PList []);
     user_reviews := dict_get data "user_reviews" (PList []);
     emails := dict_get data "emails" (PList []) |}.

(** A cell of a row is a [str] ([Some]) or Python's [None]. As a value: *)
Definition cell_val (c : option string) : pyval :=
  match c with
  | Some s => PStr s
  | None => PNone
  end.

(** [bool(c)] of a cell: [None] and the empty string are false. *)
Definition cell_truthy (c : option string) : bool :=
  match c with
  | Some s => negb (String.eqb s "")
  | None => false
  end.

(** [row.get(key, default)]; [row.get(key)] is [row_get row key None]. *)
Definition row_get (row : gmap string (option string)) (key : string)
    (default : option string) : option string :=
  match row !! key with
  | Some c => c
  | None => default
  end.

(** [json.loads(val)] and [float(val)] on a cell: a [TypeError] on [None]. *)
Definition loads (val : option string) : PyResult pyval :=
  match val with
  | Some s => json_loads s
  | None => Raise TypeError
  end.

Definition float_ (val : option string) : PyResult spec_float :=
  match val with
  | Some s => py_float s
  | None => Raise TypeError
  end.

Definition parse_json (row : gmap string (option string)) (field_name : string)
    (default : pyval) : PyResult pyval :=
  let val := row_get row field_name (Some "") in
  if negb (cell_truthy val) then Ok default
  else try_except (loads val) is_JSONDecodeError (Ok default).

Definition parse_float (row : gmap string (option string)) (field_name : string)
    (default : pyval) : PyResult pyval :=
  let val := row_get row field_name (Some "") in
  if negb (cell_truthy val) then Ok default
  else try_except (f <- float_ val ;; Ok (PFloat f)) is_ValueError (Ok default).

Definition parse_int (row : gmap string (option string)) (field_name : string)
    (default : pyval) : PyResult pyval :=
  let val := row_get row field_name (Some "") in
  if negb (cell_truthy val) then Ok default
  else try_except (f <- float_ val ;; z <- py_int_of_float f ;; Ok (PInt z))
                  is_ValueError (Ok default).

(** [val.startswith(p)] and [val.split(sep)] on a cell: an [AttributeError]
    on [None]. *)
Definition startswith_ (val : option string) (p : string) : PyResult bool :=
  match val with
  | Some s => Ok (startswith s p)
  | None => Raise AttributeError
  end.

Definition split_ (val : option string) (sep : ascii) : PyResult (list string) :=
  match val with
  | Some s => Ok (split sep s)
  | None => Raise AttributeError
  end.

(** The value of the [emails] argument of [from_csv_row]. *)
Definition emails_of_row (row : gmap string (option string)) : PyResult pyval :=
  b <- (if cell_truthy (row_get row "emails" None)
        then startswith_ (row_get row "emails" None) "["
        else Ok false) ;;
  if b : bool then parse_json row "emails" (PList [])
  else if cell_truthy (row_get row "emails" None)
  then pieces <- split_ (row_get row "emails" (Some "")) "," ;;
       Ok (PList (map (fun x => PStr (strip x)) pieces))
  else Ok (PList []).

(** The arguments are evaluated in the order the call writes them. *)
Definition from_csv_row (row : gmap string (option string)) : PyResult MapsResult :=
  let input_id_ := cell_val (row_get row "input_id" (Some "")) in
  let link_ := cell_val (row_get row "link" (Some "")) in
  let title_ := cell_val (row_get row "title" (Some "")) in
  let category_ := cell_val (row_get row "category" (Some "")) in
  let address_ := cell_val (row_get row "address" (Some "")) in
  open_hours_ <- parse_json row "open_hours" (PDict []) ;;
  popular_times_ <- parse_json row "popular_times" (PDict []) ;;
  let web_site_ := cell_val (row_get row "website" (Some "")) in
  let phone_ := cell_val (row_get row "phone" (Some "")) in
  let plus_code_ := cell_val (row_get row "plus_code" (Some "")) in
  review_count_ <- parse_int row "review_count" (PInt 0) ;;
  review_rating_ <- parse_float row "review_rating" float_zero ;;
  reviews_per_rating_ <- parse_json row "reviews_per_rating" (PDict []) ;;
  latitude_ <- parse_float row "latitude" float_zero ;;
  longitude_ <- parse_float row "longitude" float_zero ;;
  let cid_ := cell_val (row_get row "cid" (Some "")) in
  let status_ := cell_val (row_get row "status" (Some "")) in
  let description_ := cell_val (row_get row "descriptions" (Some "")) in
  let reviews_link_ := cell_val (row_get row "reviews_link" (Some "")) in
  let thumbnail_ := cell_val (row_get row "thumbnail" (Some "")) in
  let timezone_ := cell_val (row_get row "timezone" (Some "")) in
  let price_range_ := cell_val (row_get row "price_range" (Some "")) in
  let data_id_ := cell_val (row_get row "data_id" (Some "")) in
  let place_id_ := cell_val (row_get row "place_id" (Some "")) in
  images_ <- parse_json row "images" (PList []) ;;
  reservations_ <- parse_json row "reservations" (PList []) ;;
  order_online_ <- parse_json row "order_online" (PList []) ;;
  menu_ <- parse_json row "menu" (PDict []) ;;
  owner_ <- parse_json row "owner" (PDict []) ;;
  complete_address_ <- parse_json row "complete_address" (PDict []) ;;
  about_ <- parse_json row "about" (PList []) ;;
  user_reviews_ <- parse_json row "user_reviews" (PList []) ;;
  emails_ <- emails_of_row row ;;
  Ok {| input_id := input_id_; link := link_; cid := cid_; title := title_;
        category := category_; address := address_; open_hours := open_hours_;
        popular_times := popular_times_; web_site := web_site_; phone := phone_;
        plus_code := plus_code_; review_count := review_count_;
        review_rating := review_rating_;
        reviews_per_rating := reviews_per_rating_; latitude := latitude_;
        longitude := longitude_; status := status_; description := description_;
        reviews_link := reviews_link_; thumbnail := thumbnail_;
        timezone := timezone_; price_range := price_range_; data_id := data_id_;
        place_id := place_id_; images := images_; reservations := reservations_;
        order_online := order_online_; menu := menu_; owner := owner_;
        complete_address := complete_address_; about := about_;
        user_reviews := user_reviews_; emails := emails_ |}.

(** ** The world of the client

    The service answers the k-th request of a run, the clock gives the k-th
    reading of [time.time()]; both are oracles, so a world stands for any
    behaviour of the service and any passing of time. Requests, sleeps and
    log records are appended to the trace in the order they happen. *)

Inductive Method : Type := GET | POST.

Record Request : Type := mkRequest {
  req_method : Method;
  req_url : string;
  req_json : option pyval;      (* the [json=] body *)
  req_timeout : option Z;       (* the [timeout=] argument *)
}.

(** A response: its status, and what [await response.text()] and
    [await response.json()] give. *)
Record Response : Type := mkResponse {
  resp_status : Z;
  resp_text : PyResult string;
  resp_json : PyResult pyval;
}.

Inductive Event : Type :=
| EvRequest (r : Request)
| EvSleep (seconds : Z)
| EvLog (level : string) (msg : string).

Record World : Type := mkWorld {
  serve : nat -> Request -> PyResult Response;
  clock : nat -> spec_float;
  requests : nat;               (* requests issued so far *)
  readings : nat;               (* clock readings taken so far *)
  trace : list Event;
}.

(** A computation in a world: [None] when the fuel of a loop ran out. *)
Definition M (A : Type) : Type := World -> option (PyResult A * World).

Definition ret {A : Type} (a : A) : M A := fun w => Some (Ok a, w).

Definition raise {A : Type} (e : exn) : M A := fun w => Some (Raise e, w).

Definition lift {A : Type} (r : PyResult A) : M A := fun w => Some (r, w).

Definition bindM {A B : Type} (m : M A) (k : A -> M B) : M B :=
  fun w =>
    match m w with
    | Some (Ok a, w') => k a w'
    | Some (Raise e, w') => Some (Raise e, w')
    | None => None
    end.

Notation "x <~ m ;; k" := (bindM m (fun x => k))
  (at level 100, m at next level, right associativity).

Definition emit (ev : Event) (w : World) : World :=
  {| serve := serve w; clock := clock w; requests := requests w;
     readings := readings w; trace := trace w ++ [ev] |}.

(** [time.time()] *)
Definition time_time : M spec_float :=
  fun w =>
    Some (Ok (clock w (readings w)),
          {| serve := serve w; clock := clock w; requests := requests w;
             readings := S (readings w); trace := trace w |}).

(** One request of a session, [session.get] or [session.post]. *)
Definition request (r : Request) : M Response :=
  fun w =>
    Some (serve w (requests w) r,
          {| serve := serve w; clock := clock w; requests := S (requests w);
             readings := readings w; trace := trace w ++ [EvRequest r] |}).

Definition session_get (url : string) : M Response :=
  request {| req_method := GET; req_url := url; req_json := None; req_timeout := None |}.

Definition session_post (url : string) (json : pyval) (timeout : Z) : M Response :=
  request {| req_method := POST; req_url := url; req_json := Some json;
             req_timeout := Some timeout |}.

(** [await asyncio.sleep(s)] *)
Definition asyncio_sleep (s : Z) : M unit :=
  fun w => Some (Ok tt, emit (EvSleep s) w).

Definition logger_info (msg : string) : M unit :=
  fun w => Some (Ok tt, emit (EvLog "INFO" msg) w).

Definition logger_warning (msg : string) : M unit :=
  fun w => Some (Ok tt, emit (EvLog "WARNING" msg) w).

(** [f > z] for a [float] and an [int]: Python compares the exact values. *)
Definition float_gt_int (f : spec_float) (z : Z) : bool :=
  match f with
  | S754_nan => false
  | S754_infinity s => negb s
  | S754_zero _ => z <? 0
  | S754_finite s m e =>
      let v := cond_Zopp s (Zpos m) in
      if 0 <=? e then z <? v * 2 ^ e else z * 2 ^ (- e) <? v
  end.

(** [a - b] on binary64. *)
Definition float_sub (a b : spec_float) : spec_float := SFsub prec emax a b.

(** [str(z)] for an [int]. *)
Definition str_of_int (z : Z) : string := NilZero.string_of_int (Z.to_int z).

(** [v == s] for a [str] literal [s]. *)
Definition eq_str (v : pyval) (s : string) : bool :=
  match v with
  | PStr t => String.eqb t s
  | _ => false
  end.

(** [data[key]] *)
Definition getitem (data : pyval) (key : string) : PyResult pyval :=
  match data with
  | PDict d =>
      match dict_lookup d key with
      | Some v => Ok v
      | None => Raise (KeyError key)
      end
  | _ => Raise TypeError
  end.

(** [data.get(key)]: only a [dict] has the method. *)
Definition get_ (data : pyval) (key : string) : PyResult pyval :=
  match data with
  | PDict d =>
      match dict_lookup d key with
      | Some v => Ok v
      | None => Ok PNone
      end
  | _ => Raise AttributeError
  end.

(** ** [MapsScraperClient] *)

Record MapsScraperClient : Type := mkClient {
  base_url : string;
  timeout_s : Z;
}.

(** [MapsScraperClient(base_url, timeout_s)] *)
Definition init (base_url : string) (timeout_s : Z) : MapsScraperClient :=
  {| base_url := rstrip_char "/" base_url; timeout_s := timeout_s |}.

(** The keyword arguments of [submit_job]. *)
Record JobParams : Type := mkJobParams {
  lang : string;
  zoom : Z;
  radius : Z;
  depth : Z;
  fast_mode : bool;
  lat : string;
  lon : string;
  max_time : Z;
  proxies : option (list string);
}.

Definition default_params : JobParams :=
  {| lang := "en"; zoom := 15; radius := 5000; depth := 1; fast_mode := false;
     lat := "0"; lon := "0"; max_time := 180; proxies := None |}.

(** The body of the create request: [proxies] is set only when the list is
    not empty. *)
Definition real_payload (query : string) (p : JobParams) : pyval :=
  let payload :=
    [("name", PStr ("Job for " +:+ query));
     ("keywords", PList [PStr query]);
     ("lang", PStr (lang p));
     ("zoom", PInt (zoom p));
     ("radius", PInt (radius p));
     ("depth", PInt (depth p));
     ("fast_mode", PBool (fast_mode p));
     ("lat", PStr (lat p));
     ("lon", PStr (lon p));
     ("max_time", PInt (max_time p));
     ("email", PBool false)] in
  match proxies p with
  | Some (x :: xs) => PDict (dict_set payload "proxies" (PList (map PStr (x :: xs))))
  | _ => PDict payload
  end.

Definition submit_job (self : MapsScraperClient) (query : string) (p : JobParams)
    : M pyval :=
  let url := base_url self +:+ "/api/v1/jobs" in
  response <~ session_post url (real_payload query p) 30 ;;
  if negb (resp_status response =? 201) then
    text <~ lift (resp_text response) ;;
    raise (RuntimeError ("Failed to submit job: " +:+ str_of_int (resp_status response)
                         +:+ " " +:+ text))
  else
    data <~ lift (resp_json response) ;;
    lift (getitem data "id").

Section Client.

(** [str(v)] of a [float], a [list] or a [dict], as the interpreter prints
    them. *)
Variable py_repr : pyval -> string.

(** [f"{v}"] *)
Definition py_str (v : pyval) : string :=
  match v with
  | PStr s => s
  | PNone => "None"
  | PBool true => "True"
  | PBool false => "False"
  | PInt z => str_of_int z
  | _ => py_repr v
  end.

(** One turn of the [while True] of [wait_for_job], up to the sleep:
    [Some data] when the turn returns [data], [None] when it falls through
    to the sleep. *)
Definition wait_for_job_turn (self : MapsScraperClient) (url : string)
    (job_id : pyval) (start_time : spec_float) : M (option pyval) :=
  now <~ time_time ;;
  if float_gt_int (float_sub now start_time) (timeout_s self) then
    raise (TimeoutError ("Job " +:+ py_str job_id +:+ " timed out"))
  else
    response <~ session_get url ;;
    if resp_status response =? 404 then ret None
    else if negb (resp_status response =? 200) then
      _ <~ logger_warning ("Error checking job status: "
                           +:+ str_of_int (resp_status response)) ;;
      ret None
    else
      data <~ lift (resp_json response) ;;
      status <~ lift (get_ data "status") ;;
      if eq_str status "finished" || eq_str status "ok" then ret (Some data)
      else if eq_str status "failed" || eq_str status "error" then
        err <~ lift (get_ data "error") ;;
        raise (RuntimeError ("Job " +:+ py_str job_id +:+ " failed: " +:+ py_str err))
      else ret None.

(** The [while True] loop; [fuel] bounds the number of turns. *)
Fixpoint wait_for_job_loop (fuel : nat) (self : MapsScraperClient) (url : string)
    (job_id : pyval) (start_time : spec_float) (poll_s : Z) : M pyval :=
  match fuel with
  | O => fun _ => None
  | S fuel' =>
      r <~ wait_for_job_turn self url job_id start_time ;;
      match r with
      | Some data => ret data
      | None =>
          _ <~ asyncio_sleep poll_s ;;
          wait_for_job_loop fuel' self url job_id start_time poll_s
      end
  end.

Definition job_url (self : MapsScraperClient) (job_id : pyval) : string :=
  base_url self +:+ "/api/v1/jobs/" +:+ py_str job_id.

Definition wait_for_job (fuel : nat) (self : MapsScraperClient) (job_id : pyval)
    (poll_s : Z) : M pyval :=
  let url := job_url self job_id in
  start_time <~ time_time ;;
  wait_for_job_loop fuel self url job_id start_time poll_s.

(** [response.raise_for_status()]: a status from 400 on raises. *)
Definition raise_for_status (response : Response) : M unit :=
  if 400 <=? resp_status response
  then raise (ClientResponseError (resp_status response))
  else ret tt.

Definition download_csv (self : MapsScraperClient) (job_id : pyval) : M string :=
  let url := job_url self job_id +:+ "/download" in
  response <~ session_get url ;;
  _ <~ raise_for_status response ;;
  lift (resp_text response).

(** The [for row in reader] loop of [fetch_places]: [rows] are the rows the
    reader still yields, [err] the error that ends it, [results] the list
    built so far. *)
Fixpoint decode_rows (rows : list (gmap string (option string))) (err : option exn)
    (results : list MapsResult) : PyResult (list MapsResult) :=
  match rows with
  | [] =>
      match err with
      | Some e => Raise e
      | None => Ok results
      end
  | row :: rest =>
      r <- from_csv_row row ;;
      decode_rows rest err (results ++ [r])
  end.

Definition fetch_places (fuel : nat) (self : MapsScraperClient) (query : string)
    (kwargs : JobParams) : M (list MapsResult) :=
  job_id <~ submit_job self query kwargs ;;
  _ <~ logger_info ("Job submitted: " +:+ py_str job_id) ;;
  job_details <~ wait_for_job fuel self job_id 5 ;;
  status_ <~ lift (get_ job_details "status") ;;
  _ <~ logger_info ("Job finished: " +:+ py_str status_) ;;
  csv_content <~ download_csv self job_id ;;
  let '(rows, err) := DictReader csv_content in
  lift (decode_rows rows err []).

End Client.

(** ** The example program *)

(** [try: body except Exception as e: handler(e)] in a world. Every error
    of the model is an [Exception]. *)
Definition try_except_Exception {A : Type} (body : M A) (handler : exn -> M A) : M A :=
  fun w =>
    match body w with
    | Some (Raise e, w') => handler e w'
    | other => other
    end.

Section Script.

Variable py_repr : pyval -> string.

(** [str(e)] of an error of a library, as the interpreter prints it. *)
Variable library_str : exn -> string.

(** [f"{e}"]: an error raised with one message prints as the message. *)
Definition str_of_exn (e : exn) : string :=
  match e with
  | RuntimeError msg | TimeoutError msg => msg
  | _ => library_str e
  end.

(** The keyword arguments [main] passes to [fetch_places]. *)
Definition main_kwargs : JobParams :=
  {| lang := "en"; zoom := 15; radius := 1000; depth := 1; fast_mode := true;
     lat := "0"; lon := "0"; max_time := 180; proxies := None |}.

(** [main()]: the value is the list of the lines it prints; [aiohttp] tells
    whether the import of the HTTP library succeeded. *)
Definition main (fuel : nat) (aiohttp : bool) : M (list string) :=
  if negb aiohttp then ret ["aiohttp not installed, skipping execution"]
  else
    let client := init "http://localhost:8090" 300 in
    try_except_Exception
      (results <~ fetch_places py_repr fuel client "coffee shops in New York"
                    main_kwargs ;;
       let found := "Found " +:+ str_of_int (Z.of_nat (length results)) +:+ " places" in
       match results with
       | first :: _ =>
           ret [found;
                "First place: " +:+ py_str py_repr (title first) +:+ " - "
                +:+ py_str py_repr (address first)]
       | [] => ret [found]
       end)
      (fun e => ret ["Error: " +:+ str_of_exn e]).

(** The module run as a script. *)
Definition script (fuel : nat) (aiohttp : bool) : M (list string) :=
  if aiohttp then main fuel aiohttp
  else ret ["This script requires aiohttp to run. Please install it with "
            +:+ "'pip install aiohttp'."].

End Script.

(** ** Notions the statements use *)

(** [s.endswith(c)] for one character. *)
Fixpoint ends_with (c : ascii) (s : string) : bool :=
  match s with
  | EmptyString => false
  | String c' EmptyString => Ascii.eqb c' c
  | String _ s' => ends_with c s'
  end.

(** [c * n] *)
Fixpoint repeat_char (c : ascii) (n : nat) : string :=
  match n with
  | O => EmptyString
  | S n' => String c (repeat_char c n')
  end.

(** [s.count(c)] *)
Fixpoint count_char (c : ascii) (s : string) : nat :=
  match s with
  | EmptyString => O
  | String c' s' => if Ascii.eqb c' c then S (count_char c s') else count_char c s'
  end.

(** [s.isdigit()] on every character ([s] may be empty). *)
Fixpoint all_digits (s : string) : bool :=
  match s with
  | EmptyString => true
  | String c s' => is_digit c && all_digits s'
  end.

(** The number a decimal numeral continues from [acc]. *)
Fixpoint uint_value (acc : Z) (d : Decimal.uint) : Z :=
  match d with
  | Decimal.Nil => acc
  | Decimal.D0 d' => uint_value (10 * acc + 0) d'
  | Decimal.D1 d' => uint_value (10 * acc + 1) d'
  | Decimal.D2 d' => uint_value (10 * acc + 2) d'
  | Decimal.D3 d' => uint_value (10 * acc + 3) d'
  | Decimal.D4 d' => uint_value (10 * acc + 4) d'
  | Decimal.D5 d' => uint_value (10 * acc + 5) d'
  | Decimal.D6 d' => uint_value (10 * acc + 6) d'
  | Decimal.D7 d' => uint_value (10 * acc + 7) d'
  | Decimal.D8 d' => uint_value (10 * acc + 8) d'
  | Decimal.D9 d' => uint_value (10 * acc + 9) d'
  end.

(** The keys [from_dict] looks up. *)
Definition from_dict_keys : list string :=
  ["input_id"; "link"; "cid"; "title"; "category"; "address"; "open_hours";
   "popular_times"; "web_site"; "phone"; "plus_code"; "review_count";
   "review_rating"; "reviews_per_rating"; "latitude"; "longtitude"; "longitude";
   "status"; "description"; "reviews_link"; "thumbnail"; "timezone"; "price_range";
   "data_id"; "place_id"; "images"; "reservations"; "order_online"; "menu"; "owner";
   "complete_address"; "about"; "user_reviews"; "emails"].

(** The columns [from_csv_row] copies as they are, with the field each
    feeds. *)
Definition scalar_columns : list (string * (MapsResult -> pyval)) :=
  [("input_id", input_id); ("link", link); ("title", title); ("category", category);
   ("address", address); ("website", web_site); ("phone", phone);
   ("plus_code", plus_code); ("cid", cid); ("status", status);
   ("descriptions", description); ("reviews_link", reviews_link);
   ("thumbnail", thumbnail); ("timezone", timezone); ("price_range", price_range);
   ("data_id", data_id); ("place_id", place_id)].

(** The columns it decodes with [parse_float]. *)
Definition float_columns : list (string * (MapsResult -> pyval)) :=
  [("review_rating", review_rating); ("latitude", latitude); ("longitude", longitude)].

(** The columns it decodes with [parse_json], with the field and the
    default of each. *)
Definition json_columns : list (string * (MapsResult -> pyval) * pyval) :=
  [("open_hours", open_hours, PDict []); ("popular_times", popular_times, PDict []);
   ("reviews_per_rating", reviews_per_rating, PDict []); ("images", images, PList []);
   ("reservations", reservations, PList []); ("order_online", order_online, PList []);
   ("menu", menu, PDict []); ("owner", owner, PDict []);
   ("complete_address", complete_address, PDict []); ("about", about, PList []);
   ("user_reviews", user_reviews, PList [])].

(** Every column [from_csv_row] looks up. *)
Definition from_csv_row_columns : list string :=
  map fst scalar_columns ++ map (fun c => fst (fst c)) json_columns
  ++ map fst float_columns ++ ["review_count"; "emails"].

(** The requests and the sleeps of a trace, in order. *)
Fixpoint requests_of (t : list Event) : list Request :=
  match t with
  | [] => []
  | EvRequest r :: t' => r :: requests_of t'
  | _ :: t' => requests_of t'
  end.

Fixpoint sleeps_of (t : list Event) : list Z :=
  match t with
  | [] => []
  | EvSleep s :: t' => s :: sleeps_of t'
  | _ :: t' => sleeps_of t'
  end.

(** The create request of [submit_job]. *)
Definition create_request (self : MapsScraperClient) (query : string) (p : JobParams)
    : Request :=
  {| req_method := POST; req_url := base_url self +:+ "/api/v1/jobs";
     req_json := Some (real_payload query p); req_timeout := Some 30 |}.

(** [c in s] *)
Fixpoint mem_char (c : ascii) (s : string) : bool :=
  match s with
  | EmptyString => false
  | String c' s' => Ascii.eqb c' c || mem_char c s'
  end.

(** [s.isspace()] on every character ([s] may be empty). *)
Fixpoint all_space (s : string) : bool :=
  match s with
  | EmptyString => true
  | String c s' => is_space c && all_space s'
  end.

(** The four status values [wait_for_job] recognises. *)
Definition terminal_markers : list string := ["finished"; "ok"; "failed"; "error"].

(** A status value that is none of the markers: the field absent, not a
    [str], or any other text. *)
Definition non_terminal_status (d : list (string * pyval)) : Prop :=
  forall s, In s terminal_markers -> dict_lookup d "status" <> Some (PStr s).

(** An answer of the service on which the poll goes on: a response whose
    status is not 200 (404 among them), or a 200 whose payload is an object
    with a status that is none of the markers. *)
Definition non_terminal (r : PyResult Response) : Prop :=
  exists resp, r = Ok resp /\
    (resp_status resp <> 200 \/
     exists d, resp_json resp = Ok (PDict d) /\ non_terminal_status d).

(** The deadline test of a turn that reads [now]. *)
Definition deadline_passed (self : MapsScraperClient) (start_time now : spec_float) : bool :=
  float_gt_int (float_sub now start_time) (timeout_s self).

(** The world after the clock reading and the request of a turn. *)
Definition polled (url : string) (w : World) : World :=
  {| serve := serve w; clock := clock w; requests := S (requests w);
     readings := S (readings w);
     trace := trace w ++ [EvRequest {| req_method := GET; req_url := url;
                                       req_json := None; req_timeout := None |}] |}.

Definition status_request (url : string) : Request :=
  {| req_method := GET; req_url := url; req_json := None; req_timeout := None |}.

(** A line of text a CSV writer leaves as it is: not empty, with no quote,
    line feed or carriage return, and within the field limit of the
    reader. *)
Definition plain_line (b : string) : bool :=
  negb (String.eqb b "") && negb (mem_char dquote b)
  && negb (mem_char (ascii_of_nat 10) b) && negb (mem_char (ascii_of_nat 13) b)
  && (Z.of_nat (String.length b) <=? field_limit).

(** The lines, each ended by a line feed. *)
Fixpoint join_lines (lines : list string) : string :=
  match lines with
  | [] => EmptyString
  | b :: rest => b +:+ String (ascii_of_nat 10) (join_lines rest)
  end.

(** [p] in front of the first piece. *)
Definition prepend_first (p : string) (pieces : list string) : list string :=
  match pieces with
  | q :: qs => (p +:+ q) :: qs
  | [] => [p]
  end.

(** ** Worlds and rows of the examples *)

Definition json_response (status : Z) (v : pyval) : Response :=
  {| resp_status := status; resp_text := Ok ""; resp_json := Ok v |}.

Definition text_response (status : Z) (body : string) : Response :=
  {| resp_status := status; resp_text := Ok body; resp_json := Raise JSONDecodeError |}.

(** A service that answers from a script, and fails to connect after it. *)
Definition scripted (script : list (PyResult Response)) (k : nat) (_ : Request)
    : PyResult Response :=
  nth k script (Raise (LibraryError "ClientConnectorError")).

(** A whole number of seconds as a [float]. *)
Definition seconds (z : Z) : spec_float := binary_normalize prec emax z 0 false.

(** A clock that advances 100 seconds from one reading to the next, up to
    600 seconds. *)
Definition slow_clock (k : nat) : spec_float :=
  nth k (map seconds [0; 100; 200; 300; 400; 500]) (seconds 600).

Definition world_of (script : list (PyResult Response)) : World :=
  {| serve := scripted script; clock := slow_clock; requests := 0%nat;
     readings := 0%nat; trace := [] |}.

Definition no_repr (_ : pyval) : string := "".

Definition local_client : MapsScraperClient := init "http://localhost:8090/" 300.

Definition newline : string := String (ascii_of_nat 10) EmptyString.

Definition quoted (s : string) : string :=
  String dquote s +:+ String dquote EmptyString.

Definition status_payload (s : string) : pyval := PDict [("status", PStr s)].

Definition failed_payload : pyval :=
  PDict [("status", PStr "failed"); ("error", PStr "proxy unreachable")].

(** The end-to-end scenario: the job is created as [J1], the first poll
    reports [ok], and the download has two rows. *)
Definition two_rows_csv : string :=
  "title,website,review_count,emails" +:+ newline +:+
  "Cafe A,http://a.example,12.0,a@x.com" +:+ newline +:+
  "Cafe B,,abc," +:+ newline.

Definition two_rows_header : list string :=
  ["title"; "website"; "review_count"; "emails"].

Definition row_a : gmap string (option string) :=
  zip_row two_rows_header ["Cafe A"; "http://a.example"; "12.0"; "a@x.com"] ∅.

Definition row_b : gmap string (option string) :=
  zip_row two_rows_header ["Cafe B"; ""; "abc"; ""] ∅.

Definition happy_world : World :=
  world_of [Ok (json_response 201 (PDict [("id", PStr "J1")]));
            Ok (json_response 200 (status_payload "ok"));
            Ok (text_response 200 two_rows_csv)].

(** The service answers 404, then 500, then a running job, for ever. *)
Definition never_done (k : nat) (_ : Request) : PyResult Response :=
  match k with
  | O => Ok (text_response 404 "not found")
  | S O => Ok (text_response 500 "oops")
  | _ => Ok (json_response 200 (status_payload "running"))
  end.

Definition never_done_world : World :=
  {| serve := never_done; clock := slow_clock; requests := 0%nat;
     readings := 0%nat; trace := [] |}.

(** The first status payload is not JSON; the job is done right after. *)
Definition garbled_world : World :=
  world_of [Ok (text_response 200 "<html>busy</html>");
            Ok (json_response 200 (status_payload "ok"))].

Definition finishing_world : World :=
  world_of [Ok (text_response 404 "not found");
            Ok (json_response 200 (status_payload "finished"))].

Definition failing_world : World :=
  world_of [Ok (text_response 404 "not found"); Ok (json_response 200 failed_payload)].

Definition emails_row (cell : string) : gmap string (option string) :=
  {[ "emails" := Some cell ]}.

Definition review_count_row (cell : string) : gmap string (option string) :=
  {[ "review_count" := Some cell ]}.

(** ** Proof automation *)

(** Splits a chain of binds that ends in [Ok]; [lem] is the inversion lemma
    of [bind]. *)
Ltac invert_binds lem H :=
  repeat (apply lem in H; let x := fresh "v" in let E := fresh "E" in
          destruct H as (x & E & H)).

(** Proves that a key is one of a list that is written out. *)
Ltac pick_member :=
  simpl; repeat first [left; reflexivity | right].

(** * Properties *)

(** ** Strings *)

Lemma split_no_sep (sep : ascii) (s : string) :
  mem_char sep s = false -> split sep s = [s].
Proof.
  induction s as [|c s IH]; simpl; [reflexivity|].
  intros H. apply orb_false_iff in H as [Hc Hs].
  rewrite Hc, (IH Hs). reflexivity.
Qed.

Lemma lstrip_all_space (s : string) : all_space s = true -> lstrip s = EmptyString.
Proof.
  induction s as [|c s IH]; simpl; [reflexivity|].
  intros H. apply andb_true_iff in H as [Hc Hs]. rewrite Hc. auto.
Qed.

Lemma strip_all_space (s : string) : all_space s = true -> strip s = EmptyString.
Proof.
  intros H. unfold strip. rewrite (lstrip_all_space s H). reflexivity.
Qed.

Lemma all_space_mem_char (c : ascii) (s : string) :
  is_space c = false -> all_space s = true -> mem_char c s = false.
Proof.
  intros Hc. induction s as [|c' s IH]; simpl; [reflexivity|].
  intros H. apply andb_true_iff in H as [Hc' Hs].
  rewrite (IH Hs), orb_false_r.
  destruct (Ascii.eqb_spec c' c) as [->|]; [congruence|reflexivity].
Qed.

Lemma all_space_startswith (s : string) (c : ascii) :
  is_space c = false -> all_space s = true -> startswith s (String c EmptyString) = false.
Proof.
  intros Hc. destruct s as [|c' s]; simpl; [reflexivity|].
  intros H. apply andb_true_iff in H as [Hc' _].
  unfold startswith. simpl.
  destruct (ascii_dec c c') as [->|]; [congruence|reflexivity].
Qed.

(** ** Results *)

Lemma bind_Ok {A B : Type} (m : PyResult A) (k : A -> PyResult B) (b : B) :
  bind m k = Ok b -> exists a, m = Ok a /\ k a = Ok b.
Proof. destruct m; simpl; [eauto|discriminate]. Qed.

Lemma py_float_raises (s : string) (e : exn) : py_float s = Raise e -> e = ValueError.
Proof.
  unfold py_float.
  destruct (strip_underscores _ _); [|congruence].
  destruct (read_sign _) as [neg body].
  destruct (match read_decimal neg body with Some r => Some r | None => _ end)
    as [[f [|c rest]]|]; congruence.
Qed.

Lemma parse_float_never_raises row field_name default :
  exists v, parse_float row field_name default = Ok v.
Proof.
  unfold parse_float.
  destruct (row_get _ _ _) as [s|]; simpl; [|eauto].
  destruct (negb _); [eauto|]. simpl.
  destruct (py_float s) eqn:E; simpl; [eauto|].
  rewrite (py_float_raises _ _ E). simpl. eauto.
Qed.

(** ** The decoder *)

Lemma from_csv_row_Ok row r :
  from_csv_row row = Ok r ->
  web_site r = cell_val (row_get row "website" (Some "")) /\
  description r = cell_val (row_get row "descriptions" (Some "")) /\
  parse_int row "review_count" (PInt 0) = Ok (review_count r) /\
  parse_float row "review_rating" float_zero = Ok (review_rating r) /\
  parse_float row "latitude" float_zero = Ok (latitude r) /\
  parse_float row "longitude" float_zero = Ok (longitude r) /\
  emails_of_row row = Ok (emails r).
Proof.
  unfold from_csv_row. intros H. invert_binds @bind_Ok H.
  injection H as <-. simpl. repeat split; assumption.
Qed.

Lemma emails_of_row_empty row :
  row !! "emails" = None \/ row !! "emails" = Some None \/
  row !! "emails" = Some (Some "") ->
  emails_of_row row = Ok (PList []).
Proof.
  unfold emails_of_row, row_get.
  intros [-> | [-> | ->]]; reflexivity.
Qed.

Lemma cell_truthy_nonempty (v : string) : v <> "" -> cell_truthy (Some v) = true.
Proof.
  intros H. simpl. destruct (String.eqb_spec v ""); [contradiction|reflexivity].
Qed.

Lemma emails_of_row_list row v :
  row !! "emails" = Some (Some v) -> v <> "" -> startswith v "[" = true ->
  emails_of_row row = try_except (json_loads v) is_JSONDecodeError (Ok (PList [])).
Proof.
  intros Hrow Hne Hpre. unfold emails_of_row, parse_json, row_get.
  rewrite Hrow, (cell_truthy_nonempty v Hne). simpl. rewrite Hpre. reflexivity.
Qed.

Lemma emails_of_row_split row v :
  row !! "emails" = Some (Some v) -> v <> "" -> startswith v "[" = false ->
  emails_of_row row = Ok (PList (map (fun x => PStr (strip x)) (split "," v))).
Proof.
  intros Hrow Hne Hpre. unfold emails_of_row, row_get.
  rewrite Hrow, (cell_truthy_nonempty v Hne). simpl. rewrite Hpre. reflexivity.
Qed.

(** C6: the [emails] field of a decoded row follows a three-way policy: an
    empty cell (absent, [None] or the empty string) gives the empty list; a
    non-empty cell that begins with the list marker is decoded with
    [json.loads] (the empty list when that raises [JSONDecodeError]); any
    other cell is split at its commas and each piece stripped. The cell
    [a@x.com, b@y.com] gives the two addresses and the JSON list of
    [a@x.com] gives the one. *)
Theorem emails_three_way_policy (row : gmap string (option string)) (r : MapsResult) :
  from_csv_row row = Ok r ->
  (row !! "emails" = None \/ row !! "emails" = Some None \/
   row !! "emails" = Some (Some "") -> emails r = PList []) /\
  (forall v, row !! "emails" = Some (Some v) -> v <> "" -> startswith v "[" = true ->
     try_except (json_loads v) is_JSONDecodeError (Ok (PList [])) = Ok (emails r)) /\
  (forall v, row !! "emails" = Some (Some v) -> v <> "" -> startswith v "[" = false ->
     emails r = PList (map (fun x => PStr (strip x)) (split "," v))) /\
  (row !! "emails" = Some (Some "a@x.com, b@y.com") ->
     emails r = PList [PStr "a@x.com"; PStr "b@y.com"]) /\
  (row !! "emails" = Some (Some ("[" +:+ quoted "a@x.com" +:+ "]")) ->
     emails r = PList [PStr "a@x.com"]).
Proof.
  intros Hr. apply from_csv_row_Ok in Hr as (_ & _ & _ & _ & _ & _ & He).
  assert (Hsplit : forall v, row !! "emails" = Some (Some v) -> v <> "" ->
            startswith v "[" = false ->
            emails r = PList (map (fun x => PStr (strip x)) (split "," v))).
  { intros v Hrow Hne Hpre. rewrite (emails_of_row_split row v Hrow Hne Hpre) in He.
    congruence. }
  assert (Hlist : forall v, row !! "emails" = Some (Some v) -> v <> "" ->
            startswith v "[" = true ->
            try_except (json_loads v) is_JSONDecodeError (Ok (PList [])) = Ok (emails r)).
  { intros v Hrow Hne Hpre. rewrite <- He. symmetry.
    apply emails_of_row_list; assumption. }
  repeat split; try assumption.
  - intros Hempty. rewrite (emails_of_row_empty row Hempty) in He. congruence.
  - intros Hrow. apply (Hsplit _ Hrow); [discriminate|reflexivity].
  - intros Hrow. specialize (Hlist _ Hrow). vm_compute in Hlist.
    assert (H : Ok (PList [PStr "a@x.com"]) = Ok (emails r)) by (apply Hlist; congruence).
    congruence.
Qed.

Lemma emails_three_way_policy_witness :
  match from_csv_row (emails_row "a@x.com, b@y.com") with
  | Ok r => emails r = PList [PStr "a@x.com"; PStr "b@y.com"]
  | Raise _ => False
  end.
Proof.
  destruct (from_csv_row (emails_row "a@x.com, b@y.com")) as [r|e] eqn:E.
  - apply (emails_three_way_policy _ r E). reflexivity.
  - vm_compute in E. discriminate E.
Defined.

(** C10: a non-empty [emails] cell with no comma that does not begin with
    the list marker decodes to the one-element list of the stripped cell;
    so a cell of white space only decodes to the list holding the empty
    string, not to the empty list. *)
Theorem emails_single_piece (row : gmap string (option string)) (r : MapsResult)
    (v : string) :
  from_csv_row row = Ok r ->
  row !! "emails" = Some (Some v) -> v <> "" ->
  (mem_char "," v = false -> startswith v "[" = false ->
     emails r = PList [PStr (strip v)]) /\
  (all_space v = true -> emails r = PList [PStr ""]).
Proof.
  intros Hr Hrow Hne.
  apply from_csv_row_Ok in Hr as (_ & _ & _ & _ & _ & _ & He).
  assert (H1 : mem_char "," v = false -> startswith v "[" = false ->
               emails r = PList [PStr (strip v)]).
  { intros Hcomma Hpre.
    rewrite (emails_of_row_split row v Hrow Hne Hpre), (split_no_sep _ _ Hcomma) in He.
    simpl in He. congruence. }
  split; [exact H1|].
  intros Hsp. rewrite H1.
  - rewrite (strip_all_space v Hsp). reflexivity.
  - apply all_space_mem_char; [reflexivity|assumption].
  - apply all_space_startswith; [reflexivity|assumption].
Qed.

Lemma emails_single_piece_witness :
  match from_csv_row (emails_row "  ") with
  | Ok r => emails r = PList [PStr ""]
  | Raise _ => False
  end.
Proof.
  destruct (from_csv_row (emails_row "  ")) as [r|e] eqn:E.
  - apply (emails_single_piece _ r "  " E); [reflexivity|discriminate|reflexivity].
  - vm_compute in E. discriminate E.
Defined.

Lemma row_get_delete_ne (row : gmap string (option string)) (k k' : string) d :
  k <> k' -> row_get (delete k row) k' d = row_get row k' d.
Proof. intros H. unfold row_get. rewrite lookup_delete_ne by exact H. reflexivity. Qed.

Lemma parse_json_delete_ne row k k' d :
  k <> k' -> parse_json (delete k row) k' d = parse_json row k' d.
Proof. intros H. unfold parse_json. rewrite row_get_delete_ne by exact H. reflexivity. Qed.

Lemma parse_float_delete_ne row k k' d :
  k <> k' -> parse_float (delete k row) k' d = parse_float row k' d.
Proof. intros H. unfold parse_float. rewrite row_get_delete_ne by exact H. reflexivity. Qed.

Lemma parse_int_delete_ne row k k' d :
  k <> k' -> parse_int (delete k row) k' d = parse_int row k' d.
Proof. intros H. unfold parse_int. rewrite row_get_delete_ne by exact H. reflexivity. Qed.

Lemma emails_of_row_delete_ne row k :
  k <> "emails" -> emails_of_row (delete k row) = emails_of_row row.
Proof.
  intros H. unfold emails_of_row.
  rewrite parse_json_delete_ne, !row_get_delete_ne by exact H. reflexivity.
Qed.

(** Whether a row decodes does not depend on a cell that is only looked up. *)
Lemma from_csv_row_delete_scalar row k :
  In k ["website"; "descriptions"] ->
  (exists r, from_csv_row row = Ok r) ->
  exists r', from_csv_row (delete k row) = Ok r'.
Proof.
  intros Hk [r Hr]. unfold from_csv_row in *.
  assert (Hne : forall k', In k' ["open_hours"; "popular_times"; "review_count";
            "review_rating"; "reviews_per_rating"; "latitude"; "longitude"; "images";
            "reservations"; "order_online"; "menu"; "owner"; "complete_address";
            "about"; "user_reviews"; "emails"] -> k <> k').
  { intros k' Hk' ->. simpl in Hk, Hk'.
    destruct Hk as [<-|[<-|[]]];
      repeat (destruct Hk' as [Hk'|Hk']; [discriminate Hk'|]); exact Hk'. }
  rewrite !parse_json_delete_ne, !parse_float_delete_ne, parse_int_delete_ne,
    emails_of_row_delete_ne by (apply Hne; simpl; tauto).
  invert_binds @bind_Ok Hr.
  repeat match goal with E : _ = Ok _ |- _ => rewrite E; clear E end.
  simpl. eauto.
Qed.



(** C9: [from_dict] takes [longitude] from the misspelled key [longtitude]
    whenever the document has it, whatever it holds under [longitude], and
    from [longitude] (or the default) only when [longtitude] is absent. *)
Theorem from_dict_longitude_key (data : gmap string pyval) :
  (forall v, data !! "longtitude" = Some v -> longitude (from_dict data) = v) /\
  (forall v v', data !! "longtitude" = Some v -> data !! "longitude" = Some v' ->
     longitude (from_dict data) = v) /\
  (forall v', data !! "longtitude" = None -> data !! "longitude" = Some v' ->
     longitude (from_dict data) = v') /\
  (data !! "longtitude" = None -> data !! "longitude" = None ->
     longitude (from_dict data) = float_zero).
Proof.
  unfold from_dict, dict_contains, dict_get. simpl.
  repeat split.
  - intros v ->. reflexivity.
  - intros v v' -> _. reflexivity.
  - intros v' -> ->. reflexivity.
  - intros -> ->. reflexivity.
Qed.

(** C2: decoding a row can raise: a [review_count] cell that reads as an
    infinity makes [int(float(val))] raise [OverflowError], which the
    [except ValueError] of [parse_int] does not catch. *)
Theorem from_csv_row_raises_OverflowError :
  from_csv_row (review_count_row "inf") = Raise OverflowError.
Proof. vm_compute. reflexivity. Qed.

(** C7: the cells [12.0] and [abc] of [review_count] decode to 12 and 0, and
    a cell that is not a number leaves the other numeric fields at zero;
    but a [review_count] cell beyond the range of a [float] is not absorbed:
    the decoder raises [OverflowError]. *)
Theorem review_count_cells :
  parse_int (review_count_row "12.0") "review_count" (PInt 0) = Ok (PInt 12) /\
  parse_int (review_count_row "abc") "review_count" (PInt 0) = Ok (PInt 0) /\
  parse_int (review_count_row "") "review_count" (PInt 0) = Ok (PInt 0) /\
  parse_int (review_count_row "nan") "review_count" (PInt 0) = Ok (PInt 0) /\
  parse_int (review_count_row "1e999") "review_count" (PInt 0) = Raise OverflowError /\
  from_csv_row (review_count_row "1e999") = Raise OverflowError.
Proof. vm_compute. repeat split; reflexivity. Qed.

(** ** The JSON scanner always ends *)

Abbreviation len := String.length.

Lemma skip_ws_length (s : string) : (len (skip_ws s) <= len s)%nat.
Proof.
  induction s as [|c s IH]; simpl; [lia|].
  destruct (is_json_space c); simpl; lia.
Qed.

Lemma read_digits_length (s : string) :
  forall acc n v k r, read_digits acc n s = (v, k, r) -> (len r <= len s)%nat.
Proof.
  induction s as [|c s IH]; intros acc n v k r H; simpl in H.
  - injection H as _ _ <-. simpl. lia.
  - destruct (is_digit c).
    + apply IH in H. simpl. lia.
    + injection H as _ _ <-. simpl. lia.
Qed.

Lemma read_sign_length (s : string) (b : bool) (r : string) :
  read_sign s = (b, r) -> (len r <= len s)%nat.
Proof.
  destruct s as [|c s]; simpl.
  - intros H. injection H as _ <-. simpl. lia.
  - destruct (Ascii.eqb_spec c "-") as [->|];
      [intros H; injection H as _ <-; simpl; lia|].
    destruct (Ascii.eqb_spec c "+") as [->|];
      [intros H; injection H as _ <-; simpl; lia|].
    intros H.
    assert (r = String c s) as ->.
    { destruct c as [[] [] [] [] [] [] [] []]; simpl in H;
        try (injection H as _ <-; reflexivity); congruence. }
    simpl. lia.
Qed.

Lemma scan_cons_Parsed c r o rest :
  scan_cons c r = Parsed o rest -> exists o', r = Parsed o' rest.
Proof. destruct r; simpl; intros H; [injection H as _ <-; eauto|discriminate..]. Qed.

Lemma scan_cons_Starved c r : scan_cons c r = Starved -> r = Starved.
Proof. destruct r; simpl; congruence. Qed.

Lemma scanstring_spec (n : nat) :
  forall s, (len s <= n)%nat ->
  scanstring s <> Starved /\
  forall o r, scanstring s = Parsed o r -> (len r < len s)%nat.
Proof.
  induction n as [|n IH]; intros s Hn.
  { destruct s; simpl in *; [|lia]. split; [discriminate|discriminate]. }
  destruct s as [|c s]; [split; simpl; discriminate|].
  simpl in Hn. simpl scanstring.
  destruct (Ascii.eqb c dquote).
  { split; [discriminate|]. intros o r H. injection H as _ <-. simpl. lia. }
  destruct (Ascii.eqb c "\").
  - destruct s as [|e s]; [split; discriminate|].
    destruct (Ascii.eqb e "u").
    + destruct s as [|h1 [|h2 [|h3 [|h4 s]]]]; try (split; discriminate).
      destruct (hex4 h1 h2 h3 h4); [|split; discriminate].
      destruct (IH s) as [IH1 IH2]; [simpl in Hn; lia|].
      split.
      * intros H. apply scan_cons_Starved in H. contradiction.
      * intros o r H. apply scan_cons_Parsed in H as [o' H].
        apply IH2 in H. simpl. lia.
    + destruct (unescape e); [|split; discriminate].
      destruct (IH s) as [IH1 IH2]; [simpl in Hn; lia|].
      split.
      * intros H. apply scan_cons_Starved in H. contradiction.
      * intros o r H. apply scan_cons_Parsed in H as [o' H].
        apply IH2 in H. simpl. lia.
  - destruct (code c <=? 31); [split; discriminate|].
    destruct (IH s) as [IH1 IH2]; [lia|].
    split.
    + intros H. apply scan_cons_Starved in H. contradiction.
    + intros o r H. apply scan_cons_Parsed in H as [o' H].
      apply IH2 in H. simpl. lia.
Qed.

Lemma scanstring_not_Starved (s : string) : scanstring s <> Starved.
Proof. apply (scanstring_spec (len s)). lia. Qed.

Lemma scanstring_length (s : string) o r :
  scanstring s = Parsed o r -> (len r < len s)%nat.
Proof. apply (scanstring_spec (len s)). lia. Qed.

Lemma match_number_spec (s : string) :
  match_number s <> Starved /\
  forall v r, match_number s = Parsed v r -> (len r < len s)%nat.
Proof.
  unfold match_number.
  set (p := match s with String "-" s' => (true, s') | _ => (false, s) end).
  assert (Hp : (len (snd p) <= len s)%nat).
  { subst p. destruct s as [|c s]; simpl; [lia|].
    destruct c as [[] [] [] [] [] [] [] []]; simpl; lia. }
  destruct p as [neg s0]. simpl in Hp.
  destruct s0 as [|c s0']; [split; discriminate|].
  destruct (is_digit c) eqn:Hc; [|split; discriminate].
  set (q := if Ascii.eqb c "0" then (0, s0')
            else let '(v, _, r) := read_digits 0 0 (String c s0') in (v, r)).
  assert (Hq : (len (snd q) <= len s0')%nat).
  { subst q. destruct (Ascii.eqb c "0"); simpl; [lia|].
    rewrite Hc. destruct (read_digits _ _ s0') as [[v k] r] eqn:E.
    apply read_digits_length in E. simpl. exact E. }
  destruct q as [ip s1]. simpl in Hq.
  set (f := match s1 with
            | String "." (String d s1') =>
                if is_digit d then read_digits ip 0 (String d s1') else (ip, 0, s1)
            | _ => (ip, 0, s1)
            end).
  assert (Hf : (len (snd f) <= len s1)%nat).
  { subst f. destruct s1 as [|c1 s1]; simpl; [lia|].
    destruct (Ascii.eqb_spec c1 "."); [subst c1|].
    - destruct s1 as [|d s1]; simpl; [lia|].
      destruct (is_digit d) eqn:Hd; simpl; [|lia].
      destruct (read_digits _ _ s1) as [[v k] r] eqn:E.
      apply read_digits_length in E. simpl. lia.
    - destruct c1 as [[] [] [] [] [] [] [] []]; simpl; try lia; congruence. }
  destruct f as [[m nf] s2]. simpl in Hf.
  set (x := match s2 with
            | String e s2' =>
                if Ascii.eqb (lower e) "e" then
                  let '(eneg, t1) := read_sign s2' in
                  let '(ev, en, t2) := read_digits 0 0 t1 in
                  if en =? 0 then (0, false, s2) else (cond_Zopp eneg ev, true, t2)
                else (0, false, s2)
            | EmptyString => (0, false, s2)
            end).
  assert (Hx : (len (snd x) <= len s2)%nat).
  { subst x. destruct s2 as [|e s2]; simpl; [lia|].
    destruct (Ascii.eqb (lower e) "e"); simpl; [|lia].
    destruct (read_sign s2) as [eneg t1] eqn:E1.
    destruct (read_digits 0 0 t1) as [[ev en] t2] eqn:E2.
    apply read_sign_length in E1. apply read_digits_length in E2.
    destruct (en =? 0); simpl; lia. }
  destruct x as [[ex has_exp] s3]. simpl in Hx.
  split.
  - destruct ((0 <? nf) || has_exp); discriminate.
  - intros v r H. assert (r = s3) as ->
      by (destruct ((0 <? nf) || has_exp); injection H as _ <-; reflexivity).
    simpl in *. lia.
Qed.

Lemma prefix_drop_length (p s : string) :
  String.prefix p s = true -> (len (drop_string (len p) s) + len p = len s)%nat.
Proof.
  revert s. induction p as [|c p IH]; intros s H; simpl.
  - lia.
  - destruct s as [|c' s]; simpl in H; [discriminate|].
    destruct (ascii_dec c c'); [|discriminate].
    specialize (IH s H). simpl. lia.
Qed.

(** With fuel beyond twice the length of the text, the scanner ends, and
    what it leaves is shorter than what it was given. *)
Lemma scan_spec (fuel : nat) :
  (forall s, (2 * len s < fuel)%nat -> scan_once fuel s <> Starved) /\
  (forall s v r, scan_once fuel s = Parsed v r -> (len r < len s)%nat) /\
  (forall s, (2 * len s + 1 < fuel)%nat -> parse_array fuel s <> Starved) /\
  (forall s v r, parse_array fuel s = Parsed v r -> (len r < len s)%nat) /\
  (forall s acc, (2 * len s + 1 < fuel)%nat -> parse_object fuel acc s <> Starved) /\
  (forall s acc v r, parse_object fuel acc s = Parsed v r -> (len r < len s)%nat).
Proof.
  induction fuel as [|fuel (IH1 & IH2 & IH3 & IH4 & IH5 & IH6)].
  { repeat split; intros; simpl in *; try lia; discriminate. }
  assert (Hscan_len : forall s v r, scan_once (S fuel) s = Parsed v r ->
                                    (len r < len s)%nat).
  { intros s v r H. simpl in H.
    destruct s as [|c rest]; [discriminate|].
    destruct (Ascii.eqb c dquote).
    { destruct (scanstring rest) as [o r'| |] eqn:E; try discriminate.
      injection H as _ <-. apply scanstring_length in E. simpl. lia. }
    destruct (Ascii.eqb c "{").
    { pose proof (skip_ws_length rest) as Hws.
      destruct (skip_ws rest) as [|c1 r1] eqn:Ews.
      - destruct (parse_object fuel (Some []) "") as [o r'| |] eqn:E; try discriminate.
        injection H as _ <-. apply IH6 in E. simpl in *. lia.
      - destruct (Ascii.eqb_spec c1 "}") as [->|Hc1].
        + injection H as _ <-. simpl in *. lia.
        + assert (H' : match parse_object fuel (Some []) (String c1 r1) with
                       | Parsed o r' => Parsed (option_map PDict o) r'
                       | Bad => Bad
                       | Starved => Starved
                       end = Parsed v r).
          { destruct c1 as [[] [] [] [] [] [] [] []]; try exact H; congruence. }
          destruct (parse_object fuel (Some []) (String c1 r1)) as [o r'| |] eqn:E;
            try discriminate.
          injection H' as _ <-. apply IH6 in E. simpl in *. lia. }
    destruct (Ascii.eqb c "[").
    { pose proof (skip_ws_length rest) as Hws.
      destruct (skip_ws rest) as [|c1 r1] eqn:Ews.
      - destruct (parse_array fuel "") as [o r'| |] eqn:E; try discriminate.
        injection H as _ <-. apply IH4 in E. simpl in *. lia.
      - destruct (Ascii.eqb_spec c1 "]") as [->|Hc1].
        + injection H as _ <-. simpl in *. lia.
        + assert (H' : match parse_array fuel (String c1 r1) with
                       | Parsed o r' => Parsed (option_map PList o) r'
                       | Bad => Bad
                       | Starved => Starved
                       end = Parsed v r).
          { destruct c1 as [[] [] [] [] [] [] [] []]; try exact H; congruence. }
          destruct (parse_array fuel (String c1 r1)) as [o r'| |] eqn:E;
            try discriminate.
          injection H' as _ <-. apply IH4 in E. simpl in *. lia. }
    repeat match type of H with
    | (if String.prefix ?p ?t then _ else _) = _ =>
        let E := fresh "E" in
        destruct (String.prefix p t) eqn:E;
          [injection H as _ <-; apply prefix_drop_length in E; simpl in E |- *; lia|]
    end.
    apply (proj2 (match_number_spec _)) in H. exact H. }
  assert (Hscan_end : forall s, (2 * len s < S fuel)%nat -> scan_once (S fuel) s <> Starved).
  { intros s Hf. simpl.
    destruct s as [|c rest]; [discriminate|].
    destruct (Ascii.eqb c dquote).
    { pose proof (scanstring_not_Starved rest).
      destruct (scanstring rest); congruence. }
    simpl in Hf.
    destruct (Ascii.eqb c "{").
    { pose proof (skip_ws_length rest) as Hws.
      destruct (skip_ws rest) as [|c1 r1] eqn:Ews.
      - assert (Hn : parse_object fuel (Some []) "" <> Starved)
          by (apply IH5; simpl; lia).
        destruct (parse_object fuel (Some []) ""); congruence.
      - destruct (Ascii.eqb_spec c1 "}") as [->|Hc1]; [discriminate|].
        assert (Hn : parse_object fuel (Some []) (String c1 r1) <> Starved)
          by (apply IH5; simpl in *; lia).
        destruct c1 as [[] [] [] [] [] [] [] []];
          destruct (parse_object fuel (Some []) _); congruence. }
    destruct (Ascii.eqb c "[").
    { pose proof (skip_ws_length rest) as Hws.
      destruct (skip_ws rest) as [|c1 r1] eqn:Ews.
      - assert (Hn : parse_array fuel "" <> Starved)
          by (apply IH3; simpl; lia).
        destruct (parse_array fuel ""); congruence.
      - destruct (Ascii.eqb_spec c1 "]") as [->|Hc1]; [discriminate|].
        assert (Hn : parse_array fuel (String c1 r1) <> Starved)
          by (apply IH3; simpl in *; lia).
        destruct c1 as [[] [] [] [] [] [] [] []];
          destruct (parse_array fuel _); congruence. }
    repeat match goal with
    | |- (if String.prefix ?p ?t then _ else _) <> _ =>
        destruct (String.prefix p t); [discriminate|]
    end.
    apply (proj1 (match_number_spec _)). }
  split; [exact Hscan_end|]. split; [exact Hscan_len|].
  split; [|split; [|split]].
  - (* parse_array ends *)
    intros s Hf. simpl.
    assert (Hn : scan_once fuel s <> Starved) by (apply IH1; lia).
    destruct (scan_once fuel s) as [v r| |] eqn:E; [|discriminate|congruence].
    apply IH2 in E. pose proof (skip_ws_length r) as Hws.
    destruct (skip_ws r) as [|c1 r1] eqn:Ews; [discriminate|].
    destruct (Ascii.eqb_spec c1 "]") as [->|Hc1]; [discriminate|].
    destruct (Ascii.eqb_spec c1 ",") as [->|Hc2].
    + assert (Hn2 : parse_array fuel (skip_ws r1) <> Starved).
      { apply IH3. pose proof (skip_ws_length r1). simpl in *. lia. }
      destruct (parse_array fuel (skip_ws r1)); congruence.
    + destruct c1 as [[] [] [] [] [] [] [] []]; try discriminate; congruence.
  - (* parse_array consumes *)
    intros s v r H. simpl in H.
    destruct (scan_once fuel s) as [v0 r0| |] eqn:E; try discriminate.
    apply IH2 in E. pose proof (skip_ws_length r0) as Hws.
    destruct (skip_ws r0) as [|c1 r1] eqn:Ews; [discriminate|].
    destruct (Ascii.eqb_spec c1 "]") as [->|Hc1].
    { injection H as _ <-. simpl in *. lia. }
    destruct (Ascii.eqb_spec c1 ",") as [->|Hc2].
    + destruct (parse_array fuel (skip_ws r1)) as [vs r2| |] eqn:E2; try discriminate.
      injection H as _ <-. apply IH4 in E2.
      pose proof (skip_ws_length r1). simpl in *. lia.
    + exfalso. destruct c1 as [[] [] [] [] [] [] [] []]; try discriminate; congruence.
  - (* parse_object ends *)
    intros s acc Hf. simpl.
    destruct s as [|c after]; [discriminate|].
    destruct (Ascii.eqb c dquote); [|discriminate].
    pose proof (scanstring_not_Starved after) as Hss.
    destruct (scanstring after) as [key r| |] eqn:E; [|discriminate|congruence].
    apply scanstring_length in E. pose proof (skip_ws_length r) as Hws.
    destruct (skip_ws r) as [|c1 r1] eqn:Ews; [discriminate|].
    destruct (Ascii.eqb_spec c1 ":") as [->|Hc1].
    2:{ destruct c1 as [[] [] [] [] [] [] [] []]; try discriminate; congruence. }
    pose proof (skip_ws_length r1) as Hws1.
    assert (Hn : scan_once fuel (skip_ws r1) <> Starved)
      by (apply IH1; simpl in *; lia).
    destruct (scan_once fuel (skip_ws r1)) as [v r2| |] eqn:E2;
      [|discriminate|congruence].
    apply IH2 in E2. pose proof (skip_ws_length r2) as Hws2.
    destruct (skip_ws r2) as [|c2 r3] eqn:Ews2; [discriminate|].
    destruct (Ascii.eqb_spec c2 "}") as [->|Hc2]; [discriminate|].
    destruct (Ascii.eqb_spec c2 ",") as [->|Hc3].
    + apply IH5. pose proof (skip_ws_length r3). simpl in *. lia.
    + destruct c2 as [[] [] [] [] [] [] [] []]; try discriminate; congruence.
  - (* parse_object consumes *)
    intros s acc v r H. simpl in H.
    destruct s as [|c after]; [discriminate|].
    destruct (Ascii.eqb c dquote); [|discriminate].
    destruct (scanstring after) as [key r0| |] eqn:E; try discriminate.
    apply scanstring_length in E. pose proof (skip_ws_length r0) as Hws.
    destruct (skip_ws r0) as [|c1 r1] eqn:Ews; [discriminate|].
    destruct (Ascii.eqb_spec c1 ":") as [->|Hc1].
    2:{ exfalso. destruct c1 as [[] [] [] [] [] [] [] []]; try discriminate; congruence. }
    pose proof (skip_ws_length r1) as Hws1.
    destruct (scan_once fuel (skip_ws r1)) as [v0 r2| |] eqn:E2; try discriminate.
    apply IH2 in E2. pose proof (skip_ws_length r2) as Hws2.
    destruct (skip_ws r2) as [|c2 r3] eqn:Ews2; [discriminate|].
    destruct (Ascii.eqb_spec c2 "}") as [->|Hc2].
    { injection H as _ <-. simpl in *. lia. }
    destruct (Ascii.eqb_spec c2 ",") as [->|Hc3].
    + apply IH6 in H. pose proof (skip_ws_length r3). simpl in *. lia.
    + exfalso. destruct c2 as [[] [] [] [] [] [] [] []]; try discriminate; congruence.
Qed.

(** [json.loads] either returns a value or raises [JSONDecodeError]; the
    only other outcome of the model marks a string with a character from 256
    on. The scanner never runs out of fuel. *)
Lemma json_loads_scan_ends (s : string) :
  scan_once (2 * len (skip_ws s) + 2) (skip_ws s) <> Starved.
Proof. apply (proj1 (scan_spec _)). lia. Qed.

Lemma json_loads_outcomes (s : string) :
  (exists v, json_loads s = Ok v) \/ json_loads s = Raise JSONDecodeError \/
  (json_loads s = Raise Unrepresentable /\
   exists r, scan_once (2 * len (skip_ws s) + 2) (skip_ws s) = Parsed None r).
Proof.
  unfold json_loads. pose proof (json_loads_scan_ends s) as Hn.
  destruct (scan_once _ (skip_ws s)) as [o r| |]; [|auto|congruence].
  destruct (skip_ws r); [|auto].
  destruct o; eauto.
Qed.

(** ** The poll *)

Section Poll.

Variable py_repr : pyval -> string.
Variable self : MapsScraperClient.
Variable url : string.
Variable job_id : pyval.
Variable start_time : spec_float.
Variable poll_s : Z.

Abbreviation turn := (wait_for_job_turn py_repr self url job_id start_time).
Abbreviation loop := (fun fuel => wait_for_job_loop py_repr fuel self url job_id start_time poll_s).

Lemma eq_str_true (v : pyval) (s : string) : eq_str v s = true <-> v = PStr s.
Proof.
  destruct v; simpl; try (split; [discriminate|discriminate]).
  rewrite String.eqb_eq. split; congruence.
Qed.

(** The status a payload shows when it is none of the markers. *)
Lemma non_terminal_status_get (d : list (string * pyval)) :
  non_terminal_status d ->
  exists st, get_ (PDict d) "status" = Ok st /\
    eq_str st "finished" = false /\ eq_str st "ok" = false /\
    eq_str st "failed" = false /\ eq_str st "error" = false.
Proof.
  intros H. unfold non_terminal_status, terminal_markers in H. simpl.
  assert (Hst : forall st, (dict_lookup d "status" = Some st \/
                            (dict_lookup d "status" = None /\ st = PNone)) ->
            forall s, In s ["finished"; "ok"; "failed"; "error"] -> eq_str st s = false).
  { intros st Hst s Hs. destruct (eq_str st s) eqn:E; [|reflexivity].
    apply eq_str_true in E. subst st. destruct Hst as [Hst|[_ Hst]]; [|discriminate].
    exfalso. exact (H s Hs Hst). }
  destruct (dict_lookup d "status") as [st|] eqn:E.
  - exists st. split; [reflexivity|].
    repeat split; apply Hst; simpl; auto 6.
  - exists PNone. split; [reflexivity|]. repeat split.
Qed.

Lemma turn_deadline (w : World) :
  deadline_passed self start_time (clock w (readings w)) = true ->
  exists w', turn w =
    Some (Raise (TimeoutError ("Job " +:+ py_str py_repr job_id +:+ " timed out")), w').
Proof.
  intros H. unfold wait_for_job_turn, bindM, time_time. unfold deadline_passed in H.
  rewrite H. unfold raise. eauto.
Qed.

Lemma turn_response (w : World) :
  deadline_passed self start_time (clock w (readings w)) = false ->
  turn w =
    match serve w (requests w) (status_request url) with
    | Raise e => Some (Raise e, polled url w)
    | Ok response =>
        (if resp_status response =? 404 then ret None
         else if negb (resp_status response =? 200) then
           _ <~ logger_warning ("Error checking job status: "
                                +:+ str_of_int (resp_status response)) ;;
           ret None
         else
           data <~ lift (resp_json response) ;;
           status <~ lift (get_ data "status") ;;
           if eq_str status "finished" || eq_str status "ok" then ret (Some data)
           else if eq_str status "failed" || eq_str status "error" then
             err <~ lift (get_ data "error") ;;
             raise (RuntimeError ("Job " +:+ py_str py_repr job_id +:+ " failed: "
                                  +:+ py_str py_repr err))
           else ret None) (polled url w)
    end.
Proof.
  intros H. unfold wait_for_job_turn, bindM at 1, time_time. unfold deadline_passed in H.
  rewrite H. unfold bindM at 1, session_get, request, status_request, polled. simpl.
  destruct (serve w (requests w) _); reflexivity.
Qed.

Lemma turn_non_terminal (w : World) :
  deadline_passed self start_time (clock w (readings w)) = false ->
  non_terminal (serve w (requests w) (status_request url)) ->
  exists w', turn w = Some (Ok None, w') /\
    serve w' = serve w /\ clock w' = clock w /\
    requests w' = S (requests w) /\ readings w' = S (readings w).
Proof.
  intros Hd (resp & Hresp & Hcase). rewrite (turn_response w Hd), Hresp.
  destruct (resp_status resp =? 404) eqn:E404.
  { eexists. split; [reflexivity|]. repeat split. }
  destruct (resp_status resp =? 200) eqn:E200; simpl.
  2:{ eexists. split; [reflexivity|]. repeat split. }
  destruct Hcase as [Hne|(d & Hjson & Hst)].
  { apply Z.eqb_eq in E200. contradiction. }
  unfold bindM, lift. rewrite Hjson.
  destruct (non_terminal_status_get d Hst) as (st & -> & -> & -> & -> & ->).
  simpl. eexists. split; [reflexivity|]. repeat split.
Qed.

Lemma loop_step (fuel : nat) (w : World) :
  loop (S fuel) w =
    match turn w with
    | Some (Ok (Some data), w') => Some (Ok data, w')
    | Some (Ok None, w') => loop fuel (emit (EvSleep poll_s) w')
    | Some (Raise e, w') => Some (Raise e, w')
    | None => None
    end.
Proof.
  simpl. unfold bindM at 1.
  destruct (turn w) as [[[[data|]|e] w']|]; reflexivity.
Qed.

(** A deadline that is passed at some turn, after turns on which the poll
    goes on, ends the loop with [TimeoutError]. *)
Lemma loop_times_out (n : nat) :
  forall w,
  (forall i, (i < n)%nat ->
     non_terminal (serve w (requests w + i)%nat (status_request url))) ->
  deadline_passed self start_time (clock w (readings w + n)%nat) = true ->
  forall fuel, (n < fuel)%nat ->
  exists w', loop fuel w =
    Some (Raise (TimeoutError ("Job " +:+ py_str py_repr job_id +:+ " timed out")), w').
Proof.
  induction n as [|n IH]; intros w Hnt Hdl fuel Hfuel;
    (destruct fuel as [|fuel]; [lia|]); rewrite loop_step.
  - rewrite Nat.add_0_r in Hdl. destruct (turn_deadline w Hdl) as [w' ->]. eauto.
  - destruct (deadline_passed self start_time (clock w (readings w))) eqn:Hnow.
    + destruct (turn_deadline w Hnow) as [w' ->]. eauto.
    + destruct (turn_non_terminal w Hnow) as (w1 & -> & Hs & Hc & Hr & Hk).
      { specialize (Hnt 0%nat). rewrite Nat.add_0_r in Hnt. apply Hnt. lia. }
      apply IH; simpl; [| |lia].
      * intros i Hi. rewrite Hs, Hr. replace (S (requests w) + i)%nat
          with (requests w + S i)%nat by lia. apply Hnt. lia.
      * rewrite Hc, Hk. replace (S (readings w) + n)%nat
          with (readings w + S n)%nat by lia. exact Hdl.
Qed.

(** Turns on which the poll goes on are skipped, one sleep each. *)
Lemma loop_skip (n : nat) :
  forall w,
  (forall i, (i < n)%nat ->
     deadline_passed self start_time (clock w (readings w + i)%nat) = false) ->
  (forall i, (i < n)%nat ->
     non_terminal (serve w (requests w + i)%nat (status_request url))) ->
  forall fuel,
  exists w', loop (n + fuel)%nat w = loop fuel w' /\
    serve w' = serve w /\ clock w' = clock w /\
    requests w' = (requests w + n)%nat /\ readings w' = (readings w + n)%nat.
Proof.
  induction n as [|n IH]; intros w Hdl Hnt fuel.
  - exists w. rewrite !Nat.add_0_r. repeat split.
  - replace (S n + fuel)%nat with (S (n + fuel)) by lia. rewrite loop_step.
    destruct (turn_non_terminal w) as (w1 & -> & Hs & Hc & Hr & Hk).
    { specialize (Hdl 0%nat). rewrite Nat.add_0_r in Hdl. apply Hdl. lia. }
    { specialize (Hnt 0%nat). rewrite Nat.add_0_r in Hnt. apply Hnt. lia. }
    destruct (IH (emit (EvSleep poll_s) w1)) with (fuel := fuel)
      as (w2 & -> & Hs2 & Hc2 & Hr2 & Hk2); simpl.
    + intros i Hi. rewrite Hc, Hk. replace (S (readings w) + i)%nat
        with (readings w + S i)%nat by lia. apply Hdl. lia.
    + intros i Hi. rewrite Hs, Hr. replace (S (requests w) + i)%nat
        with (requests w + S i)%nat by lia. apply Hnt. lia.
    + exists w2. simpl in *. split; [reflexivity|].
      rewrite Hs2, Hc2, Hr2, Hk2, Hs, Hc, Hr, Hk. repeat split; lia.
Qed.

(** A turn that returns a payload returns an object whose status is a
    success marker. *)
Lemma turn_returns_object (w w' : World) (data : pyval) :
  turn w = Some (Ok (Some data), w') ->
  exists d, data = PDict d /\
    exists st, get_ data "status" = Ok st /\
      (eq_str st "finished" || eq_str st "ok") = true.
Proof.
  intros H.
  destruct (deadline_passed self start_time (clock w (readings w))) eqn:Hd.
  { destruct (turn_deadline w Hd) as [w1 E]. congruence. }
  rewrite (turn_response w Hd) in H.
  destruct (serve w (requests w) _) as [resp|]; [|discriminate].
  destruct (resp_status resp =? 404); [discriminate|].
  destruct (resp_status resp =? 200); simpl in H; [|discriminate].
  unfold bindM, lift in H.
  destruct (resp_json resp) as [v|]; [|discriminate].
  destruct (get_ v "status") as [st|] eqn:Est; [|discriminate].
  destruct (eq_str st "finished" || eq_str st "ok") eqn:Eok.
  - injection H as <- <-. destruct v; try discriminate. eauto.
  - destruct (eq_str st "failed" || eq_str st "error"); [|discriminate].
    destruct (get_ v "error"); discriminate.
Qed.

Lemma loop_returns_object (fuel : nat) :
  forall w w' data, loop fuel w = Some (Ok data, w') ->
  exists d, data = PDict d /\ exists st, get_ data "status" = Ok st.
Proof.
  induction fuel as [|fuel IH]; intros w w' data H; [discriminate|].
  rewrite loop_step in H.
  destruct (turn w) as [[[[data0|]|e] w1]|] eqn:E; try discriminate.
  - injection H as <- <-. destruct (turn_returns_object _ _ _ E) as (d & -> & st & Hst & _).
    eauto.
  - exact (IH _ _ _ H).
Qed.

(** C3 (as amended): a turn of the poll whose deadline has not passed
    classifies the response by its status code and, for a 200, by the status
    field of its payload, compared as text: [finished] and [ok] return the
    whole payload at once; [failed] and [error] raise a [RuntimeError]; any
    other status value, a 404 and any other code than 200 make the loop sleep
    one poll interval and go on. A payload that cannot be decoded, or that is
    not an object, is not absorbed: its error is raised. *)
Theorem wait_for_job_classifies (fuel : nat) (w : World) (resp : Response) :
  deadline_passed self start_time (clock w (readings w)) = false ->
  serve w (requests w) (status_request url) = Ok resp ->
  (forall d s, resp_status resp = 200 -> resp_json resp = Ok (PDict d) ->
     dict_lookup d "status" = Some (PStr s) -> s = "finished" \/ s = "ok" ->
     loop (S fuel) w = Some (Ok (PDict d), polled url w)) /\
  (forall d s, resp_status resp = 200 -> resp_json resp = Ok (PDict d) ->
     dict_lookup d "status" = Some (PStr s) -> s = "failed" \/ s = "error" ->
     exists msg, loop (S fuel) w = Some (Raise (RuntimeError msg), polled url w)) /\
  (forall d, resp_status resp = 200 -> resp_json resp = Ok (PDict d) ->
     non_terminal_status d ->
     loop (S fuel) w = loop fuel (emit (EvSleep poll_s) (polled url w))) /\
  (resp_status resp = 404 ->
     loop (S fuel) w = loop fuel (emit (EvSleep poll_s) (polled url w))) /\
  (resp_status resp <> 200 -> resp_status resp <> 404 ->
     loop (S fuel) w =
     loop fuel (emit (EvSleep poll_s)
                  (emit (EvLog "WARNING" ("Error checking job status: "
                                          +:+ str_of_int (resp_status resp)))
                        (polled url w)))) /\
  (forall e, resp_status resp = 200 -> resp_json resp = Raise e ->
     loop (S fuel) w = Some (Raise e, polled url w)) /\
  (forall v, resp_status resp = 200 -> resp_json resp = Ok v ->
     (forall d, v <> PDict d) ->
     loop (S fuel) w = Some (Raise AttributeError, polled url w)).
Proof.
  intros Hd Hresp.
  assert (Hturn := turn_response w Hd). rewrite Hresp in Hturn.
  repeat split.
  - intros d s H200 Hjson Hst Hs. rewrite loop_step, Hturn, H200. simpl.
    unfold bindM, lift. rewrite Hjson. simpl. rewrite Hst.
    destruct Hs as [-> | ->]; reflexivity.
  - intros d s H200 Hjson Hst Hs. rewrite loop_step, Hturn, H200. simpl.
    unfold bindM, lift. rewrite Hjson. simpl. rewrite Hst.
    destruct Hs as [-> | ->]; simpl;
      destruct (dict_lookup d "error"); eexists; reflexivity.
  - intros d H200 Hjson Hnt. rewrite loop_step, Hturn, H200. simpl.
    unfold bindM, lift. rewrite Hjson.
    destruct (non_terminal_status_get d Hnt) as (st & -> & -> & -> & -> & ->).
    reflexivity.
  - intros H404. rewrite loop_step, Hturn, H404. reflexivity.
  - intros Hn200 Hn404. rewrite loop_step, Hturn.
    destruct (Z.eqb_spec (resp_status resp) 404); [contradiction|].
    destruct (Z.eqb_spec (resp_status resp) 200); [contradiction|].
    reflexivity.
  - intros e H200 Hjson. rewrite loop_step, Hturn, H200. simpl.
    unfold bindM, lift. rewrite Hjson. reflexivity.
  - intros v H200 Hjson Hv. rewrite loop_step, Hturn, H200. simpl.
    unfold bindM, lift. rewrite Hjson.
    destruct v; try reflexivity. exfalso. exact (Hv d eq_refl).
Qed.

End Poll.

Lemma wait_for_job_unfold py_repr fuel self job_id poll_s (w : World) :
  wait_for_job py_repr fuel self job_id poll_s w =
  wait_for_job_loop py_repr fuel self (job_url py_repr self job_id) job_id
    (clock w (readings w)) poll_s
    {| serve := serve w; clock := clock w; requests := requests w;
       readings := S (readings w); trace := trace w |}.
Proof. reflexivity. Qed.

Lemma wait_for_job_classifies_witness :
  wait_for_job_loop no_repr 2 local_client "http://localhost:8090/api/v1/jobs/J1"
    (PStr "J1") (seconds 0) 5 never_done_world =
  wait_for_job_loop no_repr 1 local_client "http://localhost:8090/api/v1/jobs/J1"
    (PStr "J1") (seconds 0) 5
    (emit (EvSleep 5) (polled "http://localhost:8090/api/v1/jobs/J1" never_done_world)).
Proof.
  refine (proj1 (proj2 (proj2 (proj2
    (wait_for_job_classifies no_repr local_client "http://localhost:8090/api/v1/jobs/J1"
       (PStr "J1") (seconds 0) 5 1 never_done_world (text_response 404 "not found")
       _ _)))) _); reflexivity.
Defined.

(** Counterexample to C3 with a malformed payload counted as transient: the
    first status response has a payload that is not JSON and the second
    reports [ok]; the poll does not sleep and retry, it raises the decoding
    error after one request. *)
Lemma malformed_payload_not_transient :
  exists w',
    wait_for_job no_repr 10 local_client (PStr "J1") 5 garbled_world =
      Some (Raise JSONDecodeError, w') /\
    requests w' = 1%nat /\
    trace w' = [EvRequest (status_request "http://localhost:8090/api/v1/jobs/J1")].
Proof. eexists. repeat split. Qed.


Lemma never_done_non_terminal (k : nat) (r : Request) : non_terminal (never_done k r).
Proof.
  destruct k as [|[|k]]; simpl; eexists; (split; [reflexivity|]).
  - left. discriminate.
  - left. discriminate.
  - right. eexists. split; [reflexivity|].
    intros s Hs. simpl in Hs. simpl.
    destruct Hs as [<-|[<-|[<-|[<-|[]]]]]; discriminate.
Qed.


(** C5: a status response (a 200 whose payload is an object) whose status
    is [failed] or [error] makes [wait_for_job] raise a [RuntimeError] whose
    message is the job's prefix followed by the payload's [error] field as
    [str] prints it; when that field is a text, the message ends with the
    text, unchanged. *)
Theorem wait_for_job_failure_message (py_repr : pyval -> string)
    (self : MapsScraperClient) (job_id : pyval) (poll_s : Z) (w : World) (n : nat)
    (resp : Response) (d : list (string * pyval)) (s : string) :
  (forall i, (i < n)%nat ->
     non_terminal (serve w (requests w + i)%nat
                     (status_request (job_url py_repr self job_id)))) ->
  (forall i, (i <= n)%nat ->
     deadline_passed self (clock w (readings w)) (clock w (S (readings w) + i)%nat) = false) ->
  serve w (requests w + n)%nat (status_request (job_url py_repr self job_id)) = Ok resp ->
  resp_status resp = 200 -> resp_json resp = Ok (PDict d) ->
  dict_lookup d "status" = Some (PStr s) -> s = "failed" \/ s = "error" ->
  forall fuel, (n < fuel)%nat ->
  (forall msg, dict_lookup d "error" = Some (PStr msg) ->
     exists w', wait_for_job py_repr fuel self job_id poll_s w =
       Some (Raise (RuntimeError ("Job " +:+ py_str py_repr job_id +:+ " failed: "
                                  +:+ msg)), w')) /\
  (forall err, get_ (PDict d) "error" = Ok err ->
     exists w', wait_for_job py_repr fuel self job_id poll_s w =
       Some (Raise (RuntimeError ("Job " +:+ py_str py_repr job_id +:+ " failed: "
                                  +:+ py_str py_repr err)), w')).
Proof.
  intros Hnt Hdl Hresp H200 Hjson Hst Hs fuel Hfuel.
  assert (Hgen : forall err, get_ (PDict d) "error" = Ok err ->
     exists w', wait_for_job py_repr fuel self job_id poll_s w =
       Some (Raise (RuntimeError ("Job " +:+ py_str py_repr job_id +:+ " failed: "
                                  +:+ py_str py_repr err)), w')).
  { intros err Herr. rewrite wait_for_job_unfold.
    replace fuel with (n + S (fuel - S n))%nat by lia.
    edestruct (loop_skip py_repr self (job_url py_repr self job_id) job_id
                 (clock w (readings w)) poll_s n) as (w1 & -> & Hs1 & Hc1 & Hr1 & Hk1).
    { intros i Hi. simpl. apply Hdl. lia. }
    { intros i Hi. simpl. apply Hnt. exact Hi. }
    simpl in Hs1, Hc1, Hr1, Hk1.
    rewrite loop_step, turn_response.
    2:{ rewrite Hc1, Hk1. apply Hdl. lia. }
    rewrite Hs1, Hr1, Hresp, H200. simpl. unfold bindM, lift. rewrite Hjson.
    simpl in Herr |- *. rewrite Hst.
    destruct Hs as [-> | ->]; simpl; rewrite Herr; eauto. }
  split; [|exact Hgen].
  intros msg Hmsg. apply (Hgen (PStr msg)). simpl. rewrite Hmsg. reflexivity.
Qed.

Lemma wait_for_job_failure_message_witness :
  exists w', wait_for_job no_repr 10 local_client (PStr "J1") 5 failing_world =
    Some (Raise (RuntimeError "Job J1 failed: proxy unreachable"), w').
Proof.
  refine (proj1 (wait_for_job_failure_message no_repr local_client (PStr "J1") 5
                   failing_world 1 (json_response 200 failed_payload)
                   [("status", PStr "failed"); ("error", PStr "proxy unreachable")]
                   "failed" _ _ _ _ _ _ _ 10%nat _) "proxy unreachable" _).
  - intros i Hi. assert (i = 0%nat) as -> by lia. simpl.
    eexists. split; [reflexivity|]. left. discriminate.
  - intros i Hi. assert (i = 0%nat \/ i = 1%nat) as [-> | ->] by lia; vm_compute; reflexivity.
  - reflexivity.
  - reflexivity.
  - reflexivity.
  - reflexivity.
  - left. reflexivity.
  - lia.
  - reflexivity.
Defined.

(** ** The whole fetch *)

Lemma decode_rows_all (rows : list (gmap string (option string))) :
  forall (results acc : list MapsResult) (err : option exn),
  Forall2 (fun row r => from_csv_row row = Ok r) rows results ->
  decode_rows rows err acc =
    match err with
    | Some e => Raise e
    | None => Ok (acc ++ results)%list
    end.
Proof.
  induction rows as [|row rows IH]; intros results acc err H; inversion H; subst; simpl.
  - rewrite app_nil_r. reflexivity.
  - match goal with E : from_csv_row row = Ok _ |- _ => rewrite E end. simpl.
    rewrite (IH _ _ _ ltac:(eassumption)), <- app_assoc. reflexivity.
Qed.

Lemma decode_rows_first_failure (rows : list (gmap string (option string))) :
  forall (i : nat) row e err acc,
  rows !! i = Some row -> from_csv_row row = Raise e ->
  (forall j row', (j < i)%nat -> rows !! j = Some row' ->
     exists r, from_csv_row row' = Ok r) ->
  decode_rows rows err acc = Raise e.
Proof.
  induction rows as [|row0 rows IH]; intros i row e err acc Hi He Hbefore;
    [discriminate|].
  destruct i as [|i]; simpl in *.
  - injection Hi as ->. rewrite He. reflexivity.
  - destruct (Hbefore 0%nat row0) as [r0 Hr0]; [lia|reflexivity|].
    rewrite Hr0. simpl. apply (IH i row e); [assumption..|].
    intros j row' Hj Hrow'. apply (Hbefore (S j)); [lia|exact Hrow'].
Qed.

Lemma all_decodable_Forall2 (rows : list (gmap string (option string))) :
  (forall row, In row rows -> exists r, from_csv_row row = Ok r) ->
  exists results, Forall2 (fun row r => from_csv_row row = Ok r) rows results.
Proof.
  induction rows as [|row rows IH]; intros H.
  - exists []. constructor.
  - destruct (H row) as [r Hr]; [left; reflexivity|].
    destruct IH as [rs Hrs]; [intros; apply H; right; assumption|].
    exists (r :: rs). constructor; assumption.
Qed.

Section Fetch.

Variable py_repr : pyval -> string.
Variable fuel : nat.
Variable self : MapsScraperClient.
Variable query : string.
Variable kwargs : JobParams.

Abbreviation fetch := (fetch_places py_repr fuel self query kwargs).

(** C1: [fetch_places] runs submit, poll, download and the per-row decode
    in this order. The first stage that raises ends it with that very
    error, and no result; when every stage succeeds, the result is the list
    of the decoded rows, in the order of the rows of the payload. *)
Theorem fetch_places_composes (w : World) :
  (forall e w1, submit_job self query kwargs w = Some (Raise e, w1) ->
     fetch w = Some (Raise e, w1)) /\
  (forall job_id w1, submit_job self query kwargs w = Some (Ok job_id, w1) ->
     (forall e w2,
        wait_for_job py_repr fuel self job_id 5
          (emit (EvLog "INFO" ("Job submitted: " +:+ py_str py_repr job_id)) w1)
          = Some (Raise e, w2) ->
        fetch w = Some (Raise e, w2)) /\
     (forall details w2,
        wait_for_job py_repr fuel self job_id 5
          (emit (EvLog "INFO" ("Job submitted: " +:+ py_str py_repr job_id)) w1)
          = Some (Ok details, w2) ->
        exists st, get_ details "status" = Ok st /\
          (forall e w3,
             download_csv py_repr self job_id
               (emit (EvLog "INFO" ("Job finished: " +:+ py_str py_repr st)) w2)
               = Some (Raise e, w3) ->
             fetch w = Some (Raise e, w3)) /\
          (forall csv_content w3 rows err,
             download_csv py_repr self job_id
               (emit (EvLog "INFO" ("Job finished: " +:+ py_str py_repr st)) w2)
               = Some (Ok csv_content, w3) ->
             DictReader csv_content = (rows, err) ->
             (forall i row e, rows !! i = Some row -> from_csv_row row = Raise e ->
                (forall j row', (j < i)%nat -> rows !! j = Some row' ->
                   exists r, from_csv_row row' = Ok r) ->
                fetch w = Some (Raise e, w3)) /\
             (forall e, err = Some e ->
                (forall row, In row rows -> exists r, from_csv_row row = Ok r) ->
                fetch w = Some (Raise e, w3)) /\
             (forall results, err = None ->
                Forall2 (fun row r => from_csv_row row = Ok r) rows results ->
                fetch w = Some (Ok results, w3))))).
Proof.
  split.
  { intros e w1 H. unfold fetch_places, bindM at 1. rewrite H. reflexivity. }
  intros job_id w1 Hsubmit.
  assert (Hfetch : fetch w =
    (job_details <~ wait_for_job py_repr fuel self job_id 5 ;;
     status_ <~ lift (get_ job_details "status") ;;
     _ <~ logger_info ("Job finished: " +:+ py_str py_repr status_) ;;
     csv_content <~ download_csv py_repr self job_id ;;
     let '(rows, err) := DictReader csv_content in
     lift (decode_rows rows err []))
    (emit (EvLog "INFO" ("Job submitted: " +:+ py_str py_repr job_id)) w1)).
  { unfold fetch_places, bindM at 1. rewrite Hsubmit. reflexivity. }
  split.
  { intros e w2 H. rewrite Hfetch. unfold bindM at 1. rewrite H. reflexivity. }
  intros details w2 Hwait.
  rewrite wait_for_job_unfold in Hwait.
  destruct (loop_returns_object _ _ _ _ _ _ _ _ _ _ Hwait) as (d & -> & st & Hst).
  rewrite <- wait_for_job_unfold in Hwait.
  exists st. split; [exact Hst|].
  assert (Hfetch2 : fetch w =
    (csv_content <~ download_csv py_repr self job_id ;;
     let '(rows, err) := DictReader csv_content in
     lift (decode_rows rows err []))
    (emit (EvLog "INFO" ("Job finished: " +:+ py_str py_repr st)) w2)).
  { rewrite Hfetch. unfold bindM at 1. rewrite Hwait.
    unfold bindM at 1, lift at 1. rewrite Hst. reflexivity. }
  split.
  { intros e w3 H. rewrite Hfetch2. unfold bindM at 1. rewrite H. reflexivity. }
  intros csv_content w3 rows err Hdl Hrows.
  assert (Hfetch3 : fetch w = Some (decode_rows rows err [], w3)).
  { rewrite Hfetch2. unfold bindM at 1. rewrite Hdl, Hrows. reflexivity. }
  rewrite Hfetch3. repeat split.
  - intros i row e Hi He Hbefore.
    rewrite (decode_rows_first_failure rows i row e err [] Hi He Hbefore). reflexivity.
  - intros e -> Hall. destruct (all_decodable_Forall2 rows Hall) as [rs Hrs].
    rewrite (decode_rows_all rows rs [] (Some e) Hrs). reflexivity.
  - intros results -> Hall. rewrite (decode_rows_all rows results [] None Hall).
    reflexivity.
Qed.

End Fetch.


(** The end-to-end scenario: two rows come back as two records, in order. *)
Lemma fetch_places_composes_witness :
  exists r1 r2 w',
    fetch_places no_repr 10 local_client "coffee shops" default_params happy_world
      = Some (Ok [r1; r2], w') /\
    from_csv_row row_a = Ok r1 /\ from_csv_row row_b = Ok r2 /\
    title r1 = PStr "Cafe A" /\ title r2 = PStr "Cafe B".
Proof.
  destruct (fetch_places_composes no_repr 10 local_client "coffee shops" default_params
              happy_world) as [_ H].
  edestruct (H (PStr "J1")) as [_ H1]; [vm_compute; reflexivity|].
  edestruct (H1 (status_payload "ok")) as (st & Hst & _ & H2); [vm_compute; reflexivity|].
  vm_compute in Hst. injection Hst as <-.
  edestruct H2 with (csv_content := two_rows_csv) (rows := [row_a; row_b])
    (err := @None exn) as (_ & _ & H3);
    [vm_compute; reflexivity|vm_compute; reflexivity|].
  do 3 eexists. split.
  - apply H3; [reflexivity|].
    constructor; [vm_compute; reflexivity|].
    constructor; [vm_compute; reflexivity|]. constructor.
  - repeat split; vm_compute; reflexivity.
Defined.

(** ** Further properties of the decoder *)

(** X1: the three [float] fields never raise: the field is [float(cell)]
    when the cell is a number, and the default when the cell is empty,
    absent or not a number. *)
Theorem parse_float_total (row : gmap string (option string)) (field_name : string)
    (default : pyval) :
  (exists v, parse_float row field_name default = Ok v) /\
  (forall s f, row !! field_name = Some (Some s) -> s <> "" -> py_float s = Ok f ->
     parse_float row field_name default = Ok (PFloat f)) /\
  (forall s, row !! field_name = Some (Some s) -> py_float s = Raise ValueError ->
     parse_float row field_name default = Ok default) /\
  (row !! field_name = None \/ row !! field_name = Some None \/
   row !! field_name = Some (Some "") ->
     parse_float row field_name default = Ok default).
Proof.
  split; [apply parse_float_never_raises|].
  unfold parse_float, row_get. repeat split.
  - intros s f -> Hne Hf. rewrite (cell_truthy_nonempty s Hne). simpl.
    rewrite Hf. reflexivity.
  - intros s -> Hf. simpl. destruct (negb (String.eqb s "")); [|reflexivity].
    simpl. rewrite Hf. reflexivity.
  - intros [-> | [-> | ->]]; reflexivity.
Qed.

Lemma json_loads_raises (s : string) (e : exn) :
  json_loads s = Raise e -> e = JSONDecodeError \/ e = Unrepresentable.
Proof.
  intros H. destruct (json_loads_outcomes s) as [[v Hv]|[Hd|[Hu _]]]; [congruence| |];
    [left|right]; congruence.
Qed.

Lemma parse_json_raises row field_name default e :
  parse_json row field_name default = Raise e -> e = Unrepresentable.
Proof.
  unfold parse_json. destruct (row_get _ _ _) as [s|]; simpl; [|discriminate].
  destruct (negb (String.eqb s "")); simpl; [|discriminate].
  destruct (json_loads s) as [v|e'] eqn:E; simpl; [discriminate|].
  apply json_loads_raises in E as [-> | ->]; simpl; congruence.
Qed.

Lemma parse_int_raises row field_name default e :
  parse_int row field_name default = Raise e ->
  e = OverflowError /\
  exists s neg, row !! field_name = Some (Some s) /\ py_float s = Ok (S754_infinity neg).
Proof.
  unfold parse_int, row_get.
  destruct (row !! field_name) as [[s|]|] eqn:Hrow; simpl; try discriminate.
  destruct (negb (String.eqb s "")); simpl; [|discriminate].
  destruct (py_float s) as [f|e'] eqn:E; simpl.
  - destruct f; simpl; try discriminate.
    intros H. injection H as <-. eauto.
  - rewrite (py_float_raises _ _ E). simpl. discriminate.
Qed.

Lemma emails_of_row_raises row e : emails_of_row row = Raise e -> e = Unrepresentable.
Proof.
  unfold emails_of_row, row_get.
  destruct (row !! "emails") as [[s|]|] eqn:Hrow; simpl; try discriminate.
  destruct (negb (String.eqb s "")); simpl; [|discriminate].
  destruct (startswith s "["); simpl; [|discriminate].
  intros H. apply (parse_json_raises row "emails" (PList [])). exact H.
Qed.




(** ** Further properties of the client *)

(** X4: [submit_job] issues one POST with the payload of the job. A status
    other than 201 raises a [RuntimeError] with the status and the body; a
    201 returns the [id] of the payload. *)
Theorem submit_job_outcome (self : MapsScraperClient) (query : string) (p : JobParams)
    (w : World) (resp : Response) :
  serve w (requests w)
    {| req_method := POST; req_url := base_url self +:+ "/api/v1/jobs";
       req_json := Some (real_payload query p); req_timeout := Some 30 |} = Ok resp ->
  exists w',
    requests w' = S (requests w) /\
    trace w' = (trace w ++ [EvRequest
       {| req_method := POST; req_url := base_url self +:+ "/api/v1/jobs";
          req_json := Some (real_payload query p); req_timeout := Some 30 |}])%list /\
    (forall text, resp_status resp <> 201 -> resp_text resp = Ok text ->
       submit_job self query p w =
         Some (Raise (RuntimeError ("Failed to submit job: "
                                    +:+ str_of_int (resp_status resp) +:+ " " +:+ text)),
               w')) /\
    (forall d id, resp_status resp = 201 -> resp_json resp = Ok (PDict d) ->
       dict_lookup d "id" = Some id -> submit_job self query p w = Some (Ok id, w')) /\
    (forall d, resp_status resp = 201 -> resp_json resp = Ok (PDict d) ->
       dict_lookup d "id" = None ->
       submit_job self query p w = Some (Raise (KeyError "id"), w')).
Proof.
  intros Hresp. eexists. split; [|split; [|repeat split]].
  3:{ intros text Hne Htext. unfold submit_job, bindM, session_post, request.
      simpl. rewrite Hresp.
      destruct (Z.eqb_spec (resp_status resp) 201); [contradiction|]. simpl.
      unfold lift. rewrite Htext. reflexivity. }
  - reflexivity.
  - reflexivity.
  - intros d id H201 Hjson Hid. unfold submit_job, bindM, session_post, request.
    simpl. rewrite Hresp, H201. simpl. unfold lift. rewrite Hjson. simpl.
    rewrite Hid. reflexivity.
  - intros d H201 Hjson Hid. unfold submit_job, bindM, session_post, request.
    simpl. rewrite Hresp, H201. simpl. unfold lift. rewrite Hjson. simpl.
    rewrite Hid. reflexivity.
Qed.

Lemma submit_job_outcome_witness :
  exists w', submit_job local_client "coffee shops" default_params happy_world
             = Some (Ok (PStr "J1"), w').
Proof.
  destruct (submit_job_outcome local_client "coffee shops" default_params happy_world
              (json_response 201 (PDict [("id", PStr "J1")])) eq_refl)
    as (w' & _ & _ & _ & H & _).
  exists w'. apply (H [("id", PStr "J1")]); reflexivity.
Defined.

(** X5: a status response that reports [finished] or [ok] makes
    [wait_for_job] return its payload, after the turns on which the poll
    went on, provided the deadline had not passed when the turn began. *)
Theorem wait_for_job_returns_payload (py_repr : pyval -> string)
    (self : MapsScraperClient) (job_id : pyval) (poll_s : Z) (w : World) (n : nat)
    (resp : Response) (d : list (string * pyval)) (s : string) :
  (forall i, (i < n)%nat ->
     non_terminal (serve w (requests w + i)%nat
                     (status_request (job_url py_repr self job_id)))) ->
  (forall i, (i <= n)%nat ->
     deadline_passed self (clock w (readings w)) (clock w (S (readings w) + i)%nat) = false) ->
  serve w (requests w + n)%nat (status_request (job_url py_repr self job_id)) = Ok resp ->
  resp_status resp = 200 -> resp_json resp = Ok (PDict d) ->
  dict_lookup d "status" = Some (PStr s) -> s = "finished" \/ s = "ok" ->
  forall fuel, (n < fuel)%nat ->
  exists w', wait_for_job py_repr fuel self job_id poll_s w = Some (Ok (PDict d), w') /\
             requests w' = (requests w + S n)%nat.
Proof.
  intros Hnt Hdl Hresp H200 Hjson Hst Hs fuel Hfuel.
  rewrite wait_for_job_unfold.
  replace fuel with (n + S (fuel - S n))%nat by lia.
  edestruct (loop_skip py_repr self (job_url py_repr self job_id) job_id
               (clock w (readings w)) poll_s n) as (w1 & -> & Hs1 & Hc1 & Hr1 & Hk1).
  { intros i Hi. simpl. apply Hdl. lia. }
  { intros i Hi. simpl. apply Hnt. exact Hi. }
  simpl in Hs1, Hc1, Hr1, Hk1.
  rewrite loop_step, turn_response.
  2:{ rewrite Hc1, Hk1. apply Hdl. lia. }
  rewrite Hs1, Hr1, Hresp, H200. simpl. unfold bindM, lift. rewrite Hjson.
  simpl. rewrite Hst.
  destruct Hs as [-> | ->]; simpl; eexists; (split; [reflexivity|]); simpl; lia.
Qed.

Lemma wait_for_job_returns_payload_witness :
  exists w', wait_for_job no_repr 10 local_client (PStr "J1") 5 finishing_world
             = Some (Ok (PDict [("status", PStr "finished")]), w') /\
             requests w' = (requests finishing_world + 2)%nat.
Proof.
  apply (wait_for_job_returns_payload no_repr local_client (PStr "J1") 5 finishing_world 1
           (json_response 200 (status_payload "finished"))
           [("status", PStr "finished")] "finished").
  - intros i Hi. assert (i = 0%nat) as -> by lia. simpl.
    eexists. split; [reflexivity|]. left. discriminate.
  - intros i Hi. assert (i = 0%nat \/ i = 1%nat) as [-> | ->] by lia; vm_compute; reflexivity.
  - reflexivity.
  - reflexivity.
  - reflexivity.
  - reflexivity.
  - left. reflexivity.
  - lia.
Defined.

(** X6: [download_csv] issues one GET on the download address of the job; a
    status from 400 on raises, any other returns the body. *)
Theorem download_csv_outcome (py_repr : pyval -> string) (self : MapsScraperClient)
    (job_id : pyval) (w : World) (resp : Response) :
  serve w (requests w) (status_request (job_url py_repr self job_id +:+ "/download"))
    = Ok resp ->
  exists w',
    requests w' = S (requests w) /\
    (400 <= resp_status resp ->
       download_csv py_repr self job_id w =
         Some (Raise (ClientResponseError (resp_status resp)), w')) /\
    (resp_status resp < 400 ->
       download_csv py_repr self job_id w = Some (resp_text resp, w')).
Proof.
  intros Hresp. eexists. split; [|split].
  2:{ intros H. unfold download_csv, bindM, session_get, request, raise_for_status.
      fold (status_request (job_url py_repr self job_id +:+ "/download")).
      simpl. rewrite Hresp. destruct (Z.leb_spec 400 (resp_status resp)); [|lia].
      reflexivity. }
  - reflexivity.
  - intros H. unfold download_csv, bindM, session_get, request, raise_for_status.
    fold (status_request (job_url py_repr self job_id +:+ "/download")).
    simpl. rewrite Hresp. destruct (Z.leb_spec 400 (resp_status resp)); [lia|].
    reflexivity.
Qed.

Lemma download_csv_outcome_witness :
  exists w', download_csv no_repr local_client (PStr "J1")
               (world_of [Ok (text_response 200 two_rows_csv)])
             = Some (Ok two_rows_csv, w').
Proof.
  destruct (download_csv_outcome no_repr local_client (PStr "J1")
              (world_of [Ok (text_response 200 two_rows_csv)])
              (text_response 200 two_rows_csv) eq_refl) as (w' & _ & _ & H).
  exists w'. apply H. simpl. lia.
Defined.
(** ** The decoders, column by column *)

Lemma rstrip_char_spec (ch : ascii) (s : string) :
  ends_with ch (rstrip_char ch s) = false /\
  exists k, s = rstrip_char ch s +:+ repeat_char ch k.
Proof.
  induction s as [|c s [IHe [k IHk]]]; simpl.
  - split; [reflexivity|]. exists 0%nat. reflexivity.
  - destruct (rstrip_char ch s) as [|c1 r1] eqn:E.
    + destruct (Ascii.eqb_spec c ch) as [->|Hc].
      * split; [reflexivity|]. exists (S k). simpl. rewrite IHk at 1. reflexivity.
      * split; [simpl; apply Ascii.eqb_neq; exact Hc|].
        exists k. simpl. rewrite IHk at 1. reflexivity.
    + split; [exact IHe|]. exists k. simpl. rewrite IHk at 1. reflexivity.
Qed.

Lemma rstrip_char_app (ch : ascii) (s : string) :
  rstrip_char ch (s +:+ String ch EmptyString) = rstrip_char ch s.
Proof.
  induction s as [|c s IH]; simpl.
  - rewrite Ascii.eqb_refl. reflexivity.
  - rewrite IH. reflexivity.
Qed.

Lemma rstrip_char_fixed (ch : ascii) (s : string) :
  ends_with ch s = false -> rstrip_char ch s = s.
Proof.
  induction s as [|c s IH]; [reflexivity|].
  destruct s as [|c' s'].
  - simpl. intros ->. reflexivity.
  - intros H. change (ends_with ch (String c (String c' s')))
      with (ends_with ch (String c' s')) in H.
    change (rstrip_char ch (String c (String c' s')))
      with (match rstrip_char ch (String c' s') with
            | EmptyString => if Ascii.eqb c ch then EmptyString else String c EmptyString
            | r => String c r
            end).
    rewrite (IH H). reflexivity.
Qed.

(** X8: the client keeps its base address without trailing slashes: the
    address given is the one kept followed by slashes only, so one more
    slash at the end of the argument builds the same client, and so does
    the address the client kept. *)
Theorem init_base_url (url : string) (timeout : Z) :
  ends_with "/" (base_url (init url timeout)) = false /\
  (exists k, url = base_url (init url timeout) +:+ repeat_char "/" k) /\
  timeout_s (init url timeout) = timeout /\
  init (url +:+ "/") timeout = init url timeout /\
  init (base_url (init url timeout)) timeout = init url timeout.
Proof.
  unfold init. simpl. destruct (rstrip_char_spec "/" url) as [He Hk].
  split; [exact He|]. split; [exact Hk|]. split; [reflexivity|]. split.
  - rewrite rstrip_char_app. reflexivity.
  - rewrite (rstrip_char_fixed "/" _ He). reflexivity.
Qed.

(** X9: [from_dict] reads the document through the keys it names, and
    through no other: two documents that agree on them give the same
    record, and each of them changes the record of some document. The CSV
    names [website] and [descriptions] are not among them. *)
Theorem from_dict_reads_only :
  (forall data data' : gmap string pyval,
     (forall k, In k from_dict_keys -> data !! k = data' !! k) ->
     from_dict data = from_dict data') /\
  (forall k, In k from_dict_keys -> from_dict {[ k := PStr "1" ]} <> from_dict ∅).
Proof.
  split.
  - intros data data' H. unfold from_dict, dict_get, dict_contains.
    repeat match goal with
    | |- context [data !! ?k] => rewrite (H k) by pick_member
    end.
    reflexivity.
  - intros k Hk. simpl in Hk.
    repeat (destruct Hk as [<-|Hk]; [vm_compute; discriminate|]). destruct Hk.
Qed.

Lemma from_dict_reads_only_witness :
  from_dict {[ "website" := PStr "http://a.example"; "title" := PStr "Cafe A" ]}
  = from_dict {[ "title" := PStr "Cafe A"; "descriptions" := PStr "a cafe" ]}.
Proof.
  apply (proj1 from_dict_reads_only). intros k Hk. simpl in Hk.
  repeat (destruct Hk as [<-|Hk]; [vm_compute; reflexivity|]). destruct Hk.
Defined.

(** X10: [from_csv_row] reads the row through the columns it names, and
    through no other: two rows that agree on them decode alike, and each of
    them changes the record of some row. The field names [web_site] and
    [description] and the key [longtitude] are not among them. *)
Theorem from_csv_row_reads_only :
  (forall row row' : gmap string (option string),
     (forall k, In k from_csv_row_columns -> row !! k = row' !! k) ->
     from_csv_row row = from_csv_row row') /\
  (forall k, In k from_csv_row_columns ->
     from_csv_row {[ k := Some "1" ]} <> from_csv_row ∅).
Proof.
  split.
  - intros row row' H.
    unfold from_csv_row, emails_of_row, parse_json, parse_float, parse_int, row_get.
    repeat match goal with
    | |- context [row !! ?k] => rewrite (H k) by pick_member
    end.
    reflexivity.
  - intros k Hk. simpl in Hk.
    repeat (destruct Hk as [<-|Hk]; [vm_compute; discriminate|]). destruct Hk.
Qed.

Lemma from_csv_row_reads_only_witness :
  from_csv_row {[ "title" := Some "Cafe A"; "web_site" := Some "http://a.example" ]}
  = from_csv_row {[ "longtitude" := Some "2.35"; "title" := Some "Cafe A" ]}.
Proof.
  apply (proj1 from_csv_row_reads_only). intros k Hk. simpl in Hk.
  repeat (destruct Hk as [<-|Hk]; [vm_compute; reflexivity|]). destruct Hk.
Defined.

(** What a decoded row holds, column by column. *)
Lemma from_csv_row_inv (row : gmap string (option string)) (r : MapsResult) :
  from_csv_row row = Ok r ->
  (forall k f, In (k, f) scalar_columns -> f r = cell_val (row_get row k (Some ""))) /\
  (forall k f d, In (k, f, d) json_columns -> parse_json row k d = Ok (f r)) /\
  (forall k f, In (k, f) float_columns -> parse_float row k float_zero = Ok (f r)) /\
  parse_int row "review_count" (PInt 0) = Ok (review_count r) /\
  emails_of_row row = Ok (emails r).
Proof.
  unfold from_csv_row. intros H. invert_binds @bind_Ok H.
  injection H as <-. repeat split; try assumption.
  - intros k f Hin. simpl in Hin.
    repeat (destruct Hin as [Hin|Hin]; [injection Hin as <- <-; reflexivity|]).
    destruct Hin.
  - intros k f d Hin. simpl in Hin.
    repeat (destruct Hin as [Hin|Hin]; [injection Hin as <- <- <-; assumption|]).
    destruct Hin.
  - intros k f Hin. simpl in Hin.
    repeat (destruct Hin as [Hin|Hin]; [injection Hin as <- <-; assumption|]).
    destruct Hin.
Qed.

(** X3: the two decoders on one row. Read as a document, a row gives
    [from_dict] the same text fields as [from_csv_row], but for the two
    whose column has another name than the field: [from_dict] looks for
    [web_site] and [description], which a row of the service does not
    have, and leaves them empty. *)
Theorem decoders_agree_on_scalars (row : gmap string (option string)) (r : MapsResult) :
  from_csv_row row = Ok r ->
  (forall k f, In (k, f) scalar_columns -> k <> "website" -> k <> "descriptions" ->
     f (from_dict (cell_val <$> row)) = f r) /\
  (row !! "web_site" = None -> web_site (from_dict (cell_val <$> row)) = PStr "") /\
  (row !! "description" = None -> description (from_dict (cell_val <$> row)) = PStr "").
Proof.
  intros Hr. destruct (from_csv_row_inv row r Hr) as (Hs & _).
  assert (Hget : forall k, dict_get (cell_val <$> row) k (PStr "")
                           = cell_val (row_get row k (Some ""))).
  { intros k. unfold dict_get, row_get. rewrite lookup_fmap.
    destruct (row !! k); reflexivity. }
  repeat split.
  - intros k f Hin Hw Hd. rewrite (Hs k f Hin). simpl in Hin.
    repeat (destruct Hin as [Hin|Hin];
            [injection Hin as <- <-; first [congruence | apply Hget]|]).
    destruct Hin.
  - intros Hnone. unfold from_dict. simpl. rewrite Hget. unfold row_get.
    rewrite Hnone. reflexivity.
  - intros Hnone. unfold from_dict. simpl. rewrite Hget. unfold row_get.
    rewrite Hnone. reflexivity.
Qed.

Lemma decoders_agree_on_scalars_witness :
  match from_csv_row row_a with
  | Ok r => title (from_dict (cell_val <$> row_a)) = title r /\
            web_site (from_dict (cell_val <$> row_a)) = PStr ""
  | Raise _ => False
  end.
Proof.
  destruct (from_csv_row row_a) as [r|e] eqn:E.
  - destruct (decoders_agree_on_scalars row_a r E) as (H1 & H2 & _). split.
    + apply (H1 "title" title); [pick_member|discriminate|discriminate].
    + apply H2. vm_compute. reflexivity.
  - vm_compute in E. discriminate E.
Defined.

(** ** The types of the decoded fields *)

Lemma json_loads_list (s : string) (v : pyval) :
  startswith s "[" = true -> json_loads s = Ok v -> exists l, v = PList l.
Proof.
  unfold startswith. destruct s as [|c rest]; [discriminate|].
  change (String.prefix "[" (String c rest))
    with (if ascii_dec "[" c then String.prefix "" rest else false).
  destruct (ascii_dec "[" c) as [<-|]; [|discriminate]. intros _.
  unfold json_loads. simpl skip_ws.
  replace (2 * String.length (String "[" rest) + 2)%nat
    with (S (2 * String.length rest + 3))%nat by (simpl; lia).
  simpl scan_once.
  assert (H : forall (x : scan (option (list pyval))) (sc : scan (option pyval)),
            ((exists r0, sc = Parsed (Some (PList [])) r0) \/
             sc = match x with
                  | Parsed o r' => Parsed (option_map PList o) r'
                  | Bad => Bad
                  | Starved => Starved
                  end) ->
            match sc with
            | Parsed o r =>
                match skip_ws r with
                | EmptyString =>
                    match o with Some v => Ok v | None => Raise Unrepresentable end
                | _ => Raise JSONDecodeError
                end
            | Bad => Raise JSONDecodeError
            | Starved => Raise Unrepresentable
            end = Ok v -> exists l, v = PList l).
  { intros x sc [[r0 ->] | ->].
    - destruct (skip_ws r0); [|discriminate]. intros E. injection E as <-. eauto.
    - destruct x as [[l|] r'| |]; simpl; try discriminate.
      + destruct (skip_ws r'); [|discriminate]. intros E. injection E as <-. eauto.
      + destruct (skip_ws r'); discriminate. }
  apply (H (parse_array (2 * String.length rest + 3) (skip_ws rest))).
  destruct (skip_ws rest) as [|c1 r1]; [right; reflexivity|].
  destruct (Ascii.eqb_spec c1 "]") as [->|Hc1]; [left; eexists; reflexivity|].
  right. destruct c1 as [[] [] [] [] [] [] [] []]; try reflexivity. congruence.
Qed.

Lemma emails_of_row_is_list (row : gmap string (option string)) (v : pyval) :
  emails_of_row row = Ok v -> exists l, v = PList l.
Proof.
  unfold emails_of_row, parse_json, row_get.
  destruct (row !! "emails") as [[s|]|]; simpl;
    try (intros E; injection E as <-; eauto; fail).
  destruct (negb (String.eqb s "")); simpl; [|intros E; injection E as <-; eauto].
  destruct (startswith s "[") eqn:Hpre; simpl.
  - destruct (json_loads s) as [v'|e] eqn:Ej; simpl.
    + intros E. injection E as <-. exact (json_loads_list s v' Hpre Ej).
    + destruct (is_JSONDecodeError e); [|discriminate].
      intros E. injection E as <-. eauto.
  - intros E. injection E as <-. eauto.
Qed.

Lemma parse_float_is_float (row : gmap string (option string)) (k : string) (v : pyval) :
  parse_float row k float_zero = Ok v -> exists x, v = PFloat x.
Proof.
  unfold parse_float. destruct (row_get row k _) as [s|]; simpl;
    [|intros E; injection E as <-; eexists; reflexivity].
  destruct (negb (String.eqb s "")); simpl;
    [|intros E; injection E as <-; eexists; reflexivity].
  destruct (py_float s) as [x|e]; simpl.
  - intros E. injection E as <-. eauto.
  - destruct (is_ValueError e); [|discriminate].
    intros E. injection E as <-. eexists; reflexivity.
Qed.

Lemma parse_int_is_int (row : gmap string (option string)) (k : string) (v : pyval) :
  parse_int row k (PInt 0) = Ok v -> exists z, v = PInt z.
Proof.
  unfold parse_int. destruct (row_get row k _) as [s|]; simpl;
    [|intros E; injection E as <-; eauto].
  destruct (negb (String.eqb s "")); simpl; [|intros E; injection E as <-; eauto].
  destruct (py_float s) as [x|e]; simpl.
  - destruct (py_int_of_float x) as [z|e]; simpl.
    + intros E. injection E as <-. eauto.
    + destruct (is_ValueError e); [|discriminate]. intros E. injection E as <-. eauto.
  - destruct (is_ValueError e); [|discriminate]. intros E. injection E as <-. eauto.
Qed.

(** X11: what a decoded row is sure to hold: [review_count] is an [int],
    the three [float] fields are [float]s, [emails] is a [list], and a text
    field is a [str] or [None] (the cell of a short record). A structured
    field holds whatever JSON its cell spells, of any type. *)
Theorem decoded_field_types (row : gmap string (option string)) (r : MapsResult) :
  from_csv_row row = Ok r ->
  (exists z, review_count r = PInt z) /\
  (forall k f, In (k, f) float_columns -> exists x, f r = PFloat x) /\
  (exists l, emails r = PList l) /\
  (forall k f, In (k, f) scalar_columns -> f r = PNone \/ exists s, f r = PStr s) /\
  (forall k f d s v, In (k, f, d) json_columns -> row !! k = Some (Some s) ->
     s <> "" -> json_loads s = Ok v -> f r = v).
Proof.
  intros Hr. destruct (from_csv_row_inv row r Hr) as (Hs & Hj & Hf & Hi & He).
  repeat split.
  - exact (parse_int_is_int _ _ _ Hi).
  - intros k f Hin. exact (parse_float_is_float _ _ _ (Hf k f Hin)).
  - exact (emails_of_row_is_list _ _ He).
  - intros k f Hin. rewrite (Hs k f Hin).
    destruct (row_get row k (Some "")); simpl; eauto.
  - intros k f d s v Hin Hrow Hne Hv. specialize (Hj k f d Hin).
    unfold parse_json, row_get in Hj. rewrite Hrow, (cell_truthy_nonempty s Hne) in Hj.
    simpl in Hj. rewrite Hv in Hj. simpl in Hj. congruence.
Qed.

Lemma decoded_field_types_witness :
  match from_csv_row row_a with
  | Ok r => (exists z, review_count r = PInt z) /\ (exists l, emails r = PList l)
  | Raise _ => False
  end.
Proof.
  destruct (from_csv_row row_a) as [r|e] eqn:E.
  - destruct (decoded_field_types row_a r E) as (H1 & _ & H2 & _). split; assumption.
  - vm_compute in E. discriminate E.
Defined.

(** ** The pieces of an [emails] cell *)

Lemma split_length (sep : ascii) (s : string) :
  length (split sep s) = S (count_char sep s).
Proof.
  induction s as [|c s IH]; simpl; [reflexivity|].
  destruct (Ascii.eqb c sep); simpl; [rewrite IH; reflexivity|].
  destruct (split sep s) as [|p ps]; simpl in *; [discriminate|exact IH].
Qed.

Lemma split_pieces_no_sep (sep : ascii) (s : string) :
  Forall (fun p => mem_char sep p = false) (split sep s).
Proof.
  induction s as [|c s IH]; simpl.
  - constructor; [reflexivity|constructor].
  - destruct (Ascii.eqb c sep) eqn:Ec.
    + constructor; [reflexivity|exact IH].
    + destruct (split sep s) as [|p ps].
      * constructor; [simpl; rewrite Ec; reflexivity|constructor].
      * inversion IH; subst. constructor; [simpl; rewrite Ec; assumption|assumption].
Qed.

Lemma lstrip_mem_char (c : ascii) (s : string) :
  mem_char c s = false -> mem_char c (lstrip s) = false.
Proof.
  induction s as [|c' s IH]; simpl; [reflexivity|].
  intros H. destruct (is_space c'); [|exact H].
  apply orb_false_iff in H as [_ H]. exact (IH H).
Qed.

Lemma rstrip_mem_char (c : ascii) (s : string) :
  mem_char c s = false -> mem_char c (rstrip s) = false.
Proof.
  induction s as [|c' s IH]; simpl; [reflexivity|].
  intros H. apply orb_false_iff in H as [Hc H]. specialize (IH H).
  destruct (rstrip s) as [|c1 r1].
  - destruct (is_space c'); simpl; [reflexivity|]. rewrite Hc. reflexivity.
  - simpl in *. rewrite Hc. exact IH.
Qed.

Lemma rstrip_idempotent (s : string) : rstrip (rstrip s) = rstrip s.
Proof.
  induction s as [|c s IH]; simpl; [reflexivity|].
  destruct (rstrip s) as [|c1 r1] eqn:E.
  - destruct (is_space c) eqn:Hc; simpl; [reflexivity|]. rewrite Hc. reflexivity.
  - change (rstrip (String c (String c1 r1))) with
      (match rstrip (String c1 r1) with
       | EmptyString => if is_space c then EmptyString else String c EmptyString
       | r => String c r
       end).
    rewrite IH. reflexivity.
Qed.

(** A text with no white space in front keeps its front when stripped at
    the end. *)
Lemma lstrip_rstrip (s : string) : lstrip s = s -> lstrip (rstrip s) = rstrip s.
Proof.
  destruct s as [|c s]; simpl; [reflexivity|].
  destruct (is_space c) eqn:Hc.
  - intros H. exfalso.
    assert (Hlen : forall t, (String.length (lstrip t) <= String.length t)%nat).
    { induction t as [|c' t IH]; simpl; [lia|].
      destruct (is_space c'); simpl; lia. }
    specialize (Hlen s). rewrite H in Hlen. simpl in Hlen. lia.
  - intros _. destruct (rstrip s); simpl; rewrite Hc; reflexivity.
Qed.

Lemma lstrip_idempotent (s : string) : lstrip (lstrip s) = lstrip s.
Proof.
  induction s as [|c s IH]; simpl; [reflexivity|].
  destruct (is_space c) eqn:Hc; [exact IH|]. simpl. rewrite Hc. reflexivity.
Qed.

Lemma strip_idempotent (s : string) : strip (strip s) = strip s.
Proof.
  unfold strip. rewrite (lstrip_rstrip (lstrip s) (lstrip_idempotent s)).
  apply rstrip_idempotent.
Qed.

(** X12: a non-empty [emails] cell that is not a JSON list gives one
    address more than it has commas, empty pieces included; no address
    holds a comma or has white space around it. *)
Theorem emails_pieces (row : gmap string (option string)) (r : MapsResult)
    (v : string) :
  from_csv_row row = Ok r ->
  row !! "emails" = Some (Some v) -> v <> "" -> startswith v "[" = false ->
  exists pieces,
    emails r = PList (map PStr pieces) /\
    length pieces = S (count_char "," v) /\
    Forall (fun p => mem_char "," p = false /\ strip p = p) pieces.
Proof.
  intros Hr Hrow Hne Hpre.
  destruct (from_csv_row_inv row r Hr) as (_ & _ & _ & _ & He).
  rewrite (emails_of_row_split row v Hrow Hne Hpre) in He. injection He as He.
  exists (map strip (split "," v)). repeat split.
  - rewrite <- He, map_map. reflexivity.
  - rewrite length_map. apply split_length.
  - apply Forall_map. eapply Forall_impl; [apply split_pieces_no_sep|].
    intros p Hp. simpl. split.
    + unfold strip. apply rstrip_mem_char, lstrip_mem_char, Hp.
    + apply strip_idempotent.
Qed.

Lemma emails_pieces_witness :
  match from_csv_row (emails_row " a@x.com ,, b@y.com,") with
  | Ok r => exists pieces, emails r = PList (map PStr pieces) /\ length pieces = 4%nat
  | Raise _ => False
  end.
Proof.
  destruct (from_csv_row (emails_row " a@x.com ,, b@y.com,")) as [r|e] eqn:E.
  - destruct (emails_pieces _ r " a@x.com ,, b@y.com," E)
      as (pieces & H1 & H2 & _); [reflexivity|discriminate|reflexivity|].
    exists pieces. split; [exact H1|exact H2].
  - vm_compute in E. discriminate E.
Defined.

(** ** Short records *)

Lemma zip_row_beyond (fieldnames : list string) :
  forall (record : list string) (d : gmap string (option string)) (k : string),
  In k (drop (length record) fieldnames) ->
  zip_row fieldnames record d !! k = Some None.
Proof.
  assert (Hnil : forall ks (d : gmap string (option string)) k,
            (In k ks \/ d !! k = Some None) -> zip_row ks [] d !! k = Some None).
  { induction ks as [|k0 ks IH]; intros d k H; simpl.
    - destruct H as [[]|H]. exact H.
    - apply IH. destruct H as [[->|H]|H].
      + right. apply lookup_insert_eq.
      + left. exact H.
      + destruct (decide (k0 = k)) as [->|Hne].
        * right. apply lookup_insert_eq.
        * right. rewrite lookup_insert_ne by exact Hne. exact H. }
  induction fieldnames as [|k0 ks IH]; intros record d k Hin.
  - rewrite drop_nil in Hin. destruct Hin.
  - destruct record as [|v vs].
    + apply Hnil. left. exact Hin.
    + simpl. apply IH. exact Hin.
Qed.

(** X13: a record shorter than the header decodes as if the cells it
    lacks were empty, but for the text fields: the reader fills the
    missing cells with [None], the numeric and structured fields and
    [emails] take their defaults, and a text field is [None], not the
    empty string. *)
Theorem short_record_fields (fieldnames record : list string) (k : string)
    (r : MapsResult) :
  In k (drop (length record) fieldnames) ->
  from_csv_row (zip_row fieldnames record ∅) = Ok r ->
  (forall f, In (k, f) scalar_columns -> f r = PNone) /\
  (forall f d, In (k, f, d) json_columns -> f r = d) /\
  (forall f, In (k, f) float_columns -> f r = float_zero) /\
  (k = "review_count" -> review_count r = PInt 0) /\
  (k = "emails" -> emails r = PList []).
Proof.
  intros Hin Hr. pose proof (zip_row_beyond fieldnames record ∅ k Hin) as Hk.
  destruct (from_csv_row_inv _ r Hr) as (Hs & Hj & Hf & Hi & He).
  repeat split.
  - intros f Hf'. rewrite (Hs k f Hf'). unfold row_get. rewrite Hk. reflexivity.
  - intros f d Hj'. specialize (Hj k f d Hj'). unfold parse_json, row_get in Hj.
    rewrite Hk in Hj. simpl in Hj. congruence.
  - intros f Hf'. specialize (Hf k f Hf'). unfold parse_float, row_get in Hf.
    rewrite Hk in Hf. simpl in Hf. congruence.
  - intros ->. unfold parse_int, row_get in Hi. rewrite Hk in Hi. simpl in Hi.
    congruence.
  - intros ->. rewrite emails_of_row_empty in He by auto. congruence.
Qed.

Lemma short_record_fields_witness :
  match from_csv_row (zip_row two_rows_header ["Cafe C"] ∅) with
  | Ok r => web_site r = PNone
  | Raise _ => False
  end.
Proof.
  destruct (from_csv_row (zip_row two_rows_header ["Cafe C"] ∅)) as [r|e] eqn:E.
  - destruct (short_record_fields two_rows_header ["Cafe C"] "website" r) as (H & _);
      [pick_member|exact E|].
    apply (H web_site). pick_member.
  - vm_compute in E. discriminate E.
Defined.

(** ** Full records *)

Lemma zip_row_other (fieldnames : list string) :
  forall (record : list string) (d : gmap string (option string)) (k : string),
  ~ In k fieldnames -> zip_row fieldnames record d !! k = d !! k.
Proof.
  induction fieldnames as [|k0 ks IH]; intros record d k Hk; [reflexivity|].
  assert (Hne : k0 <> k) by (intros ->; apply Hk; left; reflexivity).
  assert (Hks : ~ In k ks) by (intros H; apply Hk; right; exact H).
  destruct record as [|v vs]; simpl; rewrite (IH _ _ _ Hks), lookup_insert_ne by exact Hne;
    reflexivity.
Qed.

Lemma zip_row_cell (fieldnames : list string) :
  forall (record : list string) (d : gmap string (option string)) (i : nat)
         (k v : string),
  List.NoDup fieldnames -> fieldnames !! i = Some k -> record !! i = Some v ->
  zip_row fieldnames record d !! k = Some (Some v).
Proof.
  induction fieldnames as [|k0 ks IH]; intros record d i k v Hnd Hk Hv; [discriminate|].
  inversion Hnd as [|? ? Hnotin Hnd']; subst.
  destruct record as [|v0 vs]; [discriminate|].
  destruct i as [|i]; simpl in Hk, Hv |- *.
  - injection Hk as ->. injection Hv as ->.
    rewrite (zip_row_other ks vs _ k Hnotin). apply lookup_insert_eq.
  - exact (IH vs _ i k v Hnd' Hk Hv).
Qed.

(** X22: the cells of a record reach the fields of their columns: under a
    header without a repeated name, a text field holds the cell that stands
    under its column, unchanged, and the empty string when the header has no
    such column. *)
Theorem record_cells_reach_fields (fieldnames record : list string) (r : MapsResult) :
  List.NoDup fieldnames ->
  from_csv_row (zip_row fieldnames record ∅) = Ok r ->
  forall k f, In (k, f) scalar_columns ->
    (forall i v, fieldnames !! i = Some k -> record !! i = Some v -> f r = PStr v) /\
    (~ In k fieldnames -> f r = PStr "").
Proof.
  intros Hnd Hr k f Hin.
  destruct (from_csv_row_inv _ r Hr) as (Hs & _). rewrite (Hs k f Hin). split.
  - intros i v Hk Hv. unfold row_get.
    rewrite (zip_row_cell fieldnames record ∅ i k v Hnd Hk Hv). reflexivity.
  - intros Hk. unfold row_get. rewrite (zip_row_other fieldnames record ∅ k Hk).
    rewrite lookup_empty. reflexivity.
Qed.

Lemma record_cells_reach_fields_witness :
  match from_csv_row row_a with
  | Ok r => web_site r = PStr "http://a.example" /\ phone r = PStr ""
  | Raise _ => False
  end.
Proof.
  destruct (from_csv_row row_a) as [r|e] eqn:E.
  - assert (Hnd : List.NoDup two_rows_header).
    { unfold two_rows_header.
      repeat (constructor; [simpl; intros H;
        repeat (destruct H as [H|H]; [discriminate H|]); exact H|]).
      constructor. }
    split.
    + apply (proj1 (record_cells_reach_fields two_rows_header
                      ["Cafe A"; "http://a.example"; "12.0"; "a@x.com"] r Hnd E
                      "website" web_site ltac:(pick_member)) 1%nat); reflexivity.
    + apply (proj2 (record_cells_reach_fields two_rows_header
                      ["Cafe A"; "http://a.example"; "12.0"; "a@x.com"] r Hnd E
                      "phone" phone ltac:(pick_member))).
      simpl. intros H. repeat (destruct H as [H|H]; [discriminate H|]). exact H.
  - vm_compute in E. discriminate E.
Defined.
(** ** The effects of the poll *)

Lemma requests_of_app (a b : list Event) :
  requests_of (a ++ b) = (requests_of a ++ requests_of b)%list.
Proof.
  induction a as [|ev a IH]; simpl; [reflexivity|].
  destruct ev; simpl; rewrite IH; reflexivity.
Qed.

Lemma sleeps_of_app (a b : list Event) :
  sleeps_of (a ++ b) = (sleeps_of a ++ sleeps_of b)%list.
Proof.
  induction a as [|ev a IH]; simpl; [reflexivity|].
  destruct ev; simpl; rewrite IH; reflexivity.
Qed.

Section Effects.

Variable py_repr : pyval -> string.
Variable self : MapsScraperClient.
Variable url : string.
Variable job_id : pyval.
Variable start_time : spec_float.
Variable poll_s : Z.

Abbreviation turn := (wait_for_job_turn py_repr self url job_id start_time).
Abbreviation loop := (fun fuel => wait_for_job_loop py_repr fuel self url job_id start_time poll_s).
Abbreviation timed_out :=
  (Raise (A := pyval) (TimeoutError ("Job " +:+ py_str py_repr job_id +:+ " timed out"))).

(** What one turn does, whatever its outcome: it reads the clock once;
    then either the deadline has passed and nothing else happens, or it
    issues the status request, followed at most by a warning. *)
Lemma turn_effects (w : World) :
  exists r w', turn w = Some (r, w') /\
    serve w' = serve w /\ clock w' = clock w /\ readings w' = S (readings w) /\
    ((deadline_passed self start_time (clock w (readings w)) = true /\
      r = Raise (TimeoutError ("Job " +:+ py_str py_repr job_id +:+ " timed out")) /\
      requests w' = requests w /\ trace w' = trace w) \/
     (deadline_passed self start_time (clock w (readings w)) = false /\
      requests w' = S (requests w) /\
      exists logs, trace w' = (trace w ++ EvRequest (status_request url) :: logs)%list /\
                   requests_of logs = [] /\ sleeps_of logs = [])).
Proof.
  destruct (deadline_passed self start_time (clock w (readings w))) eqn:Hd.
  - unfold wait_for_job_turn, bindM, time_time. unfold deadline_passed in Hd.
    rewrite Hd. unfold raise. do 2 eexists. split; [reflexivity|].
    repeat split. left. repeat split.
  - rewrite (turn_response py_repr self url job_id start_time w Hd).
    assert (Hplain : forall r : PyResult (option pyval),
              exists r0 w', Some (r, polled url w) = Some (r0, w') /\
              serve w' = serve w /\ clock w' = clock w /\ readings w' = S (readings w) /\
              ((false = true /\
                r0 = Raise (TimeoutError ("Job " +:+ py_str py_repr job_id
                                          +:+ " timed out")) /\
                requests w' = requests w /\ trace w' = trace w) \/
               (false = false /\ requests w' = S (requests w) /\
                exists logs,
                  trace w' = (trace w ++ EvRequest (status_request url) :: logs)%list /\
                  requests_of logs = [] /\ sleeps_of logs = []))).
    { intros r. do 2 eexists. split; [reflexivity|]. repeat split.
      right. repeat split. exists []. repeat split. }
    destruct (serve w (requests w) (status_request url)) as [resp|e]; [|apply Hplain].
    destruct (resp_status resp =? 404); [apply Hplain|].
    destruct (resp_status resp =? 200); simpl.
    + unfold bindM, lift.
      destruct (resp_json resp) as [data|e]; [|apply Hplain].
      destruct (get_ data "status") as [st|e]; [|apply Hplain].
      destruct (eq_str st "finished" || eq_str st "ok"); [apply Hplain|].
      destruct (eq_str st "failed" || eq_str st "error"); [|apply Hplain].
      destruct (get_ data "error"); apply Hplain.
    + do 2 eexists. split; [reflexivity|]. repeat split.
      right. repeat split. eexists [_]. simpl. rewrite <- app_assoc.
      repeat split.
Qed.

(** The effects of the loop, for every outcome. *)
Lemma loop_effects (fuel : nat) :
  forall w r w', loop fuel w = Some (r, w') ->
  exists evs k m,
    trace w' = (trace w ++ evs)%list /\
    requests_of evs = replicate k (status_request url) /\
    sleeps_of evs = replicate m poll_s /\
    requests w' = (requests w + k)%nat /\
    readings w' = (readings w + S m)%nat /\
    serve w' = serve w /\ clock w' = clock w /\
    (k = S m \/ (k = m /\ r = timed_out)).
Proof.
  induction fuel as [|fuel IH]; intros w r w' H; [discriminate|].
  rewrite loop_step in H.
  destruct (turn_effects w) as (r1 & w1 & Hturn & Hs & Hc & Hk & Hcase).
  rewrite Hturn in H.
  assert (Hend : w1 = w' ->
    (r1 = Raise (TimeoutError ("Job " +:+ py_str py_repr job_id +:+ " timed out")) ->
     r = timed_out) ->
    exists evs k m,
      trace w' = (trace w ++ evs)%list /\
      requests_of evs = replicate k (status_request url) /\
      sleeps_of evs = replicate m poll_s /\
      requests w' = (requests w + k)%nat /\
      readings w' = (readings w + S m)%nat /\
      serve w' = serve w /\ clock w' = clock w /\
      (k = S m \/ (k = m /\ r = timed_out))).
  { intros <- Hr. destruct Hcase as [(_ & Hr1 & Hq & Ht)|(_ & Hq & logs & Ht & Hl1 & Hl2)].
    - exists [], 0%nat, 0%nat. rewrite app_nil_r. repeat split; try assumption; try lia.
      right. split; [reflexivity|exact (Hr Hr1)].
    - exists (EvRequest (status_request url) :: logs), 1%nat, 0%nat.
      simpl. rewrite Hl1, Hl2. repeat split; try assumption; lia. }
  destruct r1 as [[data|]|e].
  - injection H as <- <-. apply Hend; [reflexivity|discriminate].
  - destruct Hcase as [(_ & Hr & _)|(_ & Hq & logs & Ht & Hl1 & Hl2)]; [discriminate Hr|].
    destruct (IH _ _ _ H) as (evs & k & m & Ht' & Hreq & Hsl & Hq' & Hk' & Hs' & Hc' & Hkm).
    simpl in Ht', Hq', Hk', Hs', Hc'.
    exists ((EvRequest (status_request url) :: logs) ++ [EvSleep poll_s] ++ evs)%list,
      (S k), (S m).
    repeat split.
    + rewrite Ht', Ht, <- !app_assoc. reflexivity.
    + rewrite !requests_of_app. simpl. rewrite Hl1, Hreq. reflexivity.
    + rewrite !sleeps_of_app. simpl. rewrite Hl2, Hsl. reflexivity.
    + lia.
    + lia.
    + congruence.
    + congruence.
    + destruct Hkm as [->|[-> ->]]; [left; reflexivity|right; split; reflexivity].
  - injection H as <- <-. apply Hend; [reflexivity|].
    intros Hr. injection Hr as ->. reflexivity.
Qed.

(** Once the clock passes the deadline the loop ends, whatever the service
    answers. *)
Lemma loop_bounded (n : nat) :
  forall w,
  deadline_passed self start_time (clock w (readings w + n)%nat) = true ->
  forall fuel, (n < fuel)%nat ->
  exists r w', loop fuel w = Some (r, w') /\ (requests w' <= requests w + n)%nat.
Proof.
  induction n as [|n IH]; intros w Hdl fuel Hfuel;
    (destruct fuel as [|fuel]; [lia|]); rewrite loop_step;
    destruct (turn_effects w) as (r1 & w1 & -> & Hs & Hc & Hk & Hcase).
  - rewrite Nat.add_0_r in Hdl.
    destruct Hcase as [(_ & -> & Hq & _)|(Hd & _)]; [|congruence].
    do 2 eexists. split; [reflexivity|]. lia.
  - assert (Hq : (requests w1 <= S (requests w))%nat)
      by (destruct Hcase as [(_ & _ & Hq & _)|(_ & Hq & _)]; lia).
    destruct r1 as [[data|]|e].
    + do 2 eexists. split; [reflexivity|]. lia.
    + destruct (IH (emit (EvSleep poll_s) w1)) with (fuel := fuel)
        as (r & w' & -> & Hle); simpl.
      * rewrite Hc, Hk. replace (S (readings w) + n)%nat
          with (readings w + S n)%nat by lia. exact Hdl.
      * lia.
      * do 2 eexists. split; [reflexivity|]. simpl in Hle. lia.
    + do 2 eexists. split; [reflexivity|]. lia.
Qed.

(** The payload the loop returns reports success. *)
Lemma loop_returns_success (fuel : nat) :
  forall w w' data, loop fuel w = Some (Ok data, w') ->
  exists d, data = PDict d /\
    (dict_lookup d "status" = Some (PStr "finished") \/
     dict_lookup d "status" = Some (PStr "ok")).
Proof.
  induction fuel as [|fuel IH]; intros w w' data H; [discriminate|].
  rewrite loop_step in H.
  destruct (turn w) as [[[[data0|]|e] w1]|] eqn:E; try discriminate.
  - injection H as <- <-.
    destruct (turn_returns_object _ _ _ _ _ _ _ _ E) as (d & -> & st & Hst & Hok).
    exists d. split; [reflexivity|]. simpl in Hst.
    apply orb_true_iff in Hok as [Hok|Hok]; apply eq_str_true in Hok; subst st;
      destruct (dict_lookup d "status"); try discriminate; [left|right]; congruence.
  - exact (IH _ _ _ H).
Qed.

(** A request is issued only on a turn whose clock reading is within the
    deadline. *)
Lemma loop_deadline (fuel : nat) :
  forall w r w', loop fuel w = Some (r, w') ->
  forall i, (requests w + i < requests w')%nat ->
  deadline_passed self start_time (clock w (readings w + i)%nat) = false.
Proof.
  induction fuel as [|fuel IH]; intros w r w' H i Hi; [discriminate|].
  rewrite loop_step in H.
  destruct (turn_effects w) as (r1 & w1 & Hturn & Hs & Hc & Hk & Hcase).
  rewrite Hturn in H.
  destruct Hcase as [(_ & -> & Hq & _)|(Hd & Hq & _)].
  - injection H as <- <-. lia.
  - destruct r1 as [[data|]|e].
    + injection H as <- <-. assert (i = 0%nat) as -> by lia.
      rewrite Nat.add_0_r. exact Hd.
    + destruct i as [|j]; [rewrite Nat.add_0_r; exact Hd|].
      specialize (IH _ _ _ H j). simpl in IH. rewrite Hc, Hk in IH.
      replace (readings w + S j)%nat with (S (readings w) + j)%nat by lia.
      apply IH. lia.
    + injection H as <- <-. assert (i = 0%nat) as -> by lia.
      rewrite Nat.add_0_r. exact Hd.
Qed.

End Effects.

(** X14: what [wait_for_job] returns is an object whose status is
    [finished] or [ok]. *)
Theorem wait_for_job_returns_success (py_repr : pyval -> string) (fuel : nat)
    (self : MapsScraperClient) (job_id : pyval) (poll_s : Z) (w w' : World)
    (data : pyval) :
  wait_for_job py_repr fuel self job_id poll_s w = Some (Ok data, w') ->
  exists d, data = PDict d /\
    (dict_lookup d "status" = Some (PStr "finished") \/
     dict_lookup d "status" = Some (PStr "ok")).
Proof.
  rewrite wait_for_job_unfold. apply loop_returns_success.
Qed.

Lemma wait_for_job_returns_success_witness :
  match wait_for_job no_repr 10 local_client (PStr "J1") 5 finishing_world with
  | Some (Ok data, _) => exists d, data = PDict d /\
      (dict_lookup d "status" = Some (PStr "finished") \/
       dict_lookup d "status" = Some (PStr "ok"))
  | _ => False
  end.
Proof.
  destruct (wait_for_job no_repr 10 local_client (PStr "J1") 5 finishing_world)
    as [[[data|e] w']|] eqn:E.
  - exact (wait_for_job_returns_success _ _ _ _ _ _ _ _ E).
  - vm_compute in E. discriminate E.
  - vm_compute in E. discriminate E.
Defined.

(** X15: the effects of [wait_for_job], for every outcome. It adds to the
    trace only; it reads the clock once at the start and once a turn; every
    request is the GET of the job's status address; it sleeps the poll
    interval after each turn but the last, so it issues one request per
    turn, but for a last turn that finds the deadline passed and raises the
    time-out without a request. *)
Theorem wait_for_job_effects (py_repr : pyval -> string) (fuel : nat)
    (self : MapsScraperClient) (job_id : pyval) (poll_s : Z) (w w' : World)
    (r : PyResult pyval) :
  wait_for_job py_repr fuel self job_id poll_s w = Some (r, w') ->
  exists evs k m,
    trace w' = (trace w ++ evs)%list /\
    requests_of evs = replicate k (status_request (job_url py_repr self job_id)) /\
    sleeps_of evs = replicate m poll_s /\
    requests w' = (requests w + k)%nat /\
    readings w' = (readings w + 2 + m)%nat /\
    (k = S m \/
     (k = m /\
      r = Raise (TimeoutError ("Job " +:+ py_str py_repr job_id +:+ " timed out")))).
Proof.
  rewrite wait_for_job_unfold. intros H.
  destruct (loop_effects _ _ _ _ _ _ _ _ _ _ H)
    as (evs & k & m & Ht & Hreq & Hsl & Hq & Hk & _ & _ & Hkm).
  simpl in Ht, Hq, Hk. exists evs, k, m. repeat split; try assumption. lia.
Qed.

Lemma wait_for_job_effects_witness :
  match wait_for_job no_repr 10 local_client (PStr "J1") 5 never_done_world with
  | Some (_, w') => exists evs k m,
      trace w' = (trace never_done_world ++ evs)%list /\
      sleeps_of evs = replicate m 5 /\
      requests w' = (requests never_done_world + k)%nat /\
      (k = S m \/ k = m)
  | None => False
  end.
Proof.
  destruct (wait_for_job no_repr 10 local_client (PStr "J1") 5 never_done_world)
    as [[r w']|] eqn:E.
  - destruct (wait_for_job_effects _ _ _ _ _ _ _ _ E)
      as (evs & k & m & H1 & _ & H2 & H3 & _ & H4).
    exists evs, k, m. repeat split; try assumption.
    destruct H4 as [H4|[H4 _]]; [left|right]; exact H4.
  - vm_compute in E. discriminate E.
Defined.

(** X16: [wait_for_job] cannot poll for ever once the clock passes the
    deadline: if the [n]-th reading after the start exceeds the time-out, the
    call ends within [n] requests, whatever the service answers. *)
Theorem wait_for_job_bounded (py_repr : pyval -> string) (self : MapsScraperClient)
    (job_id : pyval) (poll_s : Z) (w : World) (n : nat) :
  deadline_passed self (clock w (readings w)) (clock w (S (readings w) + n)%nat) = true ->
  forall fuel, (n < fuel)%nat ->
  exists r w', wait_for_job py_repr fuel self job_id poll_s w = Some (r, w') /\
               (requests w' <= requests w + n)%nat.
Proof.
  intros Hdl fuel Hfuel. rewrite wait_for_job_unfold.
  destruct (loop_bounded py_repr self (job_url py_repr self job_id) job_id
              (clock w (readings w)) poll_s n
              {| serve := serve w; clock := clock w; requests := requests w;
                 readings := S (readings w); trace := trace w |} Hdl fuel Hfuel)
    as (r & w' & H & Hle).
  exists r, w'. split; [exact H|exact Hle].
Qed.

Lemma wait_for_job_bounded_witness :
  exists r w', wait_for_job no_repr 10 local_client (PStr "J1") 5 garbled_world
               = Some (r, w') /\
               (requests w' <= requests garbled_world + 4)%nat.
Proof.
  apply (wait_for_job_bounded no_repr local_client (PStr "J1") 5 garbled_world 4).
  - vm_compute. reflexivity.
  - lia.
Defined.

(** X20: [wait_for_job] issues a request only after a clock reading that
    is within the deadline: for each request of the call, the reading taken
    at the head of its turn did not exceed the start by more than the
    time-out. *)
Theorem wait_for_job_respects_deadline (py_repr : pyval -> string) (fuel : nat)
    (self : MapsScraperClient) (job_id : pyval) (poll_s : Z) (w w' : World)
    (r : PyResult pyval) :
  wait_for_job py_repr fuel self job_id poll_s w = Some (r, w') ->
  forall i, (requests w + i < requests w')%nat ->
  deadline_passed self (clock w (readings w)) (clock w (S (readings w) + i)%nat) = false.
Proof.
  rewrite wait_for_job_unfold. intros H i Hi.
  exact (loop_deadline _ _ _ _ _ _ _ _ _ _ H i Hi).
Qed.

Lemma wait_for_job_respects_deadline_witness :
  match wait_for_job no_repr 10 local_client (PStr "J1") 5 never_done_world with
  | Some (_, w') =>
      deadline_passed local_client (clock never_done_world 0) (clock never_done_world 3)
      = false
  | None => False
  end.
Proof.
  destruct (wait_for_job no_repr 10 local_client (PStr "J1") 5 never_done_world)
    as [[r w']|] eqn:E.
  - apply (wait_for_job_respects_deadline _ _ _ _ _ _ _ _ E 2%nat).
    vm_compute in E. injection E as _ <-. simpl. lia.
  - vm_compute in E. discriminate E.
Defined.

(** ** The effects of the whole fetch *)

Lemma submit_job_effects (self : MapsScraperClient) (query : string) (p : JobParams)
    (w : World) :
  exists r w', submit_job self query p w = Some (r, w') /\
    trace w' = (trace w ++ [EvRequest (create_request self query p)])%list /\
    requests w' = S (requests w) /\
    serve w' = serve w /\ clock w' = clock w /\ readings w' = readings w.
Proof.
  unfold submit_job, bindM at 1, session_post, request. fold (create_request self query p).
  destruct (serve w (requests w) (create_request self query p)) as [resp|e].
  - destruct (negb (resp_status resp =? 201)); unfold bindM, lift, raise.
    + destruct (resp_text resp); do 2 eexists; repeat split.
    + destruct (resp_json resp) as [data|]; do 2 eexists; repeat split.
  - do 2 eexists. repeat split.
Qed.

Lemma download_csv_effects (py_repr : pyval -> string) (self : MapsScraperClient)
    (job_id : pyval) (w : World) :
  exists r w', download_csv py_repr self job_id w = Some (r, w') /\
    trace w' = (trace w ++ [EvRequest (status_request
                                         (job_url py_repr self job_id +:+ "/download"))])%list /\
    requests w' = S (requests w).
Proof.
  unfold download_csv, bindM at 1, session_get, request.
  fold (status_request (job_url py_repr self job_id +:+ "/download")).
  destruct (serve w (requests w) _) as [resp|e].
  - unfold bindM, raise_for_status. destruct (400 <=? resp_status resp); simpl.
    + do 2 eexists. repeat split.
    + unfold lift. do 2 eexists. repeat split.
  - do 2 eexists. repeat split.
Qed.

(** X17: the requests of [fetch_places], for every outcome: the create
    request first, then GETs of the status address of the job it was given,
    then, only when the poll has returned, one GET of the download address.
    The poll sleeps 5 seconds between two requests, whatever the arguments. A
    call that returns has made all three kinds of request. *)
Theorem fetch_places_requests (py_repr : pyval -> string) (fuel : nat)
    (self : MapsScraperClient) (query : string) (kwargs : JobParams) (w w' : World)
    (r : PyResult (list MapsResult)) :
  fetch_places py_repr fuel self query kwargs w = Some (r, w') ->
  exists evs job_id k m dl,
    trace w' = (trace w ++ evs)%list /\
    requests_of evs =
      (create_request self query kwargs
       :: replicate k (status_request (job_url py_repr self job_id)) ++ dl)%list /\
    sleeps_of evs = replicate m 5 /\
    (k = m \/ k = S m) /\
    (dl = [] \/
     (dl = [status_request (job_url py_repr self job_id +:+ "/download")] /\ k = S m)) /\
    (forall results, r = Ok results ->
       dl = [status_request (job_url py_repr self job_id +:+ "/download")]).
Proof.
  unfold fetch_places. unfold bindM at 1.
  destruct (submit_job_effects self query kwargs w) as (r1 & w1 & -> & Ht1 & Hq1 & _).
  destruct r1 as [job_id|e].
  2:{ intros H. injection H as <- <-.
      exists [EvRequest (create_request self query kwargs)], PNone, 0%nat, 0%nat, [].
      repeat split; try assumption; auto. discriminate. }
  unfold bindM at 1, logger_info at 1. unfold bindM at 1.
  destruct (wait_for_job py_repr fuel self job_id 5 _) as [[r2 w2]|] eqn:Hwait;
    [|discriminate].
  pose proof Hwait as Hwait'. rewrite wait_for_job_unfold in Hwait'.
  destruct (loop_effects _ _ _ _ _ _ _ _ _ _ Hwait')
    as (evs & k & m & Ht2 & Hreq & Hsl & _ & _ & _ & _ & Hkm).
  simpl in Ht2.
  destruct r2 as [details|e].
  2:{ intros H. injection H as <- <-.
      exists ([EvRequest (create_request self query kwargs)]
              ++ [EvLog "INFO" ("Job submitted: " +:+ py_str py_repr job_id)] ++ evs)%list,
        job_id, k, m, [].
      repeat split.
      - rewrite Ht2, Ht1, <- !app_assoc. reflexivity.
      - simpl. rewrite Hreq, app_nil_r. reflexivity.
      - simpl. exact Hsl.
      - destruct Hkm as [->|[-> _]]; auto.
      - left. reflexivity.
      - discriminate. }
  assert (Hk : k = S m) by (destruct Hkm as [->|[_ Habs]]; [reflexivity|discriminate Habs]).
  destruct (loop_returns_success _ _ _ _ _ _ _ _ _ _ Hwait') as (d & -> & Hst).
  unfold bindM at 1, lift at 1.
  assert (Hget : exists st, get_ (PDict d) "status" = Ok st).
  { simpl. destruct Hst as [-> | ->]; eauto. }
  destruct Hget as [st ->].
  unfold bindM at 1, logger_info at 1. unfold bindM at 1.
  destruct (download_csv_effects py_repr self job_id
              (emit (EvLog "INFO" ("Job finished: " +:+ py_str py_repr st)) w2))
    as (r3 & w3 & -> & Ht3 & _).
  simpl in Ht3.
  assert (Hshape : forall r0 : PyResult (list MapsResult), Some (r0, w3) = Some (r, w') ->
    exists evs job_id k m dl,
      trace w' = (trace w ++ evs)%list /\
      requests_of evs =
        (create_request self query kwargs
         :: replicate k (status_request (job_url py_repr self job_id)) ++ dl)%list /\
      sleeps_of evs = replicate m 5 /\
      (k = m \/ k = S m) /\
      (dl = [] \/
       (dl = [status_request (job_url py_repr self job_id +:+ "/download")] /\ k = S m)) /\
      (forall results, r = Ok results ->
         dl = [status_request (job_url py_repr self job_id +:+ "/download")])).
  { intros r0 H. injection H as <- <-.
    exists ([EvRequest (create_request self query kwargs)]
            ++ [EvLog "INFO" ("Job submitted: " +:+ py_str py_repr job_id)] ++ evs
            ++ [EvLog "INFO" ("Job finished: " +:+ py_str py_repr st)]
            ++ [EvRequest (status_request (job_url py_repr self job_id +:+ "/download"))])%list,
      job_id, k, m, [status_request (job_url py_repr self job_id +:+ "/download")].
    repeat split.
    - rewrite Ht3, Ht2, Ht1, <- !app_assoc. reflexivity.
    - simpl. rewrite !requests_of_app, Hreq. reflexivity.
    - simpl. rewrite !sleeps_of_app, Hsl. simpl. rewrite app_nil_r. reflexivity.
    - right. exact Hk.
    - right. split; [reflexivity|exact Hk]. }
  destruct r3 as [csv_content|e]; [|apply Hshape].
  destruct (DictReader csv_content) as [rows err]. apply Hshape.
Qed.

Lemma fetch_places_requests_witness :
  match fetch_places no_repr 10 local_client "coffee shops" default_params happy_world with
  | Some (_, w') => exists evs job_id k dl,
      trace w' = (trace happy_world ++ evs)%list /\
      requests_of evs =
        (create_request local_client "coffee shops" default_params
         :: replicate k (status_request (job_url no_repr local_client job_id)) ++ dl)%list
  | None => False
  end.
Proof.
  destruct (fetch_places no_repr 10 local_client "coffee shops" default_params happy_world)
    as [[r w']|] eqn:E.
  - destruct (fetch_places_requests _ _ _ _ _ _ _ _ E)
      as (evs & job_id & k & m & dl & H1 & H2 & _).
    exists evs, job_id, k, dl. split; assumption.
  - vm_compute in E. discriminate E.
Defined.

(** X21: [fetch_places] ends once the clock passes the deadline of the
    poll: if the [n]-th reading after the first exceeds it by more than the
    time-out, the call returns or raises within [n + 2] requests, whatever
    the service answers. *)
Theorem fetch_places_bounded (py_repr : pyval -> string) (self : MapsScraperClient)
    (query : string) (kwargs : JobParams) (w : World) (n : nat) :
  deadline_passed self (clock w (readings w)) (clock w (S (readings w) + n)%nat) = true ->
  forall fuel, (n < fuel)%nat ->
  exists r w', fetch_places py_repr fuel self query kwargs w = Some (r, w') /\
               (requests w' <= requests w + n + 2)%nat.
Proof.
  intros Hdl fuel Hfuel. unfold fetch_places. unfold bindM at 1.
  destruct (submit_job_effects self query kwargs w)
    as (r1 & w1 & -> & _ & Hq1 & Hs1 & Hc1 & Hk1).
  destruct r1 as [job_id|e]; [|do 2 eexists; split; [reflexivity|lia]].
  unfold bindM at 1, logger_info at 1. unfold bindM at 1.
  rewrite wait_for_job_unfold.
  destruct (loop_bounded py_repr self (job_url py_repr self job_id) job_id
              (clock w1 (readings w1)) 5 n
              {| serve := serve w1; clock := clock w1; requests := requests w1;
                 readings := S (readings w1);
                 trace := (trace w1 ++ [EvLog "INFO" ("Job submitted: "
                                                      +:+ py_str py_repr job_id)])%list |})
    with (fuel := fuel) as (r2 & w2 & Hloop & Hq2).
  { simpl. rewrite Hc1, Hk1. exact Hdl. }
  { exact Hfuel. }
  simpl in Hloop, Hq2. simpl. rewrite Hloop.
  destruct r2 as [details|e]; [|do 2 eexists; split; [reflexivity|lia]].
  unfold bindM at 1, lift at 1.
  destruct (get_ details "status") as [st|e]; [|do 2 eexists; split; [reflexivity|lia]].
  unfold bindM at 1, logger_info at 1. unfold bindM at 1.
  destruct (download_csv_effects py_repr self job_id
              (emit (EvLog "INFO" ("Job finished: " +:+ py_str py_repr st)) w2))
    as (r3 & w3 & -> & _ & Hq3).
  simpl in Hq3.
  destruct r3 as [csv_content|e]; [|do 2 eexists; split; [reflexivity|lia]].
  destruct (DictReader csv_content) as [rows err].
  do 2 eexists. split; [reflexivity|lia].
Qed.

Lemma fetch_places_bounded_witness :
  exists r w',
    fetch_places no_repr 10 local_client "coffee shops" default_params happy_world
      = Some (r, w') /\
    (requests w' <= requests happy_world + 4 + 2)%nat.
Proof.
  apply (fetch_places_bounded no_repr local_client "coffee shops" default_params
           happy_world 4).
  - vm_compute. reflexivity.
  - lia.
Defined.

(** ** The example program *)

Section Program.

Variable py_repr : pyval -> string.
Variable library_str : exn -> string.
Variable fuel : nat.

Abbreviation example_fetch :=
  (fetch_places py_repr fuel (init "http://localhost:8090" 300)
     "coffee shops in New York" main_kwargs).

(** X18: [main] never raises: whatever the service does, the error of the
    fetch is printed, not passed on. It prints one line, or two when the
    fetch returns a place; without the HTTP library it prints one line and
    does nothing else. *)
Theorem main_never_raises (aiohttp : bool) (w w' : World) (r : PyResult (list string)) :
  main py_repr library_str fuel aiohttp w = Some (r, w') ->
  exists lines, r = Ok lines /\
    (aiohttp = false -> w' = w /\ length lines = 1%nat) /\
    (forall e w1, aiohttp = true -> example_fetch w = Some (Raise e, w1) ->
       w' = w1 /\ lines = ["Error: " +:+ str_of_exn library_str e]) /\
    (forall results w1, aiohttp = true -> example_fetch w = Some (Ok results, w1) ->
       w' = w1 /\
       head lines = Some ("Found " +:+ str_of_int (Z.of_nat (length results)) +:+ " places") /\
       length lines = (if is_nil results then 1 else 2)%nat).
Proof.
  unfold main. destruct aiohttp; simpl.
  - unfold try_except_Exception, bindM.
    destruct (example_fetch w) as [[[results|e] w1]|]; [| |discriminate].
    + assert (Hlines : forall lines : list string,
                head lines = Some ("Found " +:+ str_of_int (Z.of_nat (length results))
                                   +:+ " places") ->
                length lines = (if is_nil results then 1 else 2)%nat ->
                Some (Ok lines, w1) = Some (r, w') ->
                exists lines0, r = Ok lines0 /\
                  (true = false -> w' = w /\ length lines0 = 1%nat) /\
                  (forall e w2, true = true -> Some (Ok results, w1) = Some (Raise e, w2) ->
                     w' = w2 /\ lines0 = ["Error: " +:+ str_of_exn library_str e]) /\
                  (forall results0 w2, true = true ->
                     Some (Ok results, w1) = Some (Ok results0, w2) ->
                     w' = w2 /\
                     head lines0 = Some ("Found " +:+ str_of_int (Z.of_nat (length results0))
                                         +:+ " places") /\
                     length lines0 = (if is_nil results0 then 1 else 2)%nat)).
      { intros lines Hhd Hlen H. injection H as <- <-. exists lines.
        split; [reflexivity|]. split; [discriminate|]. split; [discriminate|].
        intros results0 w2 _ H. injection H as <- <-. auto. }
      destruct results as [|first rest]; apply Hlines; reflexivity.
    + intros H. injection H as <- <-. eexists. split; [reflexivity|].
      split; [discriminate|]. split; [|discriminate].
      intros e' w2 _ H. injection H as <- <-. auto.
  - intros H. injection H as <- <-. eexists. split; [reflexivity|].
    split; [auto|]. split; discriminate.
Qed.

(** X19: run as a script, the module never takes the first branch of
    [main]: without the HTTP library it prints its own notice and does not
    call [main], so the line of that branch is never printed. *)
Theorem script_guard (aiohttp : bool) (w w' : World) (r : PyResult (list string)) :
  script py_repr library_str fuel aiohttp w = Some (r, w') ->
  r <> Ok ["aiohttp not installed, skipping execution"] /\
  (aiohttp = false -> w' = w) /\
  (aiohttp = true -> main py_repr library_str fuel true w = Some (r, w')).
Proof.
  unfold script. destruct aiohttp.
  - intros H. repeat split; [|discriminate|intros _; exact H].
    unfold main in H. simpl in H. unfold try_except_Exception, bindM in H.
    destruct (example_fetch w) as [[[results|e] w1]|]; [| |discriminate].
    + destruct results; injection H as <- <-; discriminate.
    + injection H as <- <-. discriminate.
  - intros H. injection H as <- <-. repeat split; discriminate.
Qed.

End Program.

Lemma main_never_raises_witness :
  match main no_repr (fun _ => "") 10 true happy_world with
  | Some (r, _) => exists lines, r = Ok lines
  | None => False
  end.
Proof.
  destruct (main no_repr (fun _ => "") 10 true happy_world) as [[r w']|] eqn:E.
  - destruct (main_never_raises _ _ _ _ _ _ _ E) as (lines & H & _).
    exists lines. exact H.
  - vm_compute in E. discriminate E.
Defined.

Lemma script_guard_witness :
  match script no_repr (fun _ => "") 10 false happy_world with
  | Some (r, w') => w' = happy_world
  | None => False
  end.
Proof.
  destruct (script no_repr (fun _ => "") 10 false happy_world) as [[r w']|] eqn:E.
  - destruct (script_guard _ _ _ _ _ _ _ E) as (_ & H & _). apply H. reflexivity.
  - discriminate E.
Defined.
(** ** Counts written in decimal *)

Lemma digits2_pos_bounds (p : positive) :
  2 ^ (Zpos (digits2_pos p) - 1) <= Zpos p < 2 ^ Zpos (digits2_pos p).
Proof.
  induction p as [p IH|p IH|]; simpl digits2_pos.
  - rewrite Pos2Z.inj_succ.
    replace (Z.succ (Zpos (digits2_pos p)) - 1) with (Z.succ (Zpos (digits2_pos p) - 1)) by lia.
    rewrite !Z.pow_succ_r by lia. lia.
  - rewrite Pos2Z.inj_succ.
    replace (Z.succ (Zpos (digits2_pos p)) - 1) with (Z.succ (Zpos (digits2_pos p) - 1)) by lia.
    rewrite !Z.pow_succ_r by lia. lia.
  - simpl. lia.
Qed.

Lemma iter_xO_spec (k p : positive) :
  Zpos (Pos.iter xO p k) = Zpos p * 2 ^ Zpos k /\
  Zpos (digits2_pos (Pos.iter xO p k)) = Zpos (digits2_pos p) + Zpos k.
Proof.
  induction k as [|k [IH1 IH2]] using Pos.peano_ind.
  - simpl. split; lia.
  - rewrite Pos.iter_succ. simpl digits2_pos.
    rewrite !Pos2Z.inj_succ, Z.pow_succ_r by lia.
    rewrite Pos2Z.inj_xO. split; lia.
Qed.

(** A mantissa of 53 bits with an exponent in range is not rounded. *)
Lemma binary_round_aux_exact (s : bool) (m : positive) (e : Z) :
  Zpos (digits2_pos m) = 53 -> -1074 <= e <= 971 ->
  binary_round_aux prec emax s (Zpos m) e loc_Exact = S754_finite s m e.
Proof.
  intros Hd He.
  assert (Hshr : shr_fexp prec emax (Zpos m) e loc_Exact
                 = ({| shr_m := Zpos m; shr_r := false; shr_s := false |}, e)).
  { unfold shr_fexp, fexp, emin, prec, emax. simpl Zdigits2. rewrite Hd.
    replace (Z.max (53 + e - 53) (3 - 1024 - 53) - e) with 0 by lia. reflexivity. }
  unfold binary_round_aux. rewrite Hshr. simpl. rewrite Hshr. simpl.
  unfold emax, prec. destruct (Z.leb_spec e (1024 - 53)); [reflexivity|lia].
Qed.

(** A whole number below [2^53] is a [float] exactly. *)
Lemma binary_round_small (s : bool) (p : positive) :
  Zpos p < 2 ^ 53 ->
  exists m e, binary_round prec emax s p 0 = S754_finite s m e /\
              -52 <= e <= 0 /\ Zpos m = Zpos p * 2 ^ (- e).
Proof.
  intros Hp. pose proof (digits2_pos_bounds p) as [Hlo Hhi].
  assert (Hd : Zpos (digits2_pos p) <= 53).
  { destruct (Z.le_gt_cases (Zpos (digits2_pos p)) 53) as [H|H]; [exact H|].
    assert (2 ^ 53 <= 2 ^ (Zpos (digits2_pos p) - 1)) by (apply Z.pow_le_mono_r; lia).
    lia. }
  unfold binary_round, shl_align, fexp, emin, prec, emax.
  replace (Z.max (Zpos (digits2_pos p) + 0 - 53) (3 - 1024 - 53) - 0)
    with (Zpos (digits2_pos p) - 53) by lia.
  replace (Z.max (Zpos (digits2_pos p) + 0 - 53) (3 - 1024 - 53))
    with (Zpos (digits2_pos p) - 53) by lia.
  destruct (Zpos (digits2_pos p) - 53) as [|k|k] eqn:Hk; [|lia|].
  - exists p, 0. split; [|split; [lia|simpl; lia]].
    apply binary_round_aux_exact; lia.
  - destruct (iter_xO_spec k p) as [Hv Hdk].
    exists (Pos.iter xO p k), (Zpos (digits2_pos p) - 53).
    split; [|split; [lia|]].
    + rewrite <- Hk. apply binary_round_aux_exact; lia.
    + rewrite Hv. f_equal. f_equal. lia.
Qed.

Lemma py_int_of_float_small (s : bool) (p : positive) :
  Zpos p < 2 ^ 53 ->
  py_int_of_float (binary_round prec emax s p 0) = Ok (cond_Zopp s (Zpos p)).
Proof.
  intros Hp. destruct (binary_round_small s p Hp) as (m & e & -> & He & Hm).
  unfold py_int_of_float. f_equal. f_equal.
  destruct (Z.leb_spec 0 e).
  - assert (e = 0) as -> by lia. simpl in Hm |- *. lia.
  - rewrite Hm. apply Z.div_mul. apply Z.pow_nonzero; lia.
Qed.

(** A digit is no character the number parser treats apart. *)
Lemma is_digit_code (c : ascii) : is_digit c = true -> 48 <= code c <= 57.
Proof. unfold is_digit. intros H. apply andb_true_iff in H as [H1 H2]. lia. Qed.

Lemma digit_not (c c' : ascii) :
  is_digit c = true -> is_digit c' = false -> Ascii.eqb c c' = false.
Proof.
  intros H H'. destruct (Ascii.eqb_spec c c') as [->|]; [congruence|reflexivity].
Qed.

Lemma map_string_digits (s : string) :
  all_digits s = true -> map_string to_ascii_space s = s.
Proof.
  induction s as [|c s IH]; simpl; [reflexivity|].
  intros H. apply andb_true_iff in H as [Hc Hs]. rewrite (IH Hs).
  unfold to_ascii_space. pose proof (is_digit_code c Hc).
  destruct (Z.eqb_spec (code c) 133); [lia|].
  destruct (Z.eqb_spec (code c) 160); [lia|]. reflexivity.
Qed.

Lemma is_c_space_digit (c : ascii) : is_digit c = true -> is_c_space c = false.
Proof.
  intros H. pose proof (is_digit_code c H). unfold is_c_space.
  destruct (Z.leb_spec 9 (code c)); destruct (Z.leb_spec (code c) 13);
    destruct (Z.eqb_spec (code c) 32); try lia; reflexivity.
Qed.

Lemma rstrip_c_digits (s : string) : all_digits s = true -> rstrip_c s = s.
Proof.
  induction s as [|c s IH]; simpl; [reflexivity|].
  intros H. apply andb_true_iff in H as [Hc Hs]. rewrite (IH Hs).
  rewrite (is_c_space_digit c Hc). destruct s; reflexivity.
Qed.

Lemma strip_underscores_digits (s : string) :
  forall prev, Ascii.eqb prev "_" = false -> all_digits s = true ->
  strip_underscores prev s = Some s.
Proof.
  induction s as [|c s IH]; intros prev Hprev H; simpl.
  - rewrite Hprev. reflexivity.
  - apply andb_true_iff in H as [Hc Hs].
    rewrite (digit_not c "_" Hc eq_refl), Hprev. simpl.
    rewrite (IH c (digit_not c "_" Hc eq_refl) Hs). reflexivity.
Qed.

Lemma string_of_uint_digits (d : Decimal.uint) :
  all_digits (NilEmpty.string_of_uint d) = true.
Proof. induction d; simpl; try assumption; reflexivity. Qed.

Lemma read_digits_uint (d : Decimal.uint) :
  forall acc n, exists k,
    read_digits acc n (NilEmpty.string_of_uint d) = (uint_value acc d, n + k, EmptyString) /\
    0 <= k /\ (d <> Decimal.Nil -> 0 < k).
Proof.
  induction d; intros acc n;
    [exists 0; rewrite Z.add_0_r; repeat split; [lia|congruence]|..];
    simpl NilEmpty.string_of_uint; simpl uint_value;
    match goal with
    | |- context [uint_value ?a d] =>
        destruct (IHd a (n + 1)) as (k & Hk & Hk0 & _)
    end;
    exists (1 + k); (split; [|split; [lia|intros _; lia]]);
    cbn [read_digits]; change (is_digit _) with true; cbv iota;
    (match type of Hk with read_digits ?a _ _ = _ =>
       match goal with |- read_digits ?b _ _ = _ => change b with a end end);
    rewrite Hk; f_equal; f_equal; lia.
Qed.

Lemma uint_value_acc (d : Decimal.uint) :
  forall acc : positive, uint_value (Zpos acc) d = Zpos (Pos.of_uint_acc d acc).
Proof.
  induction d; intros acc; simpl; [reflexivity|..];
    match goal with
    | |- uint_value ?a d = Zpos (Pos.of_uint_acc d ?b) =>
        replace a with (Zpos b) by lia; apply IHd
    end.
Qed.

Lemma uint_value_of_uint (d : Decimal.uint) : uint_value 0 d = Z.of_N (Pos.of_uint d).
Proof.
  induction d; simpl; try reflexivity; try exact IHd;
    match goal with
    | |- uint_value ?a d = Zpos (Pos.of_uint_acc d ?b) =>
        change a with (Zpos b); apply uint_value_acc
    end.
Qed.

Lemma read_decimal_digits (neg : bool) (s : string) (v k : Z) :
  read_digits 0 0 s = (v, k, EmptyString) -> 0 < k ->
  read_decimal neg s = Some (decimal_to_float neg v 0, EmptyString).
Proof.
  intros H Hk. unfold read_decimal. rewrite H.
  destruct (Z.eqb_spec (k + 0) 0); [lia|]. reflexivity.
Qed.

(** [float] of the decimal numeral of a positive whole number, after the
    sign. *)
Lemma py_float_numeral (p : positive) :
  let s := NilEmpty.string_of_uint (Pos.to_uint p) in
  py_float s = Ok (binary_round prec emax false p 0) /\
  py_float (String "-" s) = Ok (binary_round prec emax true p 0).
Proof.
  intros s.
  assert (Hs : all_digits s = true) by apply string_of_uint_digits.
  destruct (read_digits_uint (Pos.to_uint p) 0 0) as (k & Hk & _ & Hk0).
  specialize (Hk0 (DecimalPos.Unsigned.to_uint_nonnil p)).
  fold s in Hk. rewrite uint_value_of_uint, DecimalPos.Unsigned.of_to in Hk.
  simpl Z.of_N in Hk. rewrite Z.add_0_l in Hk.
  assert (Hne : exists c s', s = String c s' /\ is_digit c = true).
  { destruct s as [|c s']; [simpl in Hk; injection Hk as _ Hk'; lia|].
    simpl in Hs. apply andb_true_iff in Hs as [Hc _]. eauto. }
  destruct Hne as (c & s' & Es & Hc).
  assert (Hdec : forall neg, decimal_to_float neg (Zpos p) 0
                             = binary_round prec emax neg p 0).
  { intros neg. unfold decimal_to_float.
    change (Zpos p =? 0) with false. change (0 <=? 0) with true. cbv iota.
    rewrite Z.pow_0_r, Z.mul_1_r. destruct neg; reflexivity. }
  split.
  - unfold py_float. rewrite (map_string_digits s Hs).
    assert (Hl : lstrip_c s = s) by (rewrite Es; simpl; rewrite (is_c_space_digit c Hc); reflexivity).
    rewrite Hl, (rstrip_c_digits s Hs), (strip_underscores_digits s "000"%char eq_refl Hs).
    assert (Hsign : read_sign s = (false, s)).
    { rewrite Es. unfold read_sign.
      pose proof (digit_not c "-" Hc eq_refl) as H1.
      pose proof (digit_not c "+" Hc eq_refl) as H2.
      destruct c as [[] [] [] [] [] [] [] []]; try reflexivity; discriminate. }
    rewrite Hsign, (read_decimal_digits false s _ _ Hk Hk0), Hdec. reflexivity.
  - unfold py_float. cbn [map_string]. rewrite (map_string_digits s Hs).
    change (to_ascii_space "-") with "-"%char. cbn [lstrip_c].
    change (is_c_space "-") with false. cbv iota. cbn [rstrip_c].
    rewrite (rstrip_c_digits s Hs). change (is_c_space "-") with false.
    rewrite Es. cbv iota. rewrite <- Es.
    cbn [strip_underscores]. change (Ascii.eqb "-" "_") with false. cbv iota.
    change (Ascii.eqb "000" "_" && negb (is_digit "-")) with false. cbv iota.
    rewrite (strip_underscores_digits s "-"%char eq_refl Hs). cbn [option_map read_sign].
    rewrite (read_decimal_digits true s _ _ Hk Hk0), Hdec. reflexivity.
Qed.

Lemma parse_int_numeral (row : gmap string (option string)) (k : string) (n : Z) :
  - 2 ^ 53 < n < 2 ^ 53 ->
  row !! k = Some (Some (str_of_int n)) ->
  parse_int row k (PInt 0) = Ok (PInt n).
Proof.
  intros Hn Hrow. unfold parse_int, row_get. rewrite Hrow.
  destruct n as [|p|p].
  - reflexivity.
  - assert (Hstr : str_of_int (Zpos p) = NilEmpty.string_of_uint (Pos.to_uint p)).
    { unfold str_of_int. simpl. unfold NilZero.string_of_uint.
      pose proof (DecimalPos.Unsigned.to_uint_nonnil p).
      destruct (Pos.to_uint p); [contradiction|reflexivity..]. }
    rewrite Hstr.
    assert (Hne : cell_truthy (Some (NilEmpty.string_of_uint (Pos.to_uint p))) = true).
    { apply cell_truthy_nonempty. pose proof (DecimalPos.Unsigned.to_uint_nonnil p).
      destruct (Pos.to_uint p); [contradiction|discriminate..]. }
    rewrite Hne. simpl negb. cbv iota. unfold float_.
    rewrite (proj1 (py_float_numeral p)). simpl bind.
    rewrite py_int_of_float_small by lia. reflexivity.
  - assert (Hstr : str_of_int (Zneg p)
                   = String "-" (NilEmpty.string_of_uint (Pos.to_uint p))).
    { unfold str_of_int. simpl. unfold NilZero.string_of_uint.
      pose proof (DecimalPos.Unsigned.to_uint_nonnil p).
      destruct (Pos.to_uint p); [contradiction|reflexivity..]. }
    rewrite Hstr. simpl cell_truthy. simpl negb. cbv iota. unfold float_.
    rewrite (proj2 (py_float_numeral p)). simpl bind.
    rewrite py_int_of_float_small by lia. reflexivity.
Qed.

(** X23: a [review_count] written as a decimal whole number comes back as
    that number, as long as it is below [2^53] in size: [int(float(val))]
    goes through a [float], which holds such a number exactly. The bound is
    sharp: [2^53 + 1] comes back as [2^53]. *)
Theorem review_count_round_trip (row : gmap string (option string)) (n : Z) :
  - 2 ^ 53 < n < 2 ^ 53 ->
  row !! "review_count" = Some (Some (str_of_int n)) ->
  parse_int row "review_count" (PInt 0) = Ok (PInt n) /\
  (forall r, from_csv_row row = Ok r -> review_count r = PInt n) /\
  parse_int (review_count_row (str_of_int (2 ^ 53 + 1))) "review_count" (PInt 0)
    = Ok (PInt (2 ^ 53)).
Proof.
  intros Hn Hrow. pose proof (parse_int_numeral row "review_count" n Hn Hrow) as H.
  split; [exact H|]. split; [|vm_compute; reflexivity].
  intros r Hr. destruct (from_csv_row_inv row r Hr) as (_ & _ & _ & Hi & _).
  congruence.
Qed.

Lemma review_count_round_trip_witness :
  parse_int (review_count_row "1234") "review_count" (PInt 0) = Ok (PInt 1234).
Proof.
  apply (review_count_round_trip (review_count_row "1234") 1234).
  - vm_compute. split; reflexivity.
  - vm_compute. reflexivity.
Defined.
(** ** Plain CSV text *)

Lemma append_cons (c : ascii) (s t : string) : String c s +:+ t = String c (s +:+ t).
Proof. reflexivity. Qed.

Lemma append_nil_l (t : string) : "" +:+ t = t.
Proof. reflexivity. Qed.

Lemma append_nil_r (s : string) : s +:+ "" = s.
Proof. induction s as [|c s IH]; [reflexivity|]. rewrite append_cons, IH. reflexivity. Qed.

Lemma append_assoc (a b c : string) : (a +:+ b) +:+ c = a +:+ (b +:+ c).
Proof.
  induction a as [|x a IH]; [reflexivity|]. rewrite !append_cons, IH. reflexivity.
Qed.

Lemma rev_app_spec (s acc : string) : String.rev_app s acc = String.rev s +:+ acc.
Proof.
  unfold String.rev. revert acc.
  induction s as [|c s IH]; intros acc; simpl; [reflexivity|].
  rewrite (IH (String c acc)), (IH (String c EmptyString)), append_assoc. reflexivity.
Qed.

Lemma rev_String (c : ascii) (s : string) :
  String.rev (String c s) = String.rev s +:+ String c EmptyString.
Proof. unfold String.rev at 1. simpl. apply rev_app_spec. Qed.

(** [io.StringIO] cuts the text after each line feed. *)
Lemma lines_of_line (b : string) :
  forall cur rest, mem_char (ascii_of_nat 10) b = false ->
  lines_of cur (b +:+ String (ascii_of_nat 10) rest)
  = (String.rev cur +:+ b +:+ String (ascii_of_nat 10) EmptyString)
    :: lines_of EmptyString rest.
Proof.
  induction b as [|c b IH]; intros cur rest Hb.
  - rewrite append_nil_l. cbn [lines_of]. rewrite Ascii.eqb_refl, rev_String.
    rewrite append_nil_l. reflexivity.
  - cbn [mem_char] in Hb. apply orb_false_iff in Hb as [Hc Hb].
    rewrite append_cons. cbn [lines_of]. rewrite Hc, (IH _ _ Hb), rev_String, append_assoc.
    reflexivity.
Qed.

Lemma StringIO_lines_join (lines : list string) :
  Forall (fun b => mem_char (ascii_of_nat 10) b = false) lines ->
  StringIO_lines (join_lines lines)
  = map (fun b => b +:+ String (ascii_of_nat 10) EmptyString) lines.
Proof.
  unfold StringIO_lines. induction 1 as [|b rest Hb _ IH]; [reflexivity|].
  cbn [join_lines map]. rewrite (lines_of_line b _ _ Hb), IH. reflexivity.
Qed.

Lemma plain_line_spec (b : string) :
  plain_line b = true ->
  b <> "" /\ mem_char dquote b = false /\ mem_char (ascii_of_nat 10) b = false /\
  mem_char (ascii_of_nat 13) b = false /\
  Z.of_nat (String.length b) <= field_limit.
Proof.
  unfold plain_line. intros H.
  repeat (apply andb_true_iff in H as [H ?]).
  repeat match goal with
  | H : negb _ = true |- _ => apply negb_true_iff in H
  end.
  repeat split; try assumption; [|lia].
  intros ->. discriminate.
Qed.

Lemma split_cons (sep : ascii) (s : string) : exists p ps, split sep s = p :: ps.
Proof.
  destruct s as [|c s]; simpl; [eauto|].
  destruct (Ascii.eqb c sep); [eauto|]. destruct (split sep s); eauto.
Qed.

(** The parser inside a record, on text with no quote and no line break:
    a comma ends a field, the line feed ends the record. *)
Lemma parse_line_plain (b : string) :
  forall st fs cur,
  st = START_FIELD \/ st = IN_FIELD ->
  mem_char dquote b = false -> mem_char (ascii_of_nat 10) b = false ->
  mem_char (ascii_of_nat 13) b = false ->
  Z.of_nat (String.length cur + String.length b) <= field_limit ->
  parse_line {| state := st; fields := fs; field := cur |}
             (b +:+ String (ascii_of_nat 10) EmptyString)
  = Ok {| state := START_RECORD;
          fields := (rev (prepend_first (String.rev cur) (split "," b)) ++ fs)%list;
          field := EmptyString |}.
Proof.
  induction b as [|c b IH]; intros st fs cur Hst Hq Hlf Hcr Hlen.
  - rewrite append_nil_l. cbn [parse_line split prepend_first rev app].
    rewrite append_nil_r.
    destruct Hst as [-> | ->]; reflexivity.
  - cbn [mem_char] in Hq, Hlf, Hcr.
    apply orb_false_iff in Hq as [Hq1 Hq], Hlf as [Hlf1 Hlf], Hcr as [Hcr1 Hcr].
    assert (Hnl : is_newline c = false).
    { unfold is_newline.
      destruct (Z.eqb_spec (code c) 10) as [E|_].
      - apply Ascii.eqb_neq in Hlf1. exfalso. apply Hlf1.
        unfold code in E. rewrite <- (ascii_nat_embedding c).
        f_equal. lia.
      - destruct (Z.eqb_spec (code c) 13) as [E|_]; [|reflexivity].
        apply Ascii.eqb_neq in Hcr1. exfalso. apply Hcr1.
        unfold code in E. rewrite <- (ascii_nat_embedding c).
        f_equal. lia. }
    rewrite append_cons. cbn [parse_line split].
    destruct (split_cons "," b) as (p & ps & Hsp).
    destruct (Ascii.eqb c ",") eqn:Hcomma.
    + assert (Hstep : parse_process_char {| state := st; fields := fs; field := cur |}
                        (Some c)
                      = Ok {| state := START_FIELD; fields := String.rev cur :: fs;
                              field := EmptyString |}).
      { unfold parse_process_char. destruct Hst as [-> | ->]; cbn [state];
          rewrite Hnl, ?Hq1, Hcomma; reflexivity. }
      rewrite Hstep. cbn [bind].
      rewrite (IH START_FIELD _ EmptyString); try assumption; [|left; reflexivity|].
      2:{ cbn [String.length] in Hlen |- *. lia. }
      rewrite Hsp. cbn [prepend_first rev]. rewrite append_nil_r.
      change (String.rev "") with "". rewrite append_nil_l, <- !app_assoc.
      reflexivity.
    + assert (Hstep : parse_process_char {| state := st; fields := fs; field := cur |}
                        (Some c)
                      = Ok {| state := IN_FIELD; fields := fs; field := String c cur |}).
      { unfold parse_process_char, parse_add_char.
        destruct Hst as [-> | ->]; cbn [state field];
          rewrite Hnl, ?Hq1, Hcomma;
          (destruct (Z.leb_spec field_limit (Z.of_nat (String.length cur)));
           [cbn [String.length] in Hlen; lia|reflexivity]). }
      rewrite Hstep. cbn [bind].
      rewrite (IH IN_FIELD _ (String c cur)); try assumption; [|right; reflexivity|].
      2:{ cbn [String.length] in Hlen |- *. lia. }
      rewrite Hsp, rev_String. cbn [prepend_first]. rewrite append_assoc.
      reflexivity.
Qed.

(** A plain line read from the start of a record. *)
Lemma parse_line_record (b : string) :
  plain_line b = true ->
  parse_line parse_reset (b +:+ String (ascii_of_nat 10) EmptyString)
  = Ok {| state := START_RECORD; fields := rev (split "," b); field := EmptyString |}.
Proof.
  intros H. destruct (plain_line_spec b H) as (Hne & Hq & Hlf & Hcr & Hlen).
  destruct b as [|c b]; [contradiction|].
  assert (Hfirst : parse_process_char parse_reset (Some c)
                   = parse_process_char (set_state parse_reset START_FIELD) (Some c)).
  { unfold parse_process_char at 1. cbn [state parse_reset].
    cbn [mem_char] in Hlf, Hcr.
    apply orb_false_iff in Hlf as [Hlf1 _], Hcr as [Hcr1 _].
    assert (Hnl : is_newline c = false).
    { unfold is_newline.
      destruct (Z.eqb_spec (code c) 10) as [E|_].
      - apply Ascii.eqb_neq in Hlf1. exfalso. apply Hlf1.
        unfold code in E. rewrite <- (ascii_nat_embedding c). f_equal. lia.
      - destruct (Z.eqb_spec (code c) 13) as [E|_]; [|reflexivity].
        apply Ascii.eqb_neq in Hcr1. exfalso. apply Hcr1.
        unfold code in E. rewrite <- (ascii_nat_embedding c). f_equal. lia. }
    rewrite Hnl. unfold parse_process_char. cbn [state set_state parse_reset].
    rewrite Hnl. reflexivity. }
  pose proof (parse_line_plain (String c b) START_FIELD [] EmptyString
                (or_introl eq_refl) Hq Hlf Hcr) as Hp.
  rewrite append_cons in Hp |- *. cbn [parse_line] in Hp |- *.
  rewrite Hfirst.
  change (set_state parse_reset START_FIELD)
    with {| state := START_FIELD; fields := []; field := EmptyString |}.
  rewrite Hp by (cbn [String.length] in Hlen |- *; lia).
  f_equal. f_equal. rewrite app_nil_r.
  destruct (split_cons "," (String c b)) as (p & ps & ->). reflexivity.
Qed.

Lemma reader_records_plain (lines : list string) :
  Forall (fun b => plain_line b = true) lines ->
  reader_records parse_reset
    (map (fun b => b +:+ String (ascii_of_nat 10) EmptyString) lines)
  = (map (split ",") lines, None).
Proof.
  induction 1 as [|b rest Hb _ IH]; [reflexivity|].
  cbn [map reader_records]. rewrite (parse_line_record b Hb). cbn [state is_START_RECORD].
  rewrite IH. cbn [fields]. rewrite rev_involutive. reflexivity.
Qed.

Lemma split_not_nil (sep : ascii) (s : string) : is_nil (split sep s) = false.
Proof.
  destruct s as [|c s]; simpl; [reflexivity|].
  destruct (Ascii.eqb c sep); [reflexivity|]. destruct (split sep s); reflexivity.
Qed.

Lemma csv_reader_plain (lines : list string) :
  Forall (fun b => plain_line b = true) lines ->
  csv_reader (join_lines lines) = (map (split ",") lines, None).
Proof.
  intros Hall. unfold csv_reader. rewrite StringIO_lines_join.
  - apply reader_records_plain, Hall.
  - eapply Forall_impl; [exact Hall|]. intros b Hb. apply (plain_line_spec b Hb).
Qed.

Lemma DictReader_rows_plain (header : string) (lines : list string) :
  plain_line header = true ->
  Forall (fun b => plain_line b = true) lines ->
  DictReader (join_lines (header :: lines))
    = (map (fun b => zip_row (split "," header) (split "," b) ∅) lines, None).
Proof.
  intros Hh Hl. unfold DictReader.
  rewrite (csv_reader_plain (header :: lines)) by (constructor; assumption).
  cbn [map]. f_equal.
  assert (Hf : List.filter (fun record => negb (is_nil record)) (map (split ",") lines)
               = map (split ",") lines).
  { clear. induction lines as [|b rest IH]; [reflexivity|].
    cbn [map List.filter]. rewrite split_not_nil, IH. reflexivity. }
  rewrite Hf, map_map. reflexivity.
Qed.

(** X24: on plain CSV text (lines that are not empty and hold no quote or
    line break, each ended by a line feed) the reader yields one row per
    line after the first, in order and without an error: the cells of a row
    are the pieces of its line between the commas, under the names the
    first line gives between its commas. *)
Theorem DictReader_plain (header : string) (lines : list string) :
  plain_line header = true ->
  Forall (fun b => plain_line b = true) lines ->
  csv_reader (join_lines (header :: lines))
    = (split "," header :: map (split ",") lines, None) /\
  DictReader (join_lines (header :: lines))
    = (map (fun b => zip_row (split "," header) (split "," b) ∅) lines, None).
Proof.
  intros Hh Hl. split.
  - apply (csv_reader_plain (header :: lines)). constructor; assumption.
  - apply DictReader_rows_plain; assumption.
Qed.

Lemma DictReader_plain_witness :
  DictReader two_rows_csv = ([row_a; row_b], None).
Proof.
  assert (Hl : Forall (fun b => plain_line b = true)
                 ["Cafe A,http://a.example,12.0,a@x.com"; "Cafe B,,abc,"])
    by (repeat constructor).
  exact (proj2 (DictReader_plain "title,website,review_count,emails"
                  ["Cafe A,http://a.example,12.0,a@x.com"; "Cafe B,,abc,"] eq_refl Hl)).
Defined.
(** ** The deadline on a clock of whole seconds *)

Lemma digits2_pos_unique (x : positive) (L : Z) :
  2 ^ (L - 1) <= Zpos x < 2 ^ L -> Zpos (digits2_pos x) = L.
Proof.
  intros [Hlo Hhi]. pose proof (digits2_pos_bounds x) as [Dlo Dhi].
  destruct (Z.lt_trichotomy (Zpos (digits2_pos x)) L) as [H|[H|H]]; [|exact H|].
  - assert (2 ^ Zpos (digits2_pos x) <= 2 ^ (L - 1)) by (apply Z.pow_le_mono_r; lia).
    lia.
  - assert (2 ^ L <= 2 ^ (Zpos (digits2_pos x) - 1)) by (apply Z.pow_le_mono_r; lia).
    lia.
Qed.

Lemma iter_pos_nat {A : Type} (f : A -> A) (n : positive) :
  forall x, @SpecFloat.iter_pos A f n x = @Nat.iter (Pos.to_nat n) A f x.
Proof.
  induction n as [n IH|n IH|]; intros x; simpl SpecFloat.iter_pos.
  - rewrite !IH, Pos2Nat.inj_xI, <- Nat.iter_add, <- Nat.iter_succ_r.
    f_equal. lia.
  - rewrite !IH, Pos2Nat.inj_xO, <- Nat.iter_add. f_equal. lia.
  - reflexivity.
Qed.

(** Shifting out zeros leaves no remainder. *)
Lemma shr_trailing_zeros (t : nat) :
  forall m : positive,
  @Nat.iter t shr_record shr_1
    {| shr_m := Zpos (@Nat.iter t positive xO m); shr_r := false; shr_s := false |}
  = {| shr_m := Zpos m; shr_r := false; shr_s := false |}.
Proof.
  induction t as [|t IH]; intros m; [reflexivity|].
  change (@Nat.iter (S t) positive xO m) with (xO (@Nat.iter t positive xO m)).
  rewrite Nat.iter_succ_r. simpl shr_1. apply IH.
Qed.

Lemma shr_iter_xO (j m : positive) :
  SpecFloat.iter_pos shr_1 j
    {| shr_m := Zpos (Pos.iter xO m j); shr_r := false; shr_s := false |}
  = {| shr_m := Zpos m; shr_r := false; shr_s := false |}.
Proof.
  rewrite iter_pos_nat, Pos2Nat.inj_iter. apply shr_trailing_zeros.
Qed.

(** A mantissa longer than 53 bits whose extra bits are zeros is shortened
    without rounding. *)
Lemma binary_round_aux_zeros (s : bool) (m : positive) (j : positive) (e : Z) :
  Zpos (digits2_pos m) = 53 -> -1074 <= e -> e + Zpos j <= 971 ->
  binary_round_aux prec emax s (Zpos (Pos.iter xO m j)) e loc_Exact
  = S754_finite s m (e + Zpos j).
Proof.
  intros Hd Hlo Hhi. destruct (iter_xO_spec j m) as [_ Hdj].
  assert (Hshr : shr_fexp prec emax (Zpos (Pos.iter xO m j)) e loc_Exact
                 = ({| shr_m := Zpos m; shr_r := false; shr_s := false |}, e + Zpos j)).
  { unfold shr_fexp, fexp, emin, prec, emax. simpl Zdigits2. rewrite Hdj, Hd.
    replace (Z.max (53 + Zpos j + e - 53) (3 - 1024 - 53) - e) with (Zpos j) by lia.
    unfold shr_record_of_loc, shr. rewrite shr_iter_xO. reflexivity. }
  assert (Hshr2 : shr_fexp prec emax (Zpos m) (e + Zpos j) loc_Exact
                  = ({| shr_m := Zpos m; shr_r := false; shr_s := false |}, e + Zpos j)).
  { unfold shr_fexp, fexp, emin, prec, emax. simpl Zdigits2. rewrite Hd.
    replace (Z.max (53 + (e + Zpos j) - 53) (3 - 1024 - 53) - (e + Zpos j)) with 0 by lia.
    reflexivity. }
  unfold binary_round_aux. rewrite Hshr. simpl. rewrite Hshr2. simpl.
  unfold emax, prec. destruct (Z.leb_spec (e + Zpos j) (1024 - 53)); [reflexivity|lia].
Qed.

(** A whole number below [2^53], given with a scale, is a [float] exactly. *)
Lemma binary_round_exact (s : bool) (d v : positive) (ez : Z) :
  -52 <= ez <= 0 -> Zpos v < 2 ^ 53 -> Zpos d = Zpos v * 2 ^ (- ez) ->
  exists m e, binary_round prec emax s d ez = S754_finite s m e /\
              -52 <= e <= 0 /\ Zpos m = Zpos v * 2 ^ (- e).
Proof.
  intros Hez Hv Hd. pose proof (digits2_pos_bounds v) as [Vlo Vhi].
  set (L := Zpos (digits2_pos v)) in *.
  assert (HL : 1 <= L <= 53).
  { split; [unfold L; lia|].
    destruct (Z.le_gt_cases L 53) as [H|H]; [exact H|].
    assert (2 ^ 53 <= 2 ^ (L - 1)) by (apply Z.pow_le_mono_r; lia). lia. }
  assert (Hpow : 0 < 2 ^ (- ez)) by (apply Z.pow_pos_nonneg; lia).
  assert (Hdig : Zpos (digits2_pos d) = L - ez).
  { apply digits2_pos_unique. rewrite Hd.
    assert (E1 : 2 ^ (L - ez - 1) = 2 ^ (L - 1) * 2 ^ (- ez))
      by (rewrite <- Z.pow_add_r by lia; f_equal; lia).
    assert (E2 : 2 ^ (L - ez) = 2 ^ L * 2 ^ (- ez))
      by (rewrite <- Z.pow_add_r by lia; f_equal; lia).
    rewrite E1, E2. split.
    - apply Z.mul_le_mono_nonneg_r; lia.
    - apply Z.mul_lt_mono_pos_r; lia. }
  assert (Hm1 : exists m1 : positive, Zpos m1 = Zpos v * 2 ^ (53 - L)).
  { exists (Z.to_pos (Zpos v * 2 ^ (53 - L))). apply Z2Pos.id.
    apply Z.mul_pos_pos; [lia|apply Z.pow_pos_nonneg; lia]. }
  destruct Hm1 as [m1 Hm1].
  assert (Hm1d : Zpos (digits2_pos m1) = 53).
  { apply digits2_pos_unique. rewrite Hm1.
    assert (E1 : 2 ^ (53 - 1) = 2 ^ (L - 1) * 2 ^ (53 - L))
      by (rewrite <- Z.pow_add_r by lia; f_equal; lia).
    assert (E2 : 2 ^ 53 = 2 ^ L * 2 ^ (53 - L))
      by (rewrite <- Z.pow_add_r by lia; f_equal; lia).
    rewrite E1, E2.
    assert (0 < 2 ^ (53 - L)) by (apply Z.pow_pos_nonneg; lia). split.
    - apply Z.mul_le_mono_nonneg_r; lia.
    - apply Z.mul_lt_mono_pos_r; lia. }
  exists m1, (L - 53). split; [|split; [lia|rewrite Hm1; f_equal; f_equal; lia]].
  unfold binary_round, shl_align, fexp, emin, prec, emax.
  rewrite Hdig.
  replace (Z.max (L - ez + ez - 53) (3 - 1024 - 53)) with (L - 53) by lia.
  destruct (L - 53 - ez) as [|j|j] eqn:Hj.
  - assert (Zpos d = Zpos m1) as Hdm.
    { rewrite Hd, Hm1. f_equal. f_equal. lia. }
    injection Hdm as ->. replace (L - 53) with ez by lia.
    apply binary_round_aux_exact; lia.
  - assert (Hdj : d = Pos.iter xO m1 j).
    { destruct (iter_xO_spec j m1) as [Hval _].
      assert (Zpos d = Zpos (Pos.iter xO m1 j)) as Hdm.
      { rewrite Hval, Hd, Hm1, <- Z.mul_assoc, <- Z.pow_add_r by lia.
        f_equal. f_equal. lia. }
      injection Hdm as ->. reflexivity. }
    rewrite Hdj. replace (L - 53) with (ez + Zpos j) by lia.
    apply binary_round_aux_zeros; lia.
  - assert (Hmj : m1 = Pos.iter xO d j).
    { destruct (iter_xO_spec j d) as [Hval _].
      assert (Zpos m1 = Zpos (Pos.iter xO d j)) as Hdm.
      { rewrite Hval, Hd, Hm1, <- Z.mul_assoc, <- Z.pow_add_r by lia.
        f_equal. f_equal. lia. }
      injection Hdm as ->. reflexivity. }
    rewrite <- Hmj. apply binary_round_aux_exact; lia.
Qed.

(** The reading of a whole second, as a number with its scale. *)
Lemma seconds_finite (p : positive) :
  Zpos p < 2 ^ 53 ->
  exists m, seconds (Zpos p) = S754_finite false m (Zpos (digits2_pos p) - 53) /\
            Zpos m = Zpos p * 2 ^ (53 - Zpos (digits2_pos p)) /\
            1 <= Zpos (digits2_pos p) <= 53.
Proof.
  intros Hp. pose proof (digits2_pos_bounds p) as [Hlo Hhi].
  assert (Hd : Zpos (digits2_pos p) <= 53).
  { destruct (Z.le_gt_cases (Zpos (digits2_pos p)) 53) as [H|H]; [exact H|].
    assert (2 ^ 53 <= 2 ^ (Zpos (digits2_pos p) - 1)) by (apply Z.pow_le_mono_r; lia).
    lia. }
  unfold seconds, binary_normalize, binary_round, shl_align, fexp, emin, prec, emax.
  replace (Z.max (Zpos (digits2_pos p) + 0 - 53) (3 - 1024 - 53))
    with (Zpos (digits2_pos p) - 53) by lia.
  replace (Zpos (digits2_pos p) - 53 - 0) with (Zpos (digits2_pos p) - 53) by lia.
  destruct (Zpos (digits2_pos p) - 53) as [|k|k] eqn:Hk; [|lia|].
  - exists p. split; [apply binary_round_aux_exact; lia|].
    split; [|lia]. replace (53 - Zpos (digits2_pos p)) with 0 by lia. simpl. lia.
  - destruct (iter_xO_spec k p) as [Hv Hdk].
    exists (Pos.iter xO p k). split; [apply binary_round_aux_exact; lia|].
    split; [|lia]. rewrite Hv. f_equal. f_equal. lia.
Qed.

(** [f > z] on a float that is the whole number [v]. *)
Lemma float_gt_int_exact (m : positive) (e v z : Z) :
  e <= 0 -> Zpos m = v * 2 ^ (- e) ->
  float_gt_int (S754_finite false m e) z = (z <? v).
Proof.
  intros He Hm. unfold float_gt_int. simpl cond_Zopp.
  assert (Hpow : 0 < 2 ^ (- e)) by (apply Z.pow_pos_nonneg; lia).
  destruct (Z.leb_spec 0 e).
  - assert (e = 0) as -> by lia. simpl in Hm |- *. f_equal. lia.
  - rewrite Hm.
    destruct (Z.ltb_spec (z * 2 ^ (- e)) (v * 2 ^ (- e))) as [H1|H1];
      destruct (Z.ltb_spec z v) as [H2|H2]; try reflexivity; exfalso.
    + apply Z.mul_lt_mono_pos_r in H1; lia.
    + apply (Z.mul_lt_mono_pos_r (2 ^ (- e))) in H2; lia.
Qed.

(** The difference of two readings in whole seconds is exact. *)
Lemma float_sub_seconds (a b z : Z) :
  0 <= a <= b -> b < 2 ^ 53 ->
  float_gt_int (float_sub (seconds b) (seconds a)) z = (z <? b - a).
Proof.
  intros Hab Hb.
  destruct b as [|pb|pb]; [| |lia].
  { assert (a = 0) as -> by lia. reflexivity. }
  destruct (seconds_finite pb Hb) as (mb & -> & Hmb & Hdb).
  destruct a as [|pa|pa]; [| |lia].
  { change (seconds 0) with (S754_zero false). unfold float_sub. simpl SFsub.
    rewrite Z.sub_0_r. apply float_gt_int_exact; [lia|].
    rewrite Hmb. f_equal. f_equal. lia. }
  assert (Ha : Zpos pa < 2 ^ 53) by lia.
  destruct (seconds_finite pa Ha) as (ma & -> & Hma & Hda).
  set (ea := Zpos (digits2_pos pa) - 53) in *.
  set (eb := Zpos (digits2_pos pb) - 53) in *.
  assert (Hle : ea <= eb).
  { pose proof (digits2_pos_bounds pa) as [Alo Ahi].
    pose proof (digits2_pos_bounds pb) as [Blo Bhi].
    destruct (Z.le_gt_cases (Zpos (digits2_pos pa)) (Zpos (digits2_pos pb))) as [H|H];
      [unfold ea, eb; lia|].
    assert (2 ^ Zpos (digits2_pos pb) <= 2 ^ (Zpos (digits2_pos pa) - 1))
      by (apply Z.pow_le_mono_r; lia).
    lia. }
  unfold float_sub. cbn [SFsub]. rewrite (Z.min_r eb ea Hle).
  assert (Hfa : fst (shl_align ma ea ea) = ma).
  { unfold shl_align. rewrite Z.sub_diag. reflexivity. }
  assert (Hfb : Zpos (fst (shl_align mb eb ea)) = Zpos pb * 2 ^ (- ea)).
  { unfold shl_align. destruct (ea - eb) as [|j|j] eqn:Hj; [|lia|].
    - cbn [fst]. rewrite Hmb. f_equal. f_equal. unfold ea, eb in *. lia.
    - cbn [fst]. destruct (iter_xO_spec j mb) as [Hv _].
      rewrite Hv, Hmb, <- Z.mul_assoc, <- Z.pow_add_r by (unfold eb in *; lia).
      f_equal. f_equal. unfold ea, eb in *. lia. }
  rewrite Hfa. cbn [cond_Zopp].
  assert (Hpow : 0 < 2 ^ (- ea)) by (apply Z.pow_pos_nonneg; unfold ea; lia).
  assert (Hdiff : Zpos (fst (shl_align mb eb ea)) - Zpos ma
                  = (Zpos pb - Zpos pa) * 2 ^ (- ea)).
  { rewrite Hfb, Hma. replace (53 - Zpos (digits2_pos pa)) with (- ea) by (unfold ea; lia).
    lia. }
  rewrite Hdiff.
  destruct (Z.eq_dec (Zpos pb) (Zpos pa)) as [E|E].
  - rewrite E, Z.sub_diag. reflexivity.
  - assert (Hpos : 0 < Zpos pb - Zpos pa) by lia.
    destruct (Zpos pb - Zpos pa) as [|v|v] eqn:Hv; [lia| |lia].
    assert (Hd : exists d : positive, Zpos d = Zpos v * 2 ^ (- ea)).
    { exists (Z.to_pos (Zpos v * 2 ^ (- ea))). apply Z2Pos.id. lia. }
    destruct Hd as [d Hd]. rewrite <- Hd. unfold binary_normalize.
    destruct (binary_round_exact false d v ea) as (m & e & -> & He & Hm);
      [unfold ea; lia|lia|exact Hd|].
    apply float_gt_int_exact; [lia|exact Hm].
Qed.

(** X25: on a clock that reads whole seconds, the deadline test of
    [wait_for_job] is passed exactly when more than [timeout_s] seconds
    have gone by since the start: a turn that begins [timeout_s] seconds
    after the start still polls. *)
Theorem deadline_is_strict (self : MapsScraperClient) (a b : Z) :
  0 <= a <= b -> b < 2 ^ 53 ->
  deadline_passed self (seconds a) (seconds b) = (timeout_s self <? b - a).
Proof.
  intros Hab Hb. unfold deadline_passed. apply float_sub_seconds; assumption.
Qed.

Lemma deadline_is_strict_witness :
  deadline_passed local_client (seconds 100) (seconds 400) = false /\
  deadline_passed local_client (seconds 100) (seconds 401) = true.
Proof.
  split.
  - rewrite (deadline_is_strict local_client 100 400); [reflexivity|lia|reflexivity].
  - rewrite (deadline_is_strict local_client 100 401); [reflexivity|lia|reflexivity].
Defined.
(** ** The whole fetch, from the answers of the service *)

(** X26: the fetch on a service that works. If the create request is
    answered 201 with an [id], the status requests are answered with
    non-terminal responses [n] times and then with a 200 whose status is
    [finished] or [ok], all within the deadline, and the download request is
    answered below 400 with plain CSV text whose lines all decode, then
    [fetch_places] returns the records of the lines after the first, in
    order, after [n + 3] requests. *)
Theorem fetch_places_end_to_end (py_repr : pyval -> string) (self : MapsScraperClient)
    (query : string) (kwargs : JobParams) (w : World) (n : nat)
    (created polled_ok downloaded : Response) (d1 d2 : list (string * pyval))
    (job_id : pyval) (st : string) (header : string) (lines : list string)
    (results : list MapsResult) :
  serve w (requests w) (create_request self query kwargs) = Ok created ->
  resp_status created = 201 -> resp_json created = Ok (PDict d1) ->
  dict_lookup d1 "id" = Some job_id ->
  (forall i, (i < n)%nat ->
     non_terminal (serve w (S (requests w) + i)%nat
                     (status_request (job_url py_repr self job_id)))) ->
  (forall i, (i <= n)%nat ->
     deadline_passed self (clock w (readings w)) (clock w (S (readings w) + i)%nat) = false) ->
  serve w (S (requests w) + n)%nat (status_request (job_url py_repr self job_id))
    = Ok polled_ok ->
  resp_status polled_ok = 200 -> resp_json polled_ok = Ok (PDict d2) ->
  dict_lookup d2 "status" = Some (PStr st) -> st = "finished" \/ st = "ok" ->
  serve w (S (S (requests w)) + n)%nat
    (status_request (job_url py_repr self job_id +:+ "/download")) = Ok downloaded ->
  resp_status downloaded < 400 ->
  resp_text downloaded = Ok (join_lines (header :: lines)) ->
  plain_line header = true ->
  Forall (fun b => plain_line b = true) lines ->
  Forall2 (fun b r => from_csv_row (zip_row (split "," header) (split "," b) ∅) = Ok r)
          lines results ->
  forall fuel, (n < fuel)%nat ->
  exists w', fetch_places py_repr fuel self query kwargs w = Some (Ok results, w') /\
             requests w' = (requests w + n + 3)%nat.
Proof.
  intros Hc H201 Hj1 Hid Hnt Hdl Hp H200 Hj2 Hst Hs Hd H400 Htext Hh Hl Hrows fuel Hfuel.
  unfold fetch_places.
  assert (Hsubmit : submit_job self query kwargs w =
            Some (Ok job_id,
                  {| serve := serve w; clock := clock w; requests := S (requests w);
                     readings := readings w;
                     trace := (trace w ++ [EvRequest (create_request self query kwargs)])%list |})).
  { unfold submit_job, bindM, session_post, request.
    fold (create_request self query kwargs). rewrite Hc, H201. simpl.
    unfold lift. rewrite Hj1. simpl. rewrite Hid. reflexivity. }
  unfold bindM at 1. rewrite Hsubmit.
  unfold bindM at 1, logger_info at 1. unfold bindM at 1.
  rewrite wait_for_job_unfold. cbn [serve clock requests readings trace emit].
  replace fuel with (n + S (fuel - S n))%nat by lia.
  edestruct (loop_skip py_repr self (job_url py_repr self job_id) job_id
               (clock w (readings w)) 5 n) as (w1 & -> & Hs1 & Hc1 & Hr1 & Hk1).
  { intros i Hi. cbn [clock readings]. apply Hdl. lia. }
  { intros i Hi. cbn [serve requests]. apply Hnt. exact Hi. }
  cbn [serve clock requests readings] in Hs1, Hc1, Hr1, Hk1.
  rewrite loop_step, turn_response.
  2:{ rewrite Hc1, Hk1. apply Hdl. lia. }
  rewrite Hs1, Hr1, Hp, H200. simpl. unfold bindM at 1, lift at 1. rewrite Hj2.
  unfold bindM at 1, lift at 1. cbn [get_]. rewrite Hst.
  assert (Hmark : (eq_str (PStr st) "finished" || eq_str (PStr st) "ok") = true)
    by (destruct Hs as [-> | ->]; reflexivity).
  rewrite Hmark. unfold ret at 1.
  unfold bindM at 1, lift at 1. cbn [get_]. rewrite Hst.
  unfold bindM at 1, logger_info at 1.
  unfold bindM at 1, download_csv at 1, bindM at 1, session_get, request.
  fold (status_request (job_url py_repr self job_id +:+ "/download")).
  cbn [serve requests polled emit]. rewrite Hs1, Hr1.
  replace (S (S (requests w) + n)) with (S (S (requests w)) + n)%nat by lia.
  rewrite Hd. unfold bindM at 1, raise_for_status.
  destruct (Z.leb_spec 400 (resp_status downloaded)); [lia|].
  unfold ret at 1, lift at 1. rewrite Htext.
  rewrite (DictReader_rows_plain header lines Hh Hl).
  assert (Hdec : decode_rows
            (map (fun b => zip_row (split "," header) (split "," b) ∅) lines) None []
            = Ok results).
  { rewrite (decode_rows_all _ results [] None); [reflexivity|].
    clear -Hrows. induction Hrows; constructor; assumption. }
  unfold lift. rewrite Hdec. eexists. split; [reflexivity|]. cbn [requests]. lia.
Qed.

Lemma fetch_places_end_to_end_witness :
  exists r1 r2 w',
    fetch_places no_repr 10 local_client "coffee shops" default_params happy_world
      = Some (Ok [r1; r2], w') /\
    title r1 = PStr "Cafe A" /\ title r2 = PStr "Cafe B".
Proof.
  destruct (from_csv_row row_a) as [r1|e] eqn:E1; [|vm_compute in E1; discriminate E1].
  destruct (from_csv_row row_b) as [r2|e] eqn:E2; [|vm_compute in E2; discriminate E2].
  exists r1, r2.
  destruct (fetch_places_end_to_end no_repr local_client "coffee shops" default_params
              happy_world 0
              (json_response 201 (PDict [("id", PStr "J1")]))
              (json_response 200 (status_payload "ok"))
              (text_response 200 two_rows_csv)
              [("id", PStr "J1")] [("status", PStr "ok")] (PStr "J1") "ok"
              "title,website,review_count,emails"
              ["Cafe A,http://a.example,12.0,a@x.com"; "Cafe B,,abc,"]
              [r1; r2]) with (fuel := 10%nat) as (w' & Hw & _);
    try reflexivity.
  - intros i Hi. lia.
  - intros i Hi. assert (i = 0%nat) as -> by lia. vm_compute. reflexivity.
  - right. reflexivity.
  - repeat constructor.
  - constructor; [exact E1|]. constructor; [exact E2|]. constructor.
  - lia.
  - exists w'. split; [exact Hw|].
    vm_compute in E1. injection E1 as <-. vm_compute in E2. injection E2 as <-.
    split; reflexivity.
Defined.
